(** * Radeon_HD_glDrawBuffers_demo: a shallow embedding of [src/main.cpp]

    The program opens a window, builds two shader programs, renders a
    half-size quad into colour attachment 1 of an offscreen framebuffer
    and then draws that attachment to the window, until the window is
    asked to close.

    The file has three layers:
    - the line splitting of [compileShader], on lists of characters;
    - the control flow of [createProgram] and [main], as a state monad
      over a world that records every API call and answers every query;
    - the OpenGL 3.3 state the recorded calls drive, down to the pixels
      of the two textures and of the window. *)

From Stdlib Require Import ZArith QArith Qround String Ascii List Lia DecimalString Lqa.
From stdpp Require Import base option list strings gmap.
Import ListNotations.

Open Scope Z_scope.

(** ** 1. Line splitting in [compileShader] (main.cpp, lines 50-68) *)

Definition newline : ascii := "010"%char.
Definition nul : ascii := "000"%char.

(** [c == '\n'] *)
Definition is_newline (c : ascii) : bool := Ascii.eqb c newline.

(** The 32-bit integers of these lines.  [unsigned int] arithmetic is
    arithmetic modulo 2^32.  For [int] the wrap-around of two's
    complement is written out, which is what a conversion to [int] does
    and what compilers make of an [int] that is incremented past its
    largest value. *)
Definition wrap_uint (z : Z) : Z := z mod 2 ^ 32.

Definition cast_int (z : Z) : Z :=
  let m := z mod 2 ^ 32 in if m <? 2 ^ 31 then m else m - 2 ^ 32.

(** Line 51: [for (const auto c : source) linesCount += (c == '\n')],
    [linesCount] an [unsigned int]. *)
Definition count_newlines (source : list ascii) : Z :=
  fold_left (fun linesCount c => wrap_uint (linesCount + (if is_newline c then 1 else 0)))
            source 0.

(** The variables of the second loop: [idx] and [lineLength] are [int]s.
    A pointer into [source.data()] is its offset; an array cell is [None]
    until the loop writes it ([new T[n]] leaves the cells of a scalar
    array uninitialised). *)
Record split_state := {
  idx : Z;
  lineStart : Z;
  lineLength : Z;
  sourceLines : list (option Z);
  lengths : list (option Z)
}.

(** [a[k] = v].  A write outside the array has no defined result. *)
Definition write_cell (k v : Z) (a : list (option Z)) : option (list (option Z)) :=
  if (0 <=? k) && (k <? Z.of_nat (length a)) then Some (<[Z.to_nat k := Some v]> a)
  else None.

(** Lines 60-67, the body of the loop at index [i] reading [c = source[i]]. *)
Definition split_step (i : Z) (c : ascii) (st : split_state) : option split_state :=
  if is_newline c then
    match write_cell (idx st) (lineStart st) (sourceLines st),
          write_cell (idx st) (lineLength st) (lengths st) with
    | Some starts, Some lens =>
        Some {| idx := cast_int (idx st + 1);
                lineStart := i + 1;
                lineLength := 1;
                sourceLines := starts;
                lengths := lens |}
    | _, _ => None
    end
  else
    Some {| idx := idx st;
            lineStart := lineStart st;
            lineLength := cast_int (lineLength st + 1);
            sourceLines := sourceLines st;
            lengths := lengths st |}.

(** Lines 59-68: [for (unsigned int i = 0; i < len; ++i)], where [len] is
    the [size_t] that [source.length()] returns, so that [++i] wraps
    around before [i] gets to a [len] of 2^32 or more.  The loop is given
    [fuel] turns; the result is [None] when these do not bring it to its
    end, and when a turn has no defined result. *)
Fixpoint split_loop (fuel : nat) (source : list ascii) (len i : Z) (st : split_state)
    : option split_state :=
  if i <? len then
    match fuel with
    | O => None
    | S fuel' =>
        match source !! Z.to_nat i with
        | Some c =>
            match split_step i c st with
            | Some st' => split_loop fuel' source len (wrap_uint (i + 1)) st'
            | None => None
            end
        | None => None
        end
    end
  else Some st.

(** Lines 52-57: the state before the loop. *)
Definition split_init (linesCount : Z) : split_state :=
  {| idx := 0;
     lineStart := 0;
     lineLength := 1;
     sourceLines := replicate (Z.to_nat linesCount) None;
     lengths := replicate (Z.to_nat linesCount) None |}.

(** What line 70 hands to [glShaderSource]: the count, converted to the
    [GLsizei] of the parameter, and the two arrays. *)
Record shader_lines := {
  sl_count : Z;
  sl_starts : list (option Z);
  sl_lengths : list (option Z)
}.

(** Lines 50-68.  The loop gets one turn more than the source has
    characters: when these do not end it, no number of turns does
    ([split_loop_endless] below).  [None]: the loop does not come to an
    end, or writes outside an array. *)
Definition split_lines (source : list ascii) : option shader_lines :=
  let linesCount := count_newlines source in
  let len := Z.of_nat (length source) in
  match split_loop (S (length source)) source len 0 (split_init linesCount) with
  | Some st =>
      Some {| sl_count := cast_int linesCount;
              sl_starts := sourceLines st;
              sl_lengths := lengths st |}
  | None => None
  end.

(** The characters of a null-terminated string. *)
Fixpoint upto_nul (s : list ascii) : list ascii :=
  match s with
  | [] => []
  | c :: s' => if Ascii.eqb c nul then [] else c :: upto_nul s'
  end.

(** The driver's reading of one entry: [len] characters from offset
    [start] of the buffer, or, when [len] is negative, the characters
    from [start] up to the next null character (the buffer of a
    [std::string] ends with one).  An uninitialised cell or a read
    outside the buffer has no defined result. *)
Definition entry_text (buf : list ascii) (start len : option Z) : option (list ascii) :=
  match start, len with
  | Some s, Some l =>
      if (s <? 0) || (Z.of_nat (length buf) <? s) then None
      else if l <? 0 then Some (upto_nul (drop (Z.to_nat s) buf))
      else if s + l <=? Z.of_nat (length buf)
           then Some (take (Z.to_nat l) (drop (Z.to_nat s) buf))
           else None
  | _, _ => None
  end.

(** The entries [0 .. count-1] in order. *)
Definition entry_texts (buf : list ascii) (sl : shader_lines) : option (list (list ascii)) :=
  mapM (fun k => entry_text buf (default None (sl_starts sl !! k))
                              (default None (sl_lengths sl !! k)))
       (seq 0 (Z.to_nat (sl_count sl))).

(** [glShaderSource] takes the concatenation of the entries as the source
    of the shader. *)
Definition submitted_text (buf : list ascii) (sl : shader_lines) : option (list ascii) :=
  @List.concat ascii <$> entry_texts buf sl.

(** The text [compileShader] submits for a source, when it gets as far
    as line 70. *)
Definition submission (source : list ascii) : option (list ascii) :=
  split_lines source ≫= submitted_text source.

(** The offset just after the last newline of [s] (0 when there is none),
    counted from [i], the offset of the head of [s]. *)
Fixpoint after_last_newline (s : list ascii) (i : nat) (acc : nat) : nat :=
  match s with
  | [] => acc
  | c :: s' => after_last_newline s' (S i) (if is_newline c then S i else acc)
  end.

(** The text up to and including its last newline. *)
Definition upto_last_newline (s : list ascii) : list ascii :=
  take (after_last_newline s 0%nat 0%nat) s.

(** The complete lines of a text, each with its newline, [cur] being the
    part of the current line already passed.  What follows the last
    newline is not a line. *)
Fixpoint complete_lines_from (cur s : list ascii) : list (list ascii) :=
  match s with
  | [] => []
  | c :: s' =>
      if is_newline c then (cur ++ [c]) :: complete_lines_from [] s'
      else complete_lines_from (cur ++ [c]) s'
  end.

Definition complete_lines (s : list ascii) : list (list ascii) := complete_lines_from [] s.

(** The offsets at which consecutive lines start, the first at [from]. *)
Fixpoint offsets (from : nat) (ls : list (list ascii)) : list nat :=
  match ls with
  | [] => []
  | l :: ls' => from :: offsets (from + length l) ls'
  end.

(** The four embedded shader texts (main.cpp, lines 144-196). *)
Definition quadVertSource : string := "
#version 330

const float scale = 0.5;

layout(location = 0) in vec2 v;

void main()
{
	gl_Position = vec4(v * scale, 0.0, 1.0);
}
".

Definition quad1FragSource : string := "
#version 330

layout(location = 1) out vec4 outFragColor1;

void main()
{
	outFragColor1 = vec4(vec3(0.0, 0.0, 1.0), 1.0);
}
".

Definition texVertSource : string := "
#version 330

layout(location = 0) in vec2 v;

smooth out vec2 texCoord;

void main()
{
	texCoord = (v + vec2(1.0)) * 0.5;
	gl_Position = vec4(v, 0.0, 1.0);
}
".

Definition texFragSource : string := "
#version 330
#extension GL_ARB_explicit_uniform_location : enable

layout(location = 0) uniform sampler2D tex;

smooth in vec2 texCoord;

layout(location = 0) out vec4 outFragColor0;

void main()
{
	outFragColor0 = vec4(texture(tex, texCoord).rgb, 1.0);
}
".

Definition chars (s : string) : list ascii := list_ascii_of_string s.

(** ** 2. Constants of the OpenGL, GLFW and GLEW headers *)

Definition GLuint := Z.
Definition GLenum := Z.
Definition GLint := Z.

Definition GL_NO_ERROR : GLenum := 0.
Definition GL_INVALID_ENUM : GLenum := 0x0500.
Definition GL_INVALID_VALUE : GLenum := 0x0501.
Definition GL_INVALID_OPERATION : GLenum := 0x0502.
Definition GL_STACK_OVERFLOW : GLenum := 0x0503.
Definition GL_STACK_UNDERFLOW : GLenum := 0x0504.
Definition GL_OUT_OF_MEMORY : GLenum := 0x0505.
Definition GL_INVALID_FRAMEBUFFER_OPERATION : GLenum := 0x0506.

Definition GL_NONE : GLenum := 0.
Definition GL_FALSE : Z := 0.
Definition GL_TRIANGLES : GLenum := 0x0004.
Definition GL_DEPTH_TEST : GLenum := 0x0B71.
Definition GL_TEXTURE_2D : GLenum := 0x0DE1.
Definition GL_UNSIGNED_BYTE : GLenum := 0x1401.
Definition GL_FLOAT : GLenum := 0x1406.
Definition GL_RGBA : GLenum := 0x1908.
Definition GL_NEAREST : GLenum := 0x2600.
Definition GL_LINEAR : GLenum := 0x2601.
Definition GL_NEAREST_MIPMAP_LINEAR : GLenum := 0x2702.
Definition GL_TEXTURE_MAG_FILTER : GLenum := 0x2800.
Definition GL_TEXTURE_MIN_FILTER : GLenum := 0x2801.
Definition GL_COLOR_BUFFER_BIT : Z := 0x4000.
Definition GL_TEXTURE0 : GLenum := 0x84C0.
Definition GL_ARRAY_BUFFER : GLenum := 0x8892.
Definition GL_STATIC_DRAW : GLenum := 0x88E4.
Definition GL_FRAGMENT_SHADER : GLenum := 0x8B30.
Definition GL_VERTEX_SHADER : GLenum := 0x8B31.
Definition GL_COMPILE_STATUS : GLenum := 0x8B81.
Definition GL_LINK_STATUS : GLenum := 0x8B82.
Definition GL_INFO_LOG_LENGTH : GLenum := 0x8B84.
Definition GL_DRAW_FRAMEBUFFER : GLenum := 0x8CA9.
Definition GL_FRAMEBUFFER_COMPLETE : GLenum := 0x8CD5.
Definition GL_COLOR_ATTACHMENT0 : GLenum := 0x8CE0.
Definition GL_COLOR_ATTACHMENT1 : GLenum := 0x8CE1.
Definition GL_FRAMEBUFFER : GLenum := 0x8D40.

Definition GLFW_TRUE : Z := 1.
Definition GLFW_RELEASE : Z := 0.
Definition GLFW_PRESS : Z := 1.
Definition GLFW_KEY_ESCAPE : Z := 256.
Definition GLFW_CONTEXT_VERSION_MAJOR : Z := 0x00022002.
Definition GLFW_CONTEXT_VERSION_MINOR : Z := 0x00022003.
Definition GLFW_OPENGL_PROFILE : Z := 0x00022008.
Definition GLFW_OPENGL_CORE_PROFILE : Z := 0x00032001.

Definition GLEW_OK : GLenum := 0.

(** ** 3. Every call the program makes, as data

    A [GLFWwindow*] is an address, [0] for [nullptr].  The arrays handed
    to [glShaderSource] point into the source buffer, so the call carries
    the buffer along; the data pointers of [glTexImage2D] and
    [glVertexAttribPointer] are always [nullptr] in this program and are
    left out. *)
Inductive action :=
  | GlfwInit
  | GlfwWindowHint (hint value : Z)
  | GlfwCreateWindow (width height : Z) (title : string)
  | GlfwTerminate
  | GlfwMakeContextCurrent (window : Z)
  | GlewInit
  | GlfwWindowShouldClose (window : Z)
  | GlfwGetKey (window key : Z)
  | GlfwSetWindowShouldClose (window value : Z)
  | GlfwSwapBuffers (window : Z)
  | GlfwPollEvents
  | GlfwDestroyWindow (window : Z)
  | GlGetError
  | GlCreateShader (type : GLenum)
  | GlShaderSource (shader : GLuint) (buf : list ascii) (lines : shader_lines)
  | GlCompileShader (shader : GLuint)
  | GlGetShaderiv (shader : GLuint) (pname : GLenum)
  | GlGetShaderInfoLog (shader : GLuint) (bufSize : Z)
  | GlCreateProgram
  | GlAttachShader (program shader : GLuint)
  | GlLinkProgram (program : GLuint)
  | GlGetProgramiv (program : GLuint) (pname : GLenum)
  | GlGetProgramInfoLog (program : GLuint) (bufSize : Z)
  | GlDeleteShader (shader : GLuint)
  | GlDeleteProgram (program : GLuint)
  | GlUseProgram (program : GLuint)
  | GlGenVertexArrays (n : Z)
  | GlBindVertexArray (array : GLuint)
  | GlGenBuffers (n : Z)
  | GlBindBuffer (target : GLenum) (buffer : GLuint)
  | GlBufferData (target : GLenum) (size : Z) (data : list Q) (usage : GLenum)
  | GlEnableVertexAttribArray (index : GLuint)
  | GlVertexAttribPointer (index : GLuint) (size : GLint) (type : GLenum)
                          (normalized : Z) (stride : Z)
  | GlGenTextures (n : Z)
  | GlBindTexture (target : GLenum) (texture : GLuint)
  | GlTexImage2D (target : GLenum) (level : GLint) (internalformat : GLint)
                 (width height : Z) (border : GLint) (format type : GLenum)
  | GlTexParameteri (target pname : GLenum) (param : GLint)
  | GlGenFramebuffers (n : Z)
  | GlBindFramebuffer (target : GLenum) (framebuffer : GLuint)
  | GlFramebufferTexture2D (target attachment textarget : GLenum)
                           (texture : GLuint) (level : GLint)
  | GlCheckFramebufferStatus (target : GLenum)
  | GlDepthMask (flag : bool)
  | GlDisable (cap : GLenum)
  | GlClearColor (red green blue alpha : Q)
  | GlClear (mask : Z)
  | GlDrawBuffers (n : Z) (bufs : list GLenum)
  | GlDrawArrays (mode : GLenum) (first : GLint) (count : Z)
  | GlActiveTexture (texture : GLenum)
  | Cout (text : string)
  | Cerr (text : string)
  | AssertFailed (expr : string).

(** ** 4. Shader values and the four shaders

    A GLSL [float] is a rational here: every constant of the shaders and
    of the vertex buffer (0, 0.5, 1, -1) is a dyadic number that [float]
    holds exactly.  A colour buffer holds normalised 8-bit components
    ([GL_RGBA] with [GL_UNSIGNED_BYTE]). *)

Record vec2 := Vec2 { v2_x : Q; v2_y : Q }.
Record vec4 := Vec4 { v4_x : Q; v4_y : Q; v4_z : Q; v4_w : Q }.

Record texel := Texel { t_red : Z; t_green : Z; t_blue : Z; t_alpha : Z }.

(** [None] is a texel whose contents are undefined. *)
Definition image := Z -> Z -> option texel.

Definition clamp01 (c : Q) : Q :=
  if Qle_bool c 0 then 0%Q else if Qle_bool 1 c then 1%Q else c.

Definition to_unorm8 (c : Q) : Z := Qfloor (clamp01 c * 255 + (1 # 2)).
Definition of_unorm8 (n : Z) : Q := (inject_Z n / 255)%Q.

Definition store_color (c : vec4) : texel :=
  Texel (to_unorm8 (v4_x c)) (to_unorm8 (v4_y c)) (to_unorm8 (v4_z c)) (to_unorm8 (v4_w c)).
Definition load_color (t : texel) : vec4 :=
  Vec4 (of_unorm8 (t_red t)) (of_unorm8 (t_green t)) (of_unorm8 (t_blue t)) (of_unorm8 (t_alpha t)).

(** What a vertex shader writes: [gl_Position] and, when it declares it,
    the varying [texCoord]. *)
Record vs_out := { gl_Position : vec4; vs_texCoord : option vec2 }.

Definition vshader := vec2 -> vs_out.

(** What a fragment shader is: the texture unit its sampler reads (a
    sampler uniform that is never set holds unit 0) and its [main], from
    the texture lookup and the interpolated [texCoord] to the value of
    each output location. *)
Record fshader := {
  fs_sampler_unit : option Z;
  fs_main : (vec2 -> option vec4) -> option vec2 -> list (Z * option vec4)
}.

(** [quadVertSource], lines 147-154. *)
Definition quadVert_main : vshader := fun v =>
  let scale := 0.5%Q in
  {| gl_Position := Vec4 (v2_x v * scale) (v2_y v * scale) 0.0 1.0;
     vs_texCoord := None |}.

(** [quad1FragSource], lines 160-165: one output, at location 1. *)
Definition quad1Frag_main : fshader :=
  {| fs_sampler_unit := None;
     fs_main := fun _ _ => [(1, Some (Vec4 0.0 0.0 1.0 1.0))] |}.

(** [texVertSource], lines 171-179. *)
Definition texVert_main : vshader := fun v =>
  {| gl_Position := Vec4 (v2_x v) (v2_y v) 0.0 1.0;
     vs_texCoord := Some (Vec2 ((v2_x v + 1.0) * 0.5) ((v2_y v + 1.0) * 0.5)) |}.

(** [texFragSource], lines 186-195: one sampler, one output at location 0
    that takes the red, green and blue of the texture and alpha 1. *)
Definition texFrag_main : fshader :=
  {| fs_sampler_unit := Some 0;
     fs_main := fun texture texCoord =>
       [(0, match texCoord with
            | Some tc =>
                match texture tc with
                | Some c => Some (Vec4 (v4_x c) (v4_y c) (v4_z c) 1.0)
                | None => None
                end
            | None => None
            end)] |}.

(** The compiler of the model knows the four embedded texts and nothing
    else. *)
Definition vertex_meaning (text : list ascii) : option vshader :=
  if decide (text = chars quadVertSource) then Some quadVert_main
  else if decide (text = chars texVertSource) then Some texVert_main
  else None.

Definition fragment_meaning (text : list ascii) : option fshader :=
  if decide (text = chars quad1FragSource) then Some quad1Frag_main
  else if decide (text = chars texFragSource) then Some texFrag_main
  else None.

(** ** 5. Rasterisation of a triangle

    Window coordinates are rationals; a fragment is produced for every
    pixel whose centre lies in the triangle, edges included.  There is no
    culling (face culling is off in the initial state) and no depth test
    (off in the initial state, and line 272 turns it off again). *)

Definition edge (a b p : vec2) : Q :=
  ((v2_x b - v2_x a) * (v2_y p - v2_y a) - (v2_y b - v2_y a) * (v2_x p - v2_x a))%Q.

Definition inside (a b c p : vec2) : bool :=
  let e0 := edge a b p in
  let e1 := edge b c p in
  let e2 := edge c a p in
  if Qeq_bool (edge a b c) 0 then false
  else (Qle_bool 0 e0 && Qle_bool 0 e1 && Qle_bool 0 e2)
       || (Qle_bool e0 0 && Qle_bool e1 0 && Qle_bool e2 0).

Definition pixel_centre (x y : Z) : vec2 :=
  Vec2 (inject_Z x + (1 # 2)) (inject_Z y + (1 # 2)).

(** Linear interpolation of a varying with the barycentric weights of
    [p] (all [gl_Position.w] of this program are 1). *)
Definition interpolate (a b c p : vec2) (va vb vc : vec2) : vec2 :=
  let area := edge a b c in
  let wa := (edge b c p / area)%Q in
  let wb := (edge c a p / area)%Q in
  let wc := (edge a b p / area)%Q in
  Vec2 (wa * v2_x va + wb * v2_x vb + wc * v2_x vc)
       (wa * v2_y va + wb * v2_y vb + wc * v2_y vc).

Record viewport := { vp_x : Z; vp_y : Z; vp_width : Z; vp_height : Z }.

(** Perspective division and viewport transformation. *)
Definition to_window (vp : viewport) (pos : vec4) : vec2 :=
  let xn := (v4_x pos / v4_w pos)%Q in
  let yn := (v4_y pos / v4_w pos)%Q in
  Vec2 ((xn + 1) * (inject_Z (vp_width vp) / 2) + inject_Z (vp_x vp))
       ((yn + 1) * (inject_Z (vp_height vp) / 2) + inject_Z (vp_y vp)).

Definition in_rect (x0 y0 w h x y : Z) : bool :=
  (x0 <=? x) && (x <? x0 + w) && (y0 <=? y) && (y <? y0 + h).

Record triangle := { tri_a : vs_out; tri_b : vs_out; tri_c : vs_out }.

Definition tri_texCoord (vp : viewport) (t : triangle) (p : vec2) : option vec2 :=
  match vs_texCoord (tri_a t), vs_texCoord (tri_b t), vs_texCoord (tri_c t) with
  | Some va, Some vb, Some vc =>
      Some (interpolate (to_window vp (gl_Position (tri_a t)))
                        (to_window vp (gl_Position (tri_b t)))
                        (to_window vp (gl_Position (tri_c t))) p va vb vc)
  | _, _, _ => None
  end.

Definition covers (vp : viewport) (t : triangle) (x y : Z) : bool :=
  in_rect (vp_x vp) (vp_y vp) (vp_width vp) (vp_height vp) x y
  && inside (to_window vp (gl_Position (tri_a t)))
            (to_window vp (gl_Position (tri_b t)))
            (to_window vp (gl_Position (tri_c t))) (pixel_centre x y).

Definition output_at (location : Z) (outs : list (Z * option vec4)) : option vec4 :=
  match List.find (fun o => fst o =? location) outs with
  | Some (_, v) => v
  | None => None
  end.

(** One triangle drawn into one colour buffer of size [w] x [h] that
    receives output [location]. *)
Definition raster (vp : viewport) (fs : fshader) (texture : vec2 -> option vec4)
    (location : Z) (w h : Z) (t : triangle) (img : image) : image :=
  fun x y =>
    if in_rect 0 0 w h x y && covers vp t x y then
      store_color <$> output_at location
        (fs_main fs texture (tri_texCoord vp t (pixel_centre x y)))
    else img x y.

Fixpoint triangles (vs : list vs_out) : list triangle :=
  match vs with
  | a :: b :: c :: rest => {| tri_a := a; tri_b := b; tri_c := c |} :: triangles rest
  | _ => []
  end.

Definition raster_all (vp : viewport) (fs : fshader) (texture : vec2 -> option vec4)
    (location : Z) (w h : Z) (ts : list triangle) (img : image) : image :=
  fold_left (fun im t => raster vp fs texture location w h t im) ts img.

(** A full-size colour buffer in one colour, and one with no contents. *)
Definition fill (w h : Z) (c : texel) : image :=
  fun x y => if in_rect 0 0 w h x y then Some c else None.
Definition undefined_image : image := fun _ _ => None.

(** ** 6. The state of the OpenGL context and of the window surface *)

(** The answers that are the driver's to give: the names of new objects
    (the k-th name handed out by a [glCreate*] or [glGen*] call), the
    verdict and log of the compiler and of the linker on the texts they
    are given, what it answers to [GL_INFO_LOG_LENGTH] for an object with
    a given log, the completeness status of the framebuffer, and the
    error codes it has recorded by the time the program first asks. *)
Record driver := {
  drv_name : nat -> GLuint;
  drv_compile : GLenum -> option (list ascii) -> GLint * string;
  drv_link : option (list ascii) -> option (list ascii) -> GLint * string;
  drv_log_length : string -> GLint;
  drv_framebuffer_status : GLenum;
  drv_errors : list GLenum
}.

(** [sh_deleted] is the deletion flag of a shader object
    ([GL_DELETE_STATUS]). *)
Record shader_obj := {
  sh_type : GLenum;
  sh_text : option (list ascii);
  sh_status : GLint;
  sh_log : string;
  sh_deleted : bool
}.

(** [pr_exe] is the linked executable: the texts of the vertex and of the
    fragment shader it was linked from. *)
Record program_obj := {
  pr_attached : list GLuint;
  pr_status : GLint;
  pr_log : string;
  pr_exe : option (option (list ascii) * option (list ascii));
  pr_deleted : bool
}.

Record vertex_state := {
  vx_buffers : gmap Z (list Q);
  vx_array_buffer : GLuint;
  vx_enabled : bool;
  vx_pointer : option (GLuint * Z)
}.

Record texture := {
  tex_width : Z;
  tex_height : Z;
  tex_image : image;
  tex_min_filter : GLenum;
  tex_mag_filter : GLenum
}.

Record tex_state := {
  tx_textures : gmap Z texture;
  tx_active : Z;
  tx_units : gmap Z GLuint
}.

(** A framebuffer object: its colour attachments by index and its draw
    buffers, which a new object starts with as [GL_COLOR_ATTACHMENT0]. *)
Record framebuffer := {
  fbo_color : gmap Z GLuint;
  fbo_draw_buffers : list GLenum
}.

Record fb_state := {
  fb_objects : gmap Z framebuffer;
  fb_draw : GLuint;
  fb_clear_color : vec4;
  fb_viewport : viewport
}.

Record surface := {
  sf_width : Z;
  sf_height : Z;
  sf_back : image;
  sf_front : image
}.

Record gl_state := {
  gl_allocs : nat;
  gl_errors : list GLenum;
  gl_shaders : gmap Z shader_obj;
  gl_programs : gmap Z program_obj;
  gl_program : GLuint;
  gl_vertex : vertex_state;
  gl_tex : tex_state;
  gl_fb : fb_state;
  gl_surface : surface;
  gl_sampled : list GLuint
}.

Definition set_allocs (f : nat -> nat) (st : gl_state) : gl_state :=
  {| gl_allocs := f (gl_allocs st); gl_errors := gl_errors st; gl_shaders := gl_shaders st;
     gl_programs := gl_programs st; gl_program := gl_program st; gl_vertex := gl_vertex st;
     gl_tex := gl_tex st; gl_fb := gl_fb st; gl_surface := gl_surface st;
     gl_sampled := gl_sampled st |}.
Definition set_errors (f : list GLenum -> list GLenum) (st : gl_state) : gl_state :=
  {| gl_allocs := gl_allocs st; gl_errors := f (gl_errors st); gl_shaders := gl_shaders st;
     gl_programs := gl_programs st; gl_program := gl_program st; gl_vertex := gl_vertex st;
     gl_tex := gl_tex st; gl_fb := gl_fb st; gl_surface := gl_surface st;
     gl_sampled := gl_sampled st |}.
Definition set_shaders (f : gmap Z shader_obj -> gmap Z shader_obj) (st : gl_state) : gl_state :=
  {| gl_allocs := gl_allocs st; gl_errors := gl_errors st; gl_shaders := f (gl_shaders st);
     gl_programs := gl_programs st; gl_program := gl_program st; gl_vertex := gl_vertex st;
     gl_tex := gl_tex st; gl_fb := gl_fb st; gl_surface := gl_surface st;
     gl_sampled := gl_sampled st |}.
Definition set_programs (f : gmap Z program_obj -> gmap Z program_obj) (st : gl_state) : gl_state :=
  {| gl_allocs := gl_allocs st; gl_errors := gl_errors st; gl_shaders := gl_shaders st;
     gl_programs := f (gl_programs st); gl_program := gl_program st; gl_vertex := gl_vertex st;
     gl_tex := gl_tex st; gl_fb := gl_fb st; gl_surface := gl_surface st;
     gl_sampled := gl_sampled st |}.
Definition set_program (p : GLuint) (st : gl_state) : gl_state :=
  {| gl_allocs := gl_allocs st; gl_errors := gl_errors st; gl_shaders := gl_shaders st;
     gl_programs := gl_programs st; gl_program := p; gl_vertex := gl_vertex st;
     gl_tex := gl_tex st; gl_fb := gl_fb st; gl_surface := gl_surface st;
     gl_sampled := gl_sampled st |}.
Definition set_vertex (f : vertex_state -> vertex_state) (st : gl_state) : gl_state :=
  {| gl_allocs := gl_allocs st; gl_errors := gl_errors st; gl_shaders := gl_shaders st;
     gl_programs := gl_programs st; gl_program := gl_program st; gl_vertex := f (gl_vertex st);
     gl_tex := gl_tex st; gl_fb := gl_fb st; gl_surface := gl_surface st;
     gl_sampled := gl_sampled st |}.
Definition set_tex (f : tex_state -> tex_state) (st : gl_state) : gl_state :=
  {| gl_allocs := gl_allocs st; gl_errors := gl_errors st; gl_shaders := gl_shaders st;
     gl_programs := gl_programs st; gl_program := gl_program st; gl_vertex := gl_vertex st;
     gl_tex := f (gl_tex st); gl_fb := gl_fb st; gl_surface := gl_surface st;
     gl_sampled := gl_sampled st |}.
Definition set_fb (f : fb_state -> fb_state) (st : gl_state) : gl_state :=
  {| gl_allocs := gl_allocs st; gl_errors := gl_errors st; gl_shaders := gl_shaders st;
     gl_programs := gl_programs st; gl_program := gl_program st; gl_vertex := gl_vertex st;
     gl_tex := gl_tex st; gl_fb := f (gl_fb st); gl_surface := gl_surface st;
     gl_sampled := gl_sampled st |}.
Definition set_surface (f : surface -> surface) (st : gl_state) : gl_state :=
  {| gl_allocs := gl_allocs st; gl_errors := gl_errors st; gl_shaders := gl_shaders st;
     gl_programs := gl_programs st; gl_program := gl_program st; gl_vertex := gl_vertex st;
     gl_tex := gl_tex st; gl_fb := gl_fb st; gl_surface := f (gl_surface st);
     gl_sampled := gl_sampled st |}.
Definition set_sampled (f : list GLuint -> list GLuint) (st : gl_state) : gl_state :=
  {| gl_allocs := gl_allocs st; gl_errors := gl_errors st; gl_shaders := gl_shaders st;
     gl_programs := gl_programs st; gl_program := gl_program st; gl_vertex := gl_vertex st;
     gl_tex := gl_tex st; gl_fb := gl_fb st; gl_surface := gl_surface st;
     gl_sampled := f (gl_sampled st) |}.

(** The context before the first call: no object, nothing bound, clear
    colour (0, 0, 0, 0), and the error codes the driver holds. *)
Definition gl_init (d : driver) : gl_state :=
  {| gl_allocs := 0%nat;
     gl_errors := drv_errors d;
     gl_shaders := ∅;
     gl_programs := ∅;
     gl_program := 0;
     gl_vertex := {| vx_buffers := ∅; vx_array_buffer := 0; vx_enabled := false;
                     vx_pointer := None |};
     gl_tex := {| tx_textures := ∅; tx_active := 0; tx_units := ∅ |};
     gl_fb := {| fb_objects := ∅; fb_draw := 0; fb_clear_color := Vec4 0 0 0 0;
                 fb_viewport := {| vp_x := 0; vp_y := 0; vp_width := 0; vp_height := 0 |} |};
     gl_surface := {| sf_width := 0; sf_height := 0; sf_back := undefined_image;
                      sf_front := undefined_image |};
     gl_sampled := [] |}.

(** *** Textures *)

Definition new_texture : texture :=
  {| tex_width := 0; tex_height := 0; tex_image := undefined_image;
     tex_min_filter := GL_NEAREST_MIPMAP_LINEAR; tex_mag_filter := GL_LINEAR |}.

Definition unit_texture (ts : tex_state) (unit : Z) : GLuint :=
  default 0 (tx_units ts !! unit).

(** [glBindTexture(GL_TEXTURE_2D, t)]: a name bound for the first time
    becomes a texture object. *)
Definition bind_texture (t : GLuint) (ts : tex_state) : tex_state :=
  {| tx_textures :=
       if t =? 0 then tx_textures ts
       else match tx_textures ts !! t with
            | Some _ => tx_textures ts
            | None => <[t := new_texture]> (tx_textures ts)
            end;
     tx_active := tx_active ts;
     tx_units := <[tx_active ts := t]> (tx_units ts) |}.

Definition on_bound_texture (f : texture -> texture) (ts : tex_state) : tex_state :=
  {| tx_textures := alter f (unit_texture ts (tx_active ts)) (tx_textures ts);
     tx_active := tx_active ts;
     tx_units := tx_units ts |}.

(** [glTexImage2D] with a null data pointer: storage of the given size
    with undefined contents. *)
Definition tex_image_2d (w h : Z) (t : texture) : texture :=
  {| tex_width := w; tex_height := h; tex_image := undefined_image;
     tex_min_filter := tex_min_filter t; tex_mag_filter := tex_mag_filter t |}.

Definition tex_parameter (pname : GLenum) (param : GLint) (t : texture) : texture :=
  {| tex_width := tex_width t; tex_height := tex_height t; tex_image := tex_image t;
     tex_min_filter := if pname =? GL_TEXTURE_MIN_FILTER then param else tex_min_filter t;
     tex_mag_filter := if pname =? GL_TEXTURE_MAG_FILTER then param else tex_mag_filter t |}.

Definition with_image (f : Z -> Z -> image -> image) (t : texture) : texture :=
  {| tex_width := tex_width t; tex_height := tex_height t;
     tex_image := f (tex_width t) (tex_height t) (tex_image t);
     tex_min_filter := tex_min_filter t; tex_mag_filter := tex_mag_filter t |}.

(** [texture(tex, tc)] on a texture with both filters [GL_NEAREST] and
    the default wrap mode [GL_REPEAT]: the texel that contains [tc].
    Other filters are outside the model. *)
Definition sample (t : option texture) (tc : vec2) : option vec4 :=
  match t with
  | Some t =>
      if (tex_min_filter t =? GL_NEAREST) && (tex_mag_filter t =? GL_NEAREST)
         && (0 <? tex_width t) && (0 <? tex_height t)
      then load_color <$>
             tex_image t (Qfloor (v2_x tc * inject_Z (tex_width t)) mod tex_width t)
                         (Qfloor (v2_y tc * inject_Z (tex_height t)) mod tex_height t)
      else None
  | None => None
  end.

(** *** Framebuffers *)

Definition new_framebuffer : framebuffer :=
  {| fbo_color := ∅; fbo_draw_buffers := [GL_COLOR_ATTACHMENT0] |}.

Definition bind_draw_framebuffer (f : GLuint) (fs : fb_state) : fb_state :=
  {| fb_objects :=
       if f =? 0 then fb_objects fs
       else match fb_objects fs !! f with
            | Some _ => fb_objects fs
            | None => <[f := new_framebuffer]> (fb_objects fs)
            end;
     fb_draw := f;
     fb_clear_color := fb_clear_color fs;
     fb_viewport := fb_viewport fs |}.

Definition on_draw_framebuffer (f : framebuffer -> framebuffer) (fs : fb_state) : fb_state :=
  {| fb_objects := alter f (fb_draw fs) (fb_objects fs);
     fb_draw := fb_draw fs;
     fb_clear_color := fb_clear_color fs;
     fb_viewport := fb_viewport fs |}.

Definition attach_texture (attachment : GLenum) (t : GLuint) (o : framebuffer) : framebuffer :=
  {| fbo_color := <[attachment - GL_COLOR_ATTACHMENT0 := t]> (fbo_color o);
     fbo_draw_buffers := fbo_draw_buffers o |}.

Definition set_draw_buffers (n : Z) (bufs : list GLenum) (o : framebuffer) : framebuffer :=
  {| fbo_color := fbo_color o; fbo_draw_buffers := take (Z.to_nat n) bufs |}.

(** Where fragment output [k] goes: the window's back buffer for output 0
    of the default framebuffer, and for a framebuffer object the texture
    attached at the point its k-th draw buffer names ([GL_NONE]: nowhere). *)
Inductive target := ToWindow | ToTexture (name : GLuint).

Definition draw_targets (st : gl_state) : list (Z * target) :=
  if fb_draw (gl_fb st) =? 0 then [(0, ToWindow)]
  else match fb_objects (gl_fb st) !! fb_draw (gl_fb st) with
       | Some o =>
           omap id (imap (fun k b =>
                      if b =? GL_NONE then None
                      else (fun t => (Z.of_nat k, ToTexture t))
                             <$> fbo_color o !! (b - GL_COLOR_ATTACHMENT0))
                         (fbo_draw_buffers o))
       | None => []
       end.

Definition paint (tg : target) (f : Z -> Z -> image -> image) (st : gl_state) : gl_state :=
  match tg with
  | ToWindow =>
      set_surface (fun s => {| sf_width := sf_width s; sf_height := sf_height s;
                               sf_back := f (sf_width s) (sf_height s) (sf_back s);
                               sf_front := sf_front s |}) st
  | ToTexture n =>
      set_tex (fun ts => {| tx_textures := alter (with_image f) n (tx_textures ts);
                            tx_active := tx_active ts; tx_units := tx_units ts |}) st
  end.

(** [glClear(GL_COLOR_BUFFER_BIT)]: every colour buffer the draw
    framebuffer currently draws to is filled with the clear colour. *)
Definition clear_color_buffers (st : gl_state) : gl_state :=
  fold_left (fun s kt => paint (snd kt)
               (fun w h _ => fill w h (store_color (fb_clear_color (gl_fb st)))) s)
            (draw_targets st) st.

(** *** Vertex fetch and drawing *)

Definition fetch_vertex (data : list Q) (size : Z) (i : Z) : option vec2 :=
  if size =? 2 then
    match data !! Z.to_nat (2 * i), data !! Z.to_nat (2 * i + 1) with
    | Some x, Some y => Some (Vec2 x y)
    | _, _ => None
    end
  else None.

Definition fetch_vertices (vs : vertex_state) (first count : Z) : option (list vec2) :=
  if vx_enabled vs then
    match vx_pointer vs with
    | Some (buf, size) =>
        match vx_buffers vs !! buf with
        | Some data => mapM (fetch_vertex data size) (seqZ first count)
        | None => None
        end
    | None => None
    end
  else None.

Definition executable (st : gl_state) : option (vshader * fshader) :=
  match gl_programs st !! gl_program st with
  | Some p =>
      match pr_exe p with
      | Some (Some vt, Some ft) =>
          match vertex_meaning vt, fragment_meaning ft with
          | Some v, Some f => Some (v, f)
          | _, _ => None
          end
      | _ => None
      end
  | None => None
  end.

(** [glDrawArrays(GL_TRIANGLES, first, count)].  A draw without a linked
    program the model knows, or without vertex data, leaves the state as
    it is. *)
Definition draw_arrays (mode : GLenum) (first count : Z) (st : gl_state) : gl_state :=
  if mode =? GL_TRIANGLES then
    match executable st, fetch_vertices (gl_vertex st) first count with
    | Some (vs, fs), Some verts =>
        let ts := triangles (map vs verts) in
        let vp := fb_viewport (gl_fb st) in
        let texture :=
          match fs_sampler_unit fs with
          | Some u => sample (tx_textures (gl_tex st) !! unit_texture (gl_tex st) u)
          | None => fun _ => None
          end in
        let st' :=
          fold_left (fun s kt => paint (snd kt)
                       (fun w h img => raster_all vp fs texture (fst kt) w h ts img) s)
                    (draw_targets st) st in
        match fs_sampler_unit fs with
        | Some u => set_sampled (fun l => l ++ [unit_texture (gl_tex st) u]) st'
        | None => st'
        end
    | _, _ => st
    end
  else st.

(** *** Shader and program objects *)

Definition new_shader (type : GLenum) : shader_obj :=
  {| sh_type := type; sh_text := None; sh_status := 0; sh_log := EmptyString;
     sh_deleted := false |}.

Definition new_program : program_obj :=
  {| pr_attached := []; pr_status := 0; pr_log := EmptyString; pr_exe := None;
     pr_deleted := false |}.

Definition shader_source (text : option (list ascii)) (o : shader_obj) : shader_obj :=
  {| sh_type := sh_type o; sh_text := text; sh_status := sh_status o; sh_log := sh_log o;
     sh_deleted := sh_deleted o |}.

Definition compile_shader (d : driver) (o : shader_obj) : shader_obj :=
  let r := drv_compile d (sh_type o) (sh_text o) in
  {| sh_type := sh_type o; sh_text := sh_text o; sh_status := fst r; sh_log := snd r;
     sh_deleted := sh_deleted o |}.

Definition flag_shader (o : shader_obj) : shader_obj :=
  {| sh_type := sh_type o; sh_text := sh_text o; sh_status := sh_status o;
     sh_log := sh_log o; sh_deleted := true |}.

Definition attach_shader (s : GLuint) (p : program_obj) : program_obj :=
  {| pr_attached := pr_attached p ++ [s]; pr_status := pr_status p; pr_log := pr_log p;
     pr_exe := pr_exe p; pr_deleted := pr_deleted p |}.

Definition flag_program (p : program_obj) : program_obj :=
  {| pr_attached := pr_attached p; pr_status := pr_status p; pr_log := pr_log p;
     pr_exe := pr_exe p; pr_deleted := true |}.

(** The text of the attached shader of the given type. *)
Definition attached_text (shaders : gmap Z shader_obj) (attached : list GLuint)
    (type : GLenum) : option (list ascii) :=
  match List.find (fun s => match shaders !! s with
                            | Some o => sh_type o =? type
                            | None => false
                            end) attached with
  | Some s => match shaders !! s with Some o => sh_text o | None => None end
  | None => None
  end.

Definition link_program (d : driver) (shaders : gmap Z shader_obj) (p : program_obj)
    : program_obj :=
  let vt := attached_text shaders (pr_attached p) GL_VERTEX_SHADER in
  let ft := attached_text shaders (pr_attached p) GL_FRAGMENT_SHADER in
  let r := drv_link d vt ft in
  {| pr_attached := pr_attached p; pr_status := fst r; pr_log := snd r;
     pr_exe := if fst r =? 0 then None else Some (vt, ft);
     pr_deleted := pr_deleted p |}.

(** Whether shader [s] is attached to a program object. *)
Definition attached_somewhere (programs : gmap Z program_obj) (s : GLuint) : bool :=
  existsb (fun po => existsb (Z.eqb s) (pr_attached (snd po))) (map_to_list programs).

(** [glDeleteShader]: a shader that is attached to a program object is
    only flagged for deletion; it is deleted when it is no longer
    attached to any. *)
Definition delete_shader (s : GLuint) (st : gl_state) : gl_state :=
  if attached_somewhere (gl_programs st) s
  then set_shaders (alter flag_shader s) st
  else set_shaders (delete s) st.

(** A shader that has just been detached goes if it is flagged and no
    program object has it attached any more. *)
Definition release_shader (programs : gmap Z program_obj) (s : GLuint)
    (shaders : gmap Z shader_obj) : gmap Z shader_obj :=
  match shaders !! s with
  | Some o =>
      if sh_deleted o && negb (attached_somewhere programs s)
      then delete s shaders else shaders
  | None => shaders
  end.

(** [glDeleteProgram]: the program that is in use is only flagged for
    deletion ([GL_DELETE_STATUS]), and [main] makes no call after which
    it would go; any other is deleted, which detaches its shaders. *)
Definition delete_program (p : GLuint) (st : gl_state) : gl_state :=
  if p =? gl_program st then set_programs (alter flag_program p) st
  else match gl_programs st !! p with
       | Some o =>
           let programs := delete p (gl_programs st) in
           set_shaders (fun shaders => foldr (release_shader programs) shaders (pr_attached o))
             (set_programs (fun _ => programs) st)
       | None => st
       end.

(** [glUseProgram]: a name that is neither 0 nor a linked program leaves
    the current program as it is. *)
Definition use_program (p : GLuint) (st : gl_state) : gl_state :=
  if p =? 0 then set_program 0 st
  else match gl_programs st !! p with
       | Some o => match pr_exe o with
                   | Some _ => set_program p st
                   | None => st
                   end
       | None => st
       end.

(** *** The effect of one call on the context *)
Definition gl_step (d : driver) (st : gl_state) (a : action) : gl_state :=
  match a with
  | GlfwCreateWindow w h _ =>
      set_surface (fun _ => {| sf_width := w; sf_height := h;
                               sf_back := undefined_image; sf_front := undefined_image |})
        (set_fb (fun fs => {| fb_objects := fb_objects fs; fb_draw := fb_draw fs;
                              fb_clear_color := fb_clear_color fs;
                              fb_viewport := {| vp_x := 0; vp_y := 0;
                                                vp_width := w; vp_height := h |} |}) st)
  | GlfwSwapBuffers _ =>
      set_surface (fun s => {| sf_width := sf_width s; sf_height := sf_height s;
                               sf_back := undefined_image; sf_front := sf_back s |}) st
  | GlGetError => set_errors (fun q => tail q) st
  | GlCreateShader type =>
      let n := drv_name d (gl_allocs st) in
      set_allocs S (if n =? 0 then st else set_shaders (insert n (new_shader type)) st)
  | GlShaderSource s buf lines =>
      if sl_count lines <? 0 then st
      else set_shaders (alter (shader_source (submitted_text buf lines)) s) st
  | GlCompileShader s => set_shaders (alter (compile_shader d) s) st
  | GlCreateProgram =>
      let n := drv_name d (gl_allocs st) in
      set_allocs S (if n =? 0 then st else set_programs (insert n new_program) st)
  | GlAttachShader p s => set_programs (alter (attach_shader s) p) st
  | GlLinkProgram p => set_programs (alter (link_program d (gl_shaders st)) p) st
  | GlDeleteShader s => delete_shader s st
  | GlDeleteProgram p => delete_program p st
  | GlUseProgram p => use_program p st
  | GlGenVertexArrays n | GlGenBuffers n | GlGenTextures n | GlGenFramebuffers n =>
      set_allocs (fun k => (k + Z.to_nat n)%nat) st
  | GlBindBuffer target b =>
      if target =? GL_ARRAY_BUFFER then
        set_vertex (fun v => {| vx_buffers := vx_buffers v; vx_array_buffer := b;
                                vx_enabled := vx_enabled v; vx_pointer := vx_pointer v |}) st
      else st
  | GlBufferData target _ data _ =>
      if target =? GL_ARRAY_BUFFER then
        set_vertex (fun v => {| vx_buffers := <[vx_array_buffer v := data]> (vx_buffers v);
                                vx_array_buffer := vx_array_buffer v;
                                vx_enabled := vx_enabled v; vx_pointer := vx_pointer v |}) st
      else st
  | GlEnableVertexAttribArray i =>
      if i =? 0 then
        set_vertex (fun v => {| vx_buffers := vx_buffers v;
                                vx_array_buffer := vx_array_buffer v;
                                vx_enabled := true; vx_pointer := vx_pointer v |}) st
      else st
  | GlVertexAttribPointer i size _ _ _ =>
      if i =? 0 then
        set_vertex (fun v => {| vx_buffers := vx_buffers v;
                                vx_array_buffer := vx_array_buffer v;
                                vx_enabled := vx_enabled v;
                                vx_pointer := Some (vx_array_buffer v, size) |}) st
      else st
  | GlActiveTexture t =>
      set_tex (fun ts => {| tx_textures := tx_textures ts; tx_active := t - GL_TEXTURE0;
                            tx_units := tx_units ts |}) st
  | GlBindTexture target t =>
      if target =? GL_TEXTURE_2D then set_tex (bind_texture t) st else st
  | GlTexImage2D target level _ w h _ _ _ =>
      if (target =? GL_TEXTURE_2D) && (level =? 0)
      then set_tex (on_bound_texture (tex_image_2d w h)) st else st
  | GlTexParameteri target pname param =>
      if target =? GL_TEXTURE_2D
      then set_tex (on_bound_texture (tex_parameter pname param)) st else st
  | GlBindFramebuffer target f =>
      if (target =? GL_FRAMEBUFFER) || (target =? GL_DRAW_FRAMEBUFFER)
      then set_fb (bind_draw_framebuffer f) st else st
  | GlFramebufferTexture2D target attachment _ t _ =>
      if (target =? GL_FRAMEBUFFER) || (target =? GL_DRAW_FRAMEBUFFER)
      then set_fb (on_draw_framebuffer (attach_texture attachment t)) st else st
  | GlDrawBuffers n bufs => set_fb (on_draw_framebuffer (set_draw_buffers n bufs)) st
  | GlClearColor r g b a =>
      set_fb (fun fs => {| fb_objects := fb_objects fs; fb_draw := fb_draw fs;
                           fb_clear_color := Vec4 r g b a;
                           fb_viewport := fb_viewport fs |}) st
  | GlClear mask =>
      if Z.testbit mask 14 then clear_color_buffers st else st
  | GlDrawArrays mode first count => draw_arrays mode first count st
  | _ => st
  end.

(** *** What the queries answer *)

(** [GL_INFO_LOG_LENGTH] is the driver's answer.  OpenGL asks for the
    length of the log with its terminating null character, and for 0
    when there is no log; whether an empty log is no log is the
    driver's choice. *)
Definition shader_iv (d : driver) (st : gl_state) (s : GLuint) (pname : GLenum) : GLint :=
  match gl_shaders st !! s with
  | Some o =>
      if pname =? GL_COMPILE_STATUS then sh_status o
      else if pname =? GL_INFO_LOG_LENGTH then drv_log_length d (sh_log o)
      else 0
  | None => 0
  end.

Definition program_iv (d : driver) (st : gl_state) (p : GLuint) (pname : GLenum) : GLint :=
  match gl_programs st !! p with
  | Some o =>
      if pname =? GL_LINK_STATUS then pr_status o
      else if pname =? GL_INFO_LOG_LENGTH then drv_log_length d (pr_log o)
      else 0
  | None => 0
  end.

Definition shader_info_log (st : gl_state) (s : GLuint) : string :=
  match gl_shaders st !! s with Some o => sh_log o | None => EmptyString end.

Definition program_info_log (st : gl_state) (p : GLuint) : string :=
  match gl_programs st !! p with Some o => pr_log o | None => EmptyString end.

(** [glGetError]: one recorded code, [GL_NO_ERROR] when there is none. *)
Definition pending_error (st : gl_state) : GLenum :=
  match gl_errors st with
  | e :: _ => e
  | [] => GL_NO_ERROR
  end.

(** [glGetShaderInfoLog] and [glGetProgramInfoLog] copy at most
    [bufSize - 1] characters of the log. *)
Definition copy_log (log : string) (bufSize : Z) : string :=
  String.substring 0 (Z.to_nat (bufSize - 1)) log.

(** The names a [glGen*(n, ...)] call stores. *)
Definition gen_names (d : driver) (st : gl_state) (n : nat) : list GLuint :=
  map (fun k => drv_name d (gl_allocs st + k)%nat) (seq 0 n).

(** ** 7. The world the program runs in

    [env] is everything outside the program: the answers of the window
    system, of the loader and of the driver, the window events that each
    [glfwPollEvents] finds pending, and whether the program was built with
    [NDEBUG].  [world] is what changes while it runs. *)

Inductive event := EscapeKey (pressed : bool) | CloseRequested.

Record env := {
  env_glfwInit : Z;
  env_window : Z;
  env_glewInit : GLenum;
  env_driver : driver;
  env_events : nat -> list event;
  env_ndebug : bool
}.

Record world := {
  w_trace : list action;
  w_gl : gl_state;
  w_should_close : Z;
  w_escape : Z;
  w_polls : nat
}.

Definition world_init (e : env) : world :=
  {| w_trace := []; w_gl := gl_init (env_driver e); w_should_close := 0;
     w_escape := GLFW_RELEASE; w_polls := 0%nat |}.

Definition M (A : Type) : Type := env -> world -> A * world.

Definition ret {A} (a : A) : M A := fun _ w => (a, w).

Definition bind {A B} (m : M A) (k : A -> M B) : M B :=
  fun e w => let r := m e w in k (fst r) e (snd r).

Declare Scope prog_scope.
Delimit Scope prog_scope with prog.
Notation "x <- m ;; k" := (bind m (fun x => k))
  (at level 100, m at next level, right associativity) : prog_scope.
Notation "m ;; k" := (bind m (fun _ => k))
  (at level 100, right associativity) : prog_scope.
Open Scope prog_scope.

(** A call is recorded and takes effect on the context. *)
Definition record (a : action) (e : env) (w : world) : world :=
  {| w_trace := w_trace w ++ [a];
     w_gl := gl_step (env_driver e) (w_gl w) a;
     w_should_close := w_should_close w;
     w_escape := w_escape w;
     w_polls := w_polls w |}.

Definition call (a : action) : M unit := fun e w => (tt, record a e w).

(** A call with a result: the result is read off the state before it. *)
Definition query {A} (a : action) (answer : env -> world -> A) : M A :=
  fun e w => (answer e w, record a e w).

(** *** The window system *)

Definition glfwInit : M Z := query GlfwInit (fun e _ => env_glfwInit e).
Definition glfwWindowHint (hint value : Z) : M unit := call (GlfwWindowHint hint value).
Definition glfwCreateWindow (width height : Z) (title : string) : M Z :=
  query (GlfwCreateWindow width height title) (fun e _ => env_window e).
Definition glfwTerminate : M unit := call GlfwTerminate.
Definition glfwMakeContextCurrent (window : Z) : M unit := call (GlfwMakeContextCurrent window).
Definition glewInit : M GLenum := query GlewInit (fun e _ => env_glewInit e).
Definition glfwSwapBuffers (window : Z) : M unit := call (GlfwSwapBuffers window).
Definition glfwDestroyWindow (window : Z) : M unit := call (GlfwDestroyWindow window).

Definition glfwWindowShouldClose (window : Z) : M Z :=
  query (GlfwWindowShouldClose window) (fun _ w => w_should_close w).

(** The cached state of a key; only the escape key is tracked. *)
Definition glfwGetKey (window key : Z) : M Z :=
  query (GlfwGetKey window key)
        (fun _ w => if key =? GLFW_KEY_ESCAPE then w_escape w else GLFW_RELEASE).

Definition set_should_close (value : Z) (w : world) : world :=
  {| w_trace := w_trace w; w_gl := w_gl w; w_should_close := value;
     w_escape := w_escape w; w_polls := w_polls w |}.

Definition glfwSetWindowShouldClose (window value : Z) : M unit := fun e w =>
  (tt, set_should_close value (record (GlfwSetWindowShouldClose window value) e w)).

Definition deliver (w : world) (ev : event) : world :=
  match ev with
  | EscapeKey pressed =>
      {| w_trace := w_trace w; w_gl := w_gl w; w_should_close := w_should_close w;
         w_escape := if pressed then GLFW_PRESS else GLFW_RELEASE; w_polls := w_polls w |}
  | CloseRequested =>
      {| w_trace := w_trace w; w_gl := w_gl w; w_should_close := GLFW_TRUE;
         w_escape := w_escape w; w_polls := w_polls w |}
  end.

(** [glfwPollEvents] processes the events that are pending at this, the
    [w_polls]-th, call. *)
Definition glfwPollEvents : M unit := fun e w =>
  let w' := fold_left deliver (env_events e (w_polls w)) (record GlfwPollEvents e w) in
  (tt, {| w_trace := w_trace w'; w_gl := w_gl w'; w_should_close := w_should_close w';
          w_escape := w_escape w'; w_polls := S (w_polls w') |}).

(** *** Output streams and [assert] *)

Definition endl : string := String newline EmptyString.
Definition cout (text : string) : M unit := call (Cout text).
Definition cerr (text : string) : M unit := call (Cerr text).

(** [assert(cond)]: with [NDEBUG] the condition is not even evaluated;
    without it a false condition aborts the process.  The result tells
    whether execution goes on. *)
Definition assert_ (expr : string) (cond : M bool) : M bool := fun e w =>
  if env_ndebug e then (true, w)
  else let r := cond e w in
       if fst r then (true, snd r) else (false, record (AssertFailed expr) e (snd r)).

(** *** The OpenGL entry points the program uses *)

Definition glGetError : M GLenum := query GlGetError (fun _ w => pending_error (w_gl w)).
Definition glCreateShader (type : GLenum) : M GLuint :=
  query (GlCreateShader type) (fun e w => drv_name (env_driver e) (gl_allocs (w_gl w))).
Definition glShaderSource (shader : GLuint) (buf : list ascii) (lines : shader_lines) : M unit :=
  call (GlShaderSource shader buf lines).
Definition glCompileShader (shader : GLuint) : M unit := call (GlCompileShader shader).
Definition glGetShaderiv (shader : GLuint) (pname : GLenum) : M GLint :=
  query (GlGetShaderiv shader pname)
        (fun e w => shader_iv (env_driver e) (w_gl w) shader pname).
Definition glGetShaderInfoLog (shader : GLuint) (bufSize : Z) : M string :=
  query (GlGetShaderInfoLog shader bufSize)
        (fun _ w => copy_log (shader_info_log (w_gl w) shader) bufSize).
Definition glCreateProgram : M GLuint :=
  query GlCreateProgram (fun e w => drv_name (env_driver e) (gl_allocs (w_gl w))).
Definition glAttachShader (program shader : GLuint) : M unit :=
  call (GlAttachShader program shader).
Definition glLinkProgram (program : GLuint) : M unit := call (GlLinkProgram program).
Definition glGetProgramiv (program : GLuint) (pname : GLenum) : M GLint :=
  query (GlGetProgramiv program pname)
        (fun e w => program_iv (env_driver e) (w_gl w) program pname).
Definition glGetProgramInfoLog (program : GLuint) (bufSize : Z) : M string :=
  query (GlGetProgramInfoLog program bufSize)
        (fun _ w => copy_log (program_info_log (w_gl w) program) bufSize).
Definition glDeleteShader (shader : GLuint) : M unit := call (GlDeleteShader shader).
Definition glDeleteProgram (program : GLuint) : M unit := call (GlDeleteProgram program).
Definition glUseProgram (program : GLuint) : M unit := call (GlUseProgram program).

Definition glGen (a : Z -> action) (n : nat) : M (list GLuint) :=
  query (a (Z.of_nat n)) (fun e w => gen_names (env_driver e) (w_gl w) n).
Definition glGenVertexArrays := glGen GlGenVertexArrays.
Definition glGenBuffers := glGen GlGenBuffers.
Definition glGenTextures := glGen GlGenTextures.
Definition glGenFramebuffers := glGen GlGenFramebuffers.

Definition glBindVertexArray (array : GLuint) : M unit := call (GlBindVertexArray array).
Definition glBindBuffer (target : GLenum) (buffer : GLuint) : M unit :=
  call (GlBindBuffer target buffer).
Definition glBufferData (target : GLenum) (size : Z) (data : list Q) (usage : GLenum) : M unit :=
  call (GlBufferData target size data usage).
Definition glEnableVertexAttribArray (index : GLuint) : M unit :=
  call (GlEnableVertexAttribArray index).
Definition glVertexAttribPointer (index : GLuint) (size : GLint) (type : GLenum)
    (normalized stride : Z) : M unit :=
  call (GlVertexAttribPointer index size type normalized stride).
Definition glBindTexture (target : GLenum) (texture : GLuint) : M unit :=
  call (GlBindTexture target texture).
Definition glTexImage2D (target : GLenum) (level internalformat : GLint) (width height : Z)
    (border : GLint) (format type : GLenum) : M unit :=
  call (GlTexImage2D target level internalformat width height border format type).
Definition glTexParameteri (target pname : GLenum) (param : GLint) : M unit :=
  call (GlTexParameteri target pname param).
Definition glBindFramebuffer (target : GLenum) (framebuffer : GLuint) : M unit :=
  call (GlBindFramebuffer target framebuffer).
Definition glFramebufferTexture2D (target attachment textarget : GLenum) (texture : GLuint)
    (level : GLint) : M unit :=
  call (GlFramebufferTexture2D target attachment textarget texture level).
Definition glCheckFramebufferStatus (target : GLenum) : M GLenum :=
  query (GlCheckFramebufferStatus target) (fun e _ => drv_framebuffer_status (env_driver e)).
Definition glDepthMask (flag : bool) : M unit := call (GlDepthMask flag).
Definition glDisable (cap : GLenum) : M unit := call (GlDisable cap).
Definition glClearColor (red green blue alpha : Q) : M unit :=
  call (GlClearColor red green blue alpha).
Definition glClear (mask : Z) : M unit := call (GlClear mask).
Definition glDrawBuffers (n : Z) (bufs : list GLenum) : M unit := call (GlDrawBuffers n bufs).
Definition glDrawArrays (mode : GLenum) (first : GLint) (count : Z) : M unit :=
  call (GlDrawArrays mode first count).
Definition glActiveTexture (texture : GLenum) : M unit := call (GlActiveTexture texture).

(** ** 8. The program *)

(** [operator<<] on an [int]. *)
Definition show_int (z : Z) : string := DecimalString.NilZero.string_of_int (Z.to_int z).

(** Lines 9-25. *)
Definition getErrorDescr (errCode : GLenum) : string :=
  if errCode =? GL_NO_ERROR then
    "No error has been recorded. THIS message is the error itself."
  else if errCode =? GL_INVALID_ENUM then
    "An unacceptable value is specified for an enumerated argument."
  else if errCode =? GL_INVALID_VALUE then
    "A numeric argument is out of range."
  else if errCode =? GL_INVALID_OPERATION then
    "The specified operation is not allowed in the current state."
  else if errCode =? GL_INVALID_FRAMEBUFFER_OPERATION then
    "The framebuffer object is not complete."
  else if errCode =? GL_OUT_OF_MEMORY then
    "There is not enough memory left to execute the command."
  else if errCode =? GL_STACK_UNDERFLOW then
    "An attempt has been made to perform an operation that would cause an internal stack to underflow."
  else if errCode =? GL_STACK_OVERFLOW then
    "An attempt has been made to perform an operation that would cause an internal stack to overflow."
  else "No description available.".

(** Lines 32-37: what the string stream holds in the end. *)
Definition describe (error : GLenum) : string :=
  ("OpenGL error: " ++ show_int (cast_int error) ++ endl
   ++ "Error string: " ++ getErrorDescr error ++ endl)%string.

(** Lines 27-38. *)
Definition getErrorMessage : M string :=
  error <- glGetError ;;
  if GL_NO_ERROR =? error then ret EmptyString
  else ret (describe error).

(** Lines 40-46. *)
Definition error : M bool :=
  message <- getErrorMessage ;;
  if (String.length message =? 0)%nat then ret false
  else cerr message ;; ret true.

(** Lines 71-86: what [compileShader] does once the lines are split. *)
Definition compileLines (shader : GLuint) (buf : list ascii) (lines : shader_lines) : M bool :=
  glShaderSource shader buf lines ;;
  glCompileShader shader ;;
  logLength <- glGetShaderiv shader GL_INFO_LOG_LENGTH ;;
  (if 0 <? logLength then
     log <- glGetShaderInfoLog shader logLength ;;
     cout ("Log: " ++ endl) ;;
     cout log
   else ret tt) ;;
  compileStatus <- glGetShaderiv shader GL_COMPILE_STATUS ;;
  ret (negb (compileStatus =? 0)).

(** Lines 48-87.  The result is [None] when the loop of lines 59-68 has
    none: [compileShader] does not get to line 70 then, and does not
    return. *)
Definition compileShader (shader : GLuint) (source : string) : M (option bool) :=
  match split_lines (chars source) with
  | Some lines =>
      ok <- compileLines shader (chars source) lines ;;
      ret (Some ok)
  | None => ret None
  end.

(** Lines 89-142.  The result is [None] when a call of [compileShader]
    does not return. *)
Definition createProgram (vertSource fragSource : string) : M (option GLuint) :=
  vs <- glCreateShader GL_VERTEX_SHADER ;;
  if vs =? 0 then
    cerr ("Error: vertex shader is 0." ++ endl) ;; ret (Some 2)
  else
  fs <- glCreateShader GL_FRAGMENT_SHADER ;;
  if fs =? 0 then
    cerr ("Error: fragment shader is 0." ++ endl) ;; ret (Some 2)
  else
  vsOk <- compileShader vs vertSource ;;
  match vsOk with
  | None => ret None
  | Some vsOk =>
  if negb vsOk then
    cerr ("Error: could not compile vertex shader." ++ endl) ;; ret (Some 5)
  else
  fsOk <- compileShader fs fragSource ;;
  match fsOk with
  | None => ret None
  | Some fsOk =>
  if negb fsOk then
    cerr ("Error: could not compile fragment shader." ++ endl) ;; ret (Some 5)
  else
  program <- glCreateProgram ;;
  if program =? 0 then
    cerr ("Error: program is 0." ++ endl) ;; ret (Some 2)
  else
  glAttachShader program vs ;;
  glAttachShader program fs ;;
  glLinkProgram program ;;
  logLength <- glGetProgramiv program GL_INFO_LOG_LENGTH ;;
  (if 0 <? logLength then
     log <- glGetProgramInfoLog program logLength ;;
     cout ("Log: " ++ endl) ;;
     cout log
   else ret tt) ;;
  linkStatus <- glGetProgramiv program GL_LINK_STATUS ;;
  if linkStatus =? 0 then
    cerr ("Error: could not link." ++ endl) ;; ret (Some 2)
  else
  glDeleteShader vs ;;
  glDeleteShader fs ;;
  ret (Some program)
  end
  end.

(** How [main] ends: with an exit code, by [abort()] from a failed
    assertion, or not at all as far as it has been run: it is still in
    the loop after the given number of frames, or in a call that does
    not return. *)
Inductive outcome := Exit (code : Z) | Aborted | Running.

Definition width : Z := 800.
Definition height : Z := 600.

(** Lines 238-245. *)
Definition fullscreenQuad : list Q :=
  [ -1.0;  -1.0;
     1.0;  -1.0;
     1.0;   1.0;
    -1.0;  -1.0;
     1.0;   1.0;
    -1.0;   1.0 ]%Q.

(** Line 269. *)
Definition att1 : list GLenum := [GL_NONE; GL_COLOR_ATTACHMENT1].

(** Lines 281-285, the offscreen pass. *)
Definition passA (fb quad1Program : GLuint) : M unit :=
  glBindFramebuffer GL_DRAW_FRAMEBUFFER fb ;;
  glClear GL_COLOR_BUFFER_BIT ;;
  glUseProgram quad1Program ;;
  glDrawBuffers 2 att1 ;;
  glDrawArrays GL_TRIANGLES 0 6.

(** Lines 287-292, the screen pass. *)
Definition passB (texProgram tex1 : GLuint) : M unit :=
  glBindFramebuffer GL_DRAW_FRAMEBUFFER 0 ;;
  glUseProgram texProgram ;;
  glActiveTexture GL_TEXTURE0 ;;
  glBindTexture GL_TEXTURE_2D tex1 ;;
  glDrawArrays GL_TRIANGLES 0 6 ;;
  glBindTexture GL_TEXTURE_2D 0.

(** Line 279, the key poll. *)
Definition keyPoll (window : Z) : M unit :=
  key <- glfwGetKey window GLFW_KEY_ESCAPE ;;
  if key =? GLFW_PRESS then glfwSetWindowShouldClose window GLFW_TRUE else ret tt.

(** Lines 279-296, the body of the loop. *)
Definition frame (window fb quad1Program texProgram tex1 : Z) : M unit :=
  keyPoll window ;;
  passA fb quad1Program ;;
  passB texProgram tex1 ;;
  glfwSwapBuffers window ;;
  glfwPollEvents.

(** Lines 278-297: [while (!glfwWindowShouldClose(window)) { ... }], at
    most [fuel] iterations.  [true]: the loop was left. *)
Fixpoint frameLoop (fuel : nat) (window fb quad1Program texProgram tex1 : Z) : M bool :=
  match fuel with
  | O => ret false
  | S fuel' =>
      close <- glfwWindowShouldClose window ;;
      if close =? 0 then
        frame window fb quad1Program texProgram tex1 ;;
        frameLoop fuel' window fb quad1Program texProgram tex1
      else ret true
  end.

(** Lines 299-305. *)
Definition shutdown (window quad1Program : Z) : M outcome :=
  cout ("Finishing..." ++ endl) ;;
  glDeleteProgram quad1Program ;;
  glfwMakeContextCurrent 0 ;;
  glfwDestroyWindow window ;;
  glfwTerminate ;;
  ret (Exit 0).

(** Lines 230-273: vertex buffer, textures, framebuffer and fixed state.
    The result is [None] when the completeness assertion fails, else the
    names of the framebuffer and of the second texture. *)
Definition setup : M (option (GLuint * GLuint)) :=
  vao <- glGenVertexArrays 1 ;;
  glBindVertexArray (nth 0 vao 0) ;;
  buffer <- glGenBuffers 1 ;;
  glBindBuffer GL_ARRAY_BUFFER (nth 0 buffer 0) ;;
  glBufferData GL_ARRAY_BUFFER (Z.of_nat (length fullscreenQuad) * 4) fullscreenQuad
               GL_STATIC_DRAW ;;
  glEnableVertexAttribArray 0 ;;
  glVertexAttribPointer 0 2 GL_FLOAT GL_FALSE 0 ;;
  tex <- glGenTextures 2 ;;
  glBindTexture GL_TEXTURE_2D (nth 0 tex 0) ;;
  glTexImage2D GL_TEXTURE_2D 0 GL_RGBA width height 0 GL_RGBA GL_UNSIGNED_BYTE ;;
  glTexParameteri GL_TEXTURE_2D GL_TEXTURE_MAG_FILTER GL_NEAREST ;;
  glTexParameteri GL_TEXTURE_2D GL_TEXTURE_MIN_FILTER GL_NEAREST ;;
  glBindTexture GL_TEXTURE_2D (nth 1 tex 0) ;;
  glTexImage2D GL_TEXTURE_2D 0 GL_RGBA width height 0 GL_RGBA GL_UNSIGNED_BYTE ;;
  glTexParameteri GL_TEXTURE_2D GL_TEXTURE_MAG_FILTER GL_NEAREST ;;
  glTexParameteri GL_TEXTURE_2D GL_TEXTURE_MIN_FILTER GL_NEAREST ;;
  glBindTexture GL_TEXTURE_2D 0 ;;
  fb <- glGenFramebuffers 1 ;;
  glBindFramebuffer GL_FRAMEBUFFER (nth 0 fb 0) ;;
  glFramebufferTexture2D GL_FRAMEBUFFER GL_COLOR_ATTACHMENT0 GL_TEXTURE_2D (nth 0 tex 0) 0 ;;
  glFramebufferTexture2D GL_FRAMEBUFFER GL_COLOR_ATTACHMENT1 GL_TEXTURE_2D (nth 1 tex 0) 0 ;;
  complete <- assert_ "glCheckFramebufferStatus(GL_FRAMEBUFFER) == GL_FRAMEBUFFER_COMPLETE"
                (status <- glCheckFramebufferStatus GL_FRAMEBUFFER ;;
                 ret (status =? GL_FRAMEBUFFER_COMPLETE)) ;;
  if negb complete then ret None
  else
  glBindFramebuffer GL_FRAMEBUFFER 0 ;;
  glDepthMask false ;;
  glDisable GL_DEPTH_TEST ;;
  glClearColor 0.0 0.0 0.0 1.0 ;;
  ret (Some (nth 0 fb 0, nth 1 tex 0)).

(** Lines 230-305: everything [main] does once it holds the window and
    the two values [createProgram] returned. *)
Definition render (fuel : nat) (window quad1Program texProgram : Z) : M outcome :=
  objects <- setup ;;
  match objects with
  | None => ret Aborted
  | Some (fb, tex1) =>
      quiet <- assert_ "!error()" (failed <- error ;; ret (negb failed)) ;;
      if negb quiet then ret Aborted
      else
      left <- frameLoop fuel window fb quad1Program texProgram tex1 ;;
      if left then shutdown window quad1Program else ret Running
  end.

(** Lines 198-306. *)
Definition main (fuel : nat) : M outcome :=
  ok <- glfwInit ;;
  if ok =? 0 then
    cerr ("Error: glfw init failed." ++ endl) ;; ret (Exit 3)
  else
  glfwWindowHint GLFW_CONTEXT_VERSION_MAJOR 3 ;;
  glfwWindowHint GLFW_CONTEXT_VERSION_MINOR 3 ;;
  glfwWindowHint GLFW_OPENGL_PROFILE GLFW_OPENGL_CORE_PROFILE ;;
  window <- glfwCreateWindow width height "Shader test" ;;
  if window =? 0 then
    cerr ("Error: window is null." ++ endl) ;; glfwTerminate ;; ret (Exit 1)
  else
  glfwMakeContextCurrent window ;;
  glewOk <- glewInit ;;
  if negb (glewOk =? GLEW_OK) then
    cerr ("Error: glew not OK." ++ endl) ;; glfwTerminate ;; ret (Exit 2)
  else
  quad1Program <- createProgram quadVertSource quad1FragSource ;;
  match quad1Program with
  | None => ret Running
  | Some quad1Program =>
  texProgram <- createProgram texVertSource texFragSource ;;
  match texProgram with
  | None => ret Running
  | Some texProgram => render fuel window quad1Program texProgram
  end
  end.

(** ** 9. Vocabulary for the statements below *)

(** A straight run of calls. *)
Definition records (l : list action) (e : env) (w : world) : world :=
  fold_left (fun w a => record a e w) l w.

(** What a run wrote to the standard error stream. *)
Definition stderr (t : list action) : list string :=
  omap (fun a => match a with Cerr text => Some text | _ => None end) t.

(** How often a call occurs in a run. *)
Definition occurrences (p : action -> bool) (t : list action) : nat :=
  length (filter (fun a => p a = true) t).

Definition is_glGetError (a : action) : bool :=
  match a with GlGetError => true | _ => false end.
Definition is_glDeleteProgram (a : action) : bool :=
  match a with GlDeleteProgram _ => true | _ => false end.
Definition is_glfwSwapBuffers (a : action) : bool :=
  match a with GlfwSwapBuffers _ => true | _ => false end.

(** The calls of lines 281-285, 287-292, 279-296 and 300-304. *)
Definition passA_actions (fb quad1Program : GLuint) : list action :=
  [ GlBindFramebuffer GL_DRAW_FRAMEBUFFER fb;
    GlClear GL_COLOR_BUFFER_BIT;
    GlUseProgram quad1Program;
    GlDrawBuffers 2 [GL_NONE; GL_COLOR_ATTACHMENT1];
    GlDrawArrays GL_TRIANGLES 0 6 ].

Definition passB_actions (texProgram tex1 : GLuint) : list action :=
  [ GlBindFramebuffer GL_DRAW_FRAMEBUFFER 0;
    GlUseProgram texProgram;
    GlActiveTexture GL_TEXTURE0;
    GlBindTexture GL_TEXTURE_2D tex1;
    GlDrawArrays GL_TRIANGLES 0 6;
    GlBindTexture GL_TEXTURE_2D 0 ].

Definition keyPoll_actions (pressed : bool) (window : Z) : list action :=
  GlfwGetKey window GLFW_KEY_ESCAPE
  :: (if pressed then [GlfwSetWindowShouldClose window GLFW_TRUE] else []).

Definition frame_actions (pressed : bool) (window fb quad1Program texProgram tex1 : Z)
    : list action :=
  keyPoll_actions pressed window
  ++ passA_actions fb quad1Program
  ++ passB_actions texProgram tex1
  ++ [GlfwSwapBuffers window; GlfwPollEvents].

Definition shutdown_actions (window quad1Program : Z) : list action :=
  [ Cout ("Finishing..." ++ endl);
    GlDeleteProgram quad1Program;
    GlfwMakeContextCurrent 0;
    GlfwDestroyWindow window;
    GlfwTerminate ].

(** The close flag and the cached escape key after a batch of events. *)
Definition close_after (evs : list event) (flag : Z) : Z :=
  fold_left (fun f ev => match ev with CloseRequested => GLFW_TRUE | EscapeKey _ => f end)
            evs flag.

Definition escape_after (evs : list event) (key : Z) : Z :=
  fold_left (fun k ev => match ev with
                         | EscapeKey pressed => if pressed then GLFW_PRESS else GLFW_RELEASE
                         | CloseRequested => k
                         end) evs key.

(** A batch of events that neither presses escape nor asks to close. *)
Definition quiet (evs : list event) : bool :=
  forallb (fun ev => match ev with
                     | EscapeKey pressed => negb pressed
                     | CloseRequested => false
                     end) evs.

(** A computation that only makes calls, all of them satisfying [P]: its
    final world is the initial one after a straight run of such calls. *)
Definition emits {A} (m : M A) (P : action -> Prop) : Prop :=
  forall e w, exists t, snd (m e w) = records t e w /\ Forall P t.

(** The calls of [createProgram] and of the set-up part of [main]. *)
Definition is_build_call (a : action) : bool :=
  match a with
  | GlCreateShader _ | GlShaderSource _ _ _ | GlCompileShader _ | GlGetShaderiv _ _
  | GlGetShaderInfoLog _ _ | GlCreateProgram | GlAttachShader _ _ | GlLinkProgram _
  | GlGetProgramiv _ _ | GlGetProgramInfoLog _ _ | GlDeleteShader _ | Cout _ | Cerr _ => true
  | _ => false
  end.

Definition is_setup_call (a : action) : bool :=
  match a with
  | GlGenVertexArrays _ | GlBindVertexArray _ | GlGenBuffers _ | GlBindBuffer _ _
  | GlBufferData _ _ _ _ | GlEnableVertexAttribArray _ | GlVertexAttribPointer _ _ _ _ _
  | GlGenTextures _ | GlBindTexture _ _ | GlTexImage2D _ _ _ _ _ _ _ _
  | GlTexParameteri _ _ _ | GlGenFramebuffers _ | GlBindFramebuffer _ _
  | GlFramebufferTexture2D _ _ _ _ _ | GlCheckFramebufferStatus _ | GlDepthMask _
  | GlDisable _ | GlClearColor _ _ _ _ | AssertFailed _ => true
  | _ => false
  end.

(** The six ways [createProgram] gives up (lines 92-138): what it writes
    to the standard error stream and what it returns. *)
Inductive build_failure :=
  | ZeroVertexShader
  | ZeroFragmentShader
  | VertexCompileFailure
  | FragmentCompileFailure
  | ZeroProgram
  | LinkFailure.

Definition failure_message (f : build_failure) : string :=
  match f with
  | ZeroVertexShader => "Error: vertex shader is 0." ++ endl
  | ZeroFragmentShader => "Error: fragment shader is 0." ++ endl
  | VertexCompileFailure => "Error: could not compile vertex shader." ++ endl
  | FragmentCompileFailure => "Error: could not compile fragment shader." ++ endl
  | ZeroProgram => "Error: program is 0." ++ endl
  | LinkFailure => "Error: could not link." ++ endl
  end.

Definition failure_result (f : build_failure) : GLuint :=
  match f with
  | ZeroVertexShader => 2
  | ZeroFragmentShader => 2
  | VertexCompileFailure => 5
  | FragmentCompileFailure => 5
  | ZeroProgram => 2
  | LinkFailure => 2
  end.

Definition zero_handle (f : build_failure) : bool :=
  match f with
  | ZeroVertexShader | ZeroFragmentShader | ZeroProgram => true
  | _ => false
  end.

Definition compile_failure (f : build_failure) : bool :=
  match f with
  | VertexCompileFailure | FragmentCompileFailure => true
  | _ => false
  end.

(** The calls of lines 201-220 when nothing fails. *)
Definition boot_actions (window : Z) : list action :=
  [ GlfwInit;
    GlfwWindowHint GLFW_CONTEXT_VERSION_MAJOR 3;
    GlfwWindowHint GLFW_CONTEXT_VERSION_MINOR 3;
    GlfwWindowHint GLFW_OPENGL_PROFILE GLFW_OPENGL_CORE_PROFILE;
    GlfwCreateWindow width height "Shader test";
    GlfwMakeContextCurrent window;
    GlewInit ].

Definition is_boot_call (a : action) : bool :=
  match a with
  | GlfwInit | GlfwWindowHint _ _ | GlfwCreateWindow _ _ _ | GlfwTerminate
  | GlfwMakeContextCurrent _ | GlewInit | Cerr _ => true
  | _ => false
  end.

(** Everything [main] can call before the loop. *)
Definition is_startup_call (a : action) : bool :=
  is_boot_call a || is_build_call a || is_setup_call a || is_glGetError a.

(** One turn of the loop: the test of line 278 and the body. *)
Definition iteration (pressed : bool) (window fb quad1Program texProgram tex1 : Z)
    : list action :=
  GlfwWindowShouldClose window
  :: frame_actions pressed window fb quad1Program texProgram tex1.

(** The values [main] holds in [quad1Program] and [texProgram] (lines
    227-228) when it gets that far from the world [w].  Both calls of
    [createProgram] return ([embedded_programs_returned] below). *)
Definition quad1Program_of (e : env) (w : world) : GLuint :=
  default 0 (fst (createProgram quadVertSource quad1FragSource e
                    (records (boot_actions (env_window e)) e w))).

Definition texProgram_of (e : env) (w : world) : GLuint :=
  default 0 (fst (createProgram texVertSource texFragSource e
                    (snd (createProgram quadVertSource quad1FragSource e
                            (records (boot_actions (env_window e)) e w))))).

(** The creation call whose answer a zero-handle failure tests. *)
Definition creation_call (f : build_failure) : action :=
  match f with
  | ZeroVertexShader => GlCreateShader GL_VERTEX_SHADER
  | ZeroFragmentShader => GlCreateShader GL_FRAGMENT_SHADER
  | _ => GlCreateProgram
  end.

(** ** 10. Concrete environments *)

(** Names 1, 2, 3, ... *)
Definition fresh_names (k : nat) : GLuint := Z.of_nat (S k).

(** The usual answer to [GL_INFO_LOG_LENGTH]: the length of the log with
    its terminating null character, and 0 for an empty log. *)
Definition counted_log_length (log : string) : GLint :=
  match log with
  | EmptyString => 0
  | _ => Z.of_nat (String.length log) + 1
  end.

(** A driver that accepts every shader and program, reports the
    framebuffer complete and holds no error. *)
Definition accepting_driver : driver :=
  {| drv_name := fresh_names;
     drv_compile := fun _ _ => (1, EmptyString);
     drv_link := fun _ _ => (1, EmptyString);
     drv_log_length := counted_log_length;
     drv_framebuffer_status := GL_FRAMEBUFFER_COMPLETE;
     drv_errors := [] |}.

(** An accepting driver that counts the terminating null character of
    every log, the empty one too. *)
Definition nul_counting_driver : driver :=
  {| drv_name := fresh_names;
     drv_compile := fun _ _ => (1, EmptyString);
     drv_link := fun _ _ => (1, EmptyString);
     drv_log_length := fun log => Z.of_nat (String.length log) + 1;
     drv_framebuffer_status := GL_FRAMEBUFFER_COMPLETE;
     drv_errors := [] |}.

(** One that rejects every vertex shader. *)
Definition rejecting_driver : driver :=
  {| drv_name := fresh_names;
     drv_compile := fun type _ =>
       if type =? GL_VERTEX_SHADER then (0, "ERROR: 0:1: syntax error")
       else (1, EmptyString);
     drv_link := fun _ _ => (1, EmptyString);
     drv_log_length := counted_log_length;
     drv_framebuffer_status := GL_FRAMEBUFFER_COMPLETE;
     drv_errors := [] |}.

(** One that rejects the vertex shader of program A and accepts every
    other text. *)
Definition picky_driver : driver :=
  {| drv_name := fresh_names;
     drv_compile := fun _ text =>
       if bool_decide (text = Some (chars quadVertSource))
       then (0, "ERROR: 0:1: syntax error")
       else (1, EmptyString);
     drv_link := fun _ _ => (1, EmptyString);
     drv_log_length := counted_log_length;
     drv_framebuffer_status := GL_FRAMEBUFFER_COMPLETE;
     drv_errors := [] |}.

(** One whose linker fails. *)
Definition unlinking_driver : driver :=
  {| drv_name := fresh_names;
     drv_compile := fun _ _ => (1, EmptyString);
     drv_link := fun _ _ => (0, "error: linking failed");
     drv_log_length := counted_log_length;
     drv_framebuffer_status := GL_FRAMEBUFFER_COMPLETE;
     drv_errors := [] |}.

(** One that cannot create the first object. *)
Definition exhausted_driver : driver :=
  {| drv_name := fun k => match k with O => 0 | S _ => fresh_names k end;
     drv_compile := fun _ _ => (1, EmptyString);
     drv_link := fun _ _ => (1, EmptyString);
     drv_log_length := counted_log_length;
     drv_framebuffer_status := GL_FRAMEBUFFER_COMPLETE;
     drv_errors := [] |}.


(** One that holds two error codes. *)
Definition erring_driver : driver :=
  {| drv_name := fresh_names;
     drv_compile := fun _ _ => (1, EmptyString);
     drv_link := fun _ _ => (1, EmptyString);
     drv_log_length := counted_log_length;
     drv_framebuffer_status := GL_FRAMEBUFFER_COMPLETE;
     drv_errors := [GL_INVALID_ENUM; GL_INVALID_VALUE] |}.

Definition no_events (k : nat) : list event := [].

(** The user closes the window while the first frame is shown. *)
Definition close_during_first_frame (k : nat) : list event :=
  match k with
  | O => [CloseRequested]
  | S _ => []
  end.

(** The user presses escape while the first frame is shown. *)
Definition escape_during_first_frame (k : nat) : list event :=
  match k with
  | O => [EscapeKey true]
  | S _ => []
  end.

(** The user taps escape while the first frame is shown: the press and
    the release are both pending when the first [glfwPollEvents] runs. *)
Definition tap_during_first_frame (k : nat) : list event :=
  match k with
  | O => [EscapeKey true; EscapeKey false]
  | S _ => []
  end.

(** A working window system and loader, assertions enabled. *)
Definition plain_env (d : driver) (events : nat -> list event) : env :=
  {| env_glfwInit := GLFW_TRUE;
     env_window := 4096;
     env_glewInit := GLEW_OK;
     env_driver := d;
     env_events := events;
     env_ndebug := false |}.

(** A text of 2^32 characters, none of them a newline. *)
Definition endless_source : string :=
  string_of_list_ascii (replicate (Z.to_nat (2 ^ 32)) "a"%char).

(** A shader text whose last line has no newline. *)
Definition unterminated_source : string := "#version 330
void main(){}".

(** [glUseProgram(p)]. *)
Definition uses_program (p : GLuint) (a : action) : bool :=
  match a with
  | GlUseProgram q => q =? p
  | _ => false
  end.

(** A world in which the escape key is held and the close flag is down. *)
Definition escape_held_world (d : driver) : world :=
  {| w_trace := []; w_gl := gl_init d; w_should_close := 0;
     w_escape := GLFW_PRESS; w_polls := 0%nat |}.

(** ** 11. What the loop finds and what it shows *)

(** The texts a program object was linked from. *)
Definition linked_texts (st : gl_state) (p : GLuint)
    : option (option (list ascii) * option (list ascii)) :=
  gl_programs st !! p ≫= pr_exe.

(** The texture attached to colour attachment [k] of framebuffer [fb],
    and the draw buffers of [fb]. *)
Definition attachment (st : gl_state) (fb : GLuint) (k : Z) : option GLuint :=
  fb_objects (gl_fb st) !! fb ≫= fun o => fbo_color o !! k.

Definition draw_buffers (st : gl_state) (fb : GLuint) : option (list GLenum) :=
  fbo_draw_buffers <$> fb_objects (gl_fb st) !! fb.

(** Size and filters of a texture; one of its texels; a pixel of the
    image the window shows (the front buffer). *)
Definition texture_format (st : gl_state) (t : GLuint) : option (Z * Z * GLenum * GLenum) :=
  (fun o => (tex_width o, tex_height o, tex_min_filter o, tex_mag_filter o))
    <$> tx_textures (gl_tex st) !! t.

Definition texel_at (st : gl_state) (t : GLuint) (x y : Z) : option texel :=
  tx_textures (gl_tex st) !! t ≫= fun o => tex_image o x y.

Definition shown (st : gl_state) (x y : Z) : option texel := sf_front (gl_surface st) x y.

(** The six vertices that [glDrawArrays(GL_TRIANGLES, 0, 6)] fetches from
    the buffer of lines 238-245. *)
Definition quad_vertices : list vec2 :=
  default [] (mapM (fetch_vertex fullscreenQuad 2) (seqZ 0 6)).

(** The viewport of an 800 x 600 window. *)
Definition window_viewport : viewport :=
  {| vp_x := 0; vp_y := 0; vp_width := width; vp_height := height |}.

Definition blue : texel := Texel 0 0 255 255.
Definition black : texel := Texel 0 0 0 255.

(** The rectangle the quad of pass A covers in an 800 x 600 buffer. *)
Definition in_quad (x y : Z) : bool := in_rect 200 150 400 300 x y.
Definition in_window (x y : Z) : bool := in_rect 0 0 width height x y.

(** What [texFragSource] makes of a texel: red, green and blue as they
    are, alpha 1. *)
Definition resampled (c : texel) : texel :=
  let v := load_color c in store_color (Vec4 (v4_x v) (v4_y v) (v4_z v) 1.0).

(** The state in which [main] enters the loop, as far as the two passes
    depend on it: both programs linked from the embedded texts, the
    vertex buffer in place, the framebuffer object with the two textures
    attached and its draw buffers either as created or as pass A sets
    them, the second texture 800 x 600 with nearest filtering, viewport
    and window surface 800 x 600, and the clear colour of line 273. *)
Record loop_ready (fb quad1Program texProgram tex0 tex1 : GLuint) (st : gl_state) : Prop := {
  ready_quad1Program :
    quad1Program <> 0 /\
    linked_texts st quad1Program = Some (Some (chars quadVertSource), Some (chars quad1FragSource));
  ready_texProgram :
    texProgram <> 0 /\
    linked_texts st texProgram = Some (Some (chars texVertSource), Some (chars texFragSource));
  ready_vertices : fetch_vertices (gl_vertex st) 0 6 = Some quad_vertices;
  ready_fb : fb <> 0;
  ready_attachment0 : attachment st fb 0 = Some tex0;
  ready_attachment1 : attachment st fb 1 = Some tex1;
  ready_draw_buffers :
    draw_buffers st fb = Some [GL_COLOR_ATTACHMENT0] \/
    draw_buffers st fb = Some [GL_NONE; GL_COLOR_ATTACHMENT1];
  ready_tex1 : tex1 <> 0 /\ tex0 <> tex1;
  ready_tex1_format : texture_format st tex1 = Some (width, height, GL_NEAREST, GL_NEAREST);
  ready_viewport : fb_viewport (gl_fb st) = window_viewport;
  ready_surface : sf_width (gl_surface st) = width /\ sf_height (gl_surface st) = height;
  ready_clear_color : fb_clear_color (gl_fb st) = Vec4 0.0 0.0 0.0 1.0
}.

(** The world in which [main] enters the loop when nothing fails. *)
Definition loop_entry (e : env) : world :=
  let rA := createProgram quadVertSource quad1FragSource e
              (records (boot_actions (env_window e)) e (world_init e)) in
  let rB := createProgram texVertSource texFragSource e (snd rA) in
  let rs := setup e (snd rB) in
  snd (assert_ "!error()" (failed <- error ;; ret (negb failed)) e (snd rs)).

(** ** 12. The set-up part of [main], call by call *)

(** How many names a call takes from the driver. *)
Definition allocations (a : action) : nat :=
  match a with
  | GlCreateShader _ | GlCreateProgram => 1
  | GlGenVertexArrays n | GlGenBuffers n | GlGenTextures n | GlGenFramebuffers n => Z.to_nat n
  | _ => 0
  end.

(** The calls of lines 230-266, up to the completeness assertion, and of
    lines 268-273 after it, with the names the [glGen*] calls stored. *)
Definition setup_calls (vao buffer tex0 tex1 fb : GLuint) : list action :=
  [ GlGenVertexArrays 1;
    GlBindVertexArray vao;
    GlGenBuffers 1;
    GlBindBuffer GL_ARRAY_BUFFER buffer;
    GlBufferData GL_ARRAY_BUFFER 48 fullscreenQuad GL_STATIC_DRAW;
    GlEnableVertexAttribArray 0;
    GlVertexAttribPointer 0 2 GL_FLOAT GL_FALSE 0;
    GlGenTextures 2;
    GlBindTexture GL_TEXTURE_2D tex0;
    GlTexImage2D GL_TEXTURE_2D 0 GL_RGBA width height 0 GL_RGBA GL_UNSIGNED_BYTE;
    GlTexParameteri GL_TEXTURE_2D GL_TEXTURE_MAG_FILTER GL_NEAREST;
    GlTexParameteri GL_TEXTURE_2D GL_TEXTURE_MIN_FILTER GL_NEAREST;
    GlBindTexture GL_TEXTURE_2D tex1;
    GlTexImage2D GL_TEXTURE_2D 0 GL_RGBA width height 0 GL_RGBA GL_UNSIGNED_BYTE;
    GlTexParameteri GL_TEXTURE_2D GL_TEXTURE_MAG_FILTER GL_NEAREST;
    GlTexParameteri GL_TEXTURE_2D GL_TEXTURE_MIN_FILTER GL_NEAREST;
    GlBindTexture GL_TEXTURE_2D 0;
    GlGenFramebuffers 1;
    GlBindFramebuffer GL_FRAMEBUFFER fb;
    GlFramebufferTexture2D GL_FRAMEBUFFER GL_COLOR_ATTACHMENT0 GL_TEXTURE_2D tex0 0;
    GlFramebufferTexture2D GL_FRAMEBUFFER GL_COLOR_ATTACHMENT1 GL_TEXTURE_2D tex1 0 ].

Definition setup_rest : list action :=
  [ GlBindFramebuffer GL_FRAMEBUFFER 0;
    GlDepthMask false;
    GlDisable GL_DEPTH_TEST;
    GlClearColor 0.0 0.0 0.0 1.0 ].

Definition completeness_check : list action := [GlCheckFramebufferStatus GL_FRAMEBUFFER].

Definition completeness_assertion : string :=
  "glCheckFramebufferStatus(GL_FRAMEBUFFER) == GL_FRAMEBUFFER_COMPLETE".

(** A context that differs from [st] in the count of names handed out,
    in the shader objects and in the program objects. *)
Definition with_build (allocs : nat) (shaders : gmap Z shader_obj)
    (programs : gmap Z program_obj) (st : gl_state) : gl_state :=
  {| gl_allocs := allocs; gl_errors := gl_errors st; gl_shaders := shaders;
     gl_programs := programs; gl_program := gl_program st; gl_vertex := gl_vertex st;
     gl_tex := gl_tex st; gl_fb := gl_fb st; gl_surface := gl_surface st;
     gl_sampled := gl_sampled st |}.

(** ** 13. More vocabulary *)

(** The codes [getErrorDescr] has a case for (lines 14-21). *)
Definition described_errors : list GLenum :=
  [ GL_NO_ERROR; GL_INVALID_ENUM; GL_INVALID_VALUE; GL_INVALID_OPERATION;
    GL_INVALID_FRAMEBUFFER_OPERATION; GL_OUT_OF_MEMORY; GL_STACK_UNDERFLOW;
    GL_STACK_OVERFLOW ].

(** What a run wrote to the standard output stream. *)
Definition stdout (t : list action) : list string :=
  omap (fun a => match a with Cout text => Some text | _ => None end) t.

Definition is_glDeleteShader (a : action) : bool :=
  match a with GlDeleteShader _ => true | _ => false end.

Definition is_glfwTerminate (a : action) : bool :=
  match a with GlfwTerminate => true | _ => false end.

Definition is_glDrawArrays (a : action) : bool :=
  match a with GlDrawArrays _ _ _ => true | _ => false end.

(** The part of the context that [createProgram] and the set-up part of
    [main] build: the count of names handed out, the error queue, the
    shader and program objects and the vertex state. *)
Definition built (st : gl_state) :=
  (gl_allocs st, gl_errors st, gl_shaders st, gl_programs st, gl_vertex st).

(** The calls of [compileShader]. *)
Definition is_compile_call (a : action) : bool :=
  match a with
  | GlShaderSource _ _ _ | GlCompileShader _ | GlGetShaderiv _ _
  | GlGetShaderInfoLog _ _ | Cout _ => true
  | _ => false
  end.

(** A call that deletes no shader object and no program object. *)
(** The calls of lines 124-134 that ask for the log and the status of a
    program, and print the log. *)
Definition is_log_call (a : action) : bool :=
  match a with
  | GlGetProgramiv _ _ | GlGetProgramInfoLog _ _ | Cout _ => true
  | _ => false
  end.

(** A shader object as [createProgram] leaves it when it succeeds:
    holding its text, compiled, and flagged for deletion. *)
Definition built_shader (d : driver) (type : GLenum) (text : option (list ascii))
    : shader_obj :=
  {| sh_type := type; sh_text := text;
     sh_status := fst (drv_compile d type text);
     sh_log := snd (drv_compile d type text);
     sh_deleted := true |}.

Definition deletes_nothing (a : action) : bool :=
  negb (is_glDeleteShader a || is_glDeleteProgram a).

(** The calls that only an assertion makes, and its failure. *)
Definition is_assertion_call (a : action) : bool :=
  match a with
  | GlCheckFramebufferStatus _ | GlGetError | AssertFailed _ => true
  | _ => false
  end.

(** The calls that end a run in good order (lines 302-304). *)
Definition is_cleanup_call (a : action) : bool :=
  match a with
  | GlfwDestroyWindow _ | GlfwTerminate => true
  | _ => false
  end.

(** The calls that put a frame on the screen. *)
Definition is_frame_call (a : action) : bool :=
  match a with
  | GlDrawArrays _ _ _ | GlfwSwapBuffers _ => true
  | _ => false
  end.

(** The window system and the loader start up (lines 201-225 pass). *)
Definition boots (e : env) : Prop :=
  env_glfwInit e <> 0 /\ env_window e <> 0 /\ env_glewInit e = GLEW_OK.

(** A working window system and loader, assertions compiled out. *)
Definition release_env (d : driver) (events : nat -> list event) : env :=
  {| env_glfwInit := GLFW_TRUE;
     env_window := 4096;
     env_glewInit := GLEW_OK;
     env_driver := d;
     env_events := events;
     env_ndebug := true |}.

(** A driver that reports the framebuffer incomplete. *)
Definition incomplete_driver : driver :=
  {| drv_name := fresh_names;
     drv_compile := fun _ _ => (1, EmptyString);
     drv_link := fun _ _ => (1, EmptyString);
     drv_log_length := counted_log_length;
     drv_framebuffer_status := 0x8CD6;
     drv_errors := [] |}.

(** The context once the window exists (line 212): nothing but the
    window surface and the viewport. *)
Definition window_state (d : driver) : gl_state :=
  gl_step d (gl_init d) (GlfwCreateWindow width height "Shader test").

(** An environment in which nothing fails on the way to the loop: the
    window system and the loader start up; the driver hands out names
    that are not 0 and that tell the objects of a kind apart; it accepts
    the four shader texts and links the two pairs; and the two
    assertions pass, or are compiled out. *)
Record cooperative (e : env) : Prop := {
  coop_boots : boots e;
  coop_shadersA :
    drv_name (env_driver e) 0 <> 0 /\ drv_name (env_driver e) 1 <> 0
    /\ drv_name (env_driver e) 0 <> drv_name (env_driver e) 1;
  coop_shadersB :
    drv_name (env_driver e) 3 <> 0 /\ drv_name (env_driver e) 4 <> 0
    /\ drv_name (env_driver e) 3 <> drv_name (env_driver e) 4;
  coop_programs :
    drv_name (env_driver e) 2 <> 0 /\ drv_name (env_driver e) 5 <> 0
    /\ drv_name (env_driver e) 2 <> drv_name (env_driver e) 5;
  coop_textures :
    drv_name (env_driver e) 9 <> 0
    /\ drv_name (env_driver e) 8 <> drv_name (env_driver e) 9;
  coop_framebuffer : drv_name (env_driver e) 10 <> 0;
  coop_compiles :
    fst (drv_compile (env_driver e) GL_VERTEX_SHADER (Some (chars quadVertSource))) <> 0
    /\ fst (drv_compile (env_driver e) GL_FRAGMENT_SHADER (Some (chars quad1FragSource))) <> 0
    /\ fst (drv_compile (env_driver e) GL_VERTEX_SHADER (Some (chars texVertSource))) <> 0
    /\ fst (drv_compile (env_driver e) GL_FRAGMENT_SHADER (Some (chars texFragSource))) <> 0;
  coop_links :
    fst (drv_link (env_driver e) (Some (chars quadVertSource))
           (Some (chars quad1FragSource))) <> 0
    /\ fst (drv_link (env_driver e) (Some (chars texVertSource))
              (Some (chars texFragSource))) <> 0;
  coop_asserts :
    env_ndebug e = true
    \/ (drv_framebuffer_status (env_driver e) = GL_FRAMEBUFFER_COMPLETE
        /\ pending_error (gl_init (env_driver e)) = GL_NO_ERROR)
}.

(** * Part II. Theorems *)

(** ** Line splitting *)

Section Splitting.

Lemma wrap_uint_small (z : Z) : 0 <= z < 2 ^ 32 -> wrap_uint z = z.
Proof. intros H. unfold wrap_uint. by apply Z.mod_small. Qed.

Lemma cast_int_small (z : Z) : 0 <= z < 2 ^ 31 -> cast_int z = z.
Proof.
  intros H. unfold cast_int. cbv zeta. rewrite Z.mod_small by lia.
  destruct (z <? 2 ^ 31) eqn:E; [done|]. apply Z.ltb_ge in E. lia.
Qed.

Lemma complete_lines_from_length (s cur : list ascii) :
  (length (complete_lines_from cur s) <= length s)%nat.
Proof.
  revert cur. induction s as [|c s IH]; intros cur; simpl; [lia|].
  destruct (is_newline c); simpl.
  - specialize (IH []). lia.
  - specialize (IH (cur ++ [c])). lia.
Qed.

Lemma count_newlines_acc (s cur : list ascii) (a : Z) :
  fold_left (fun n c => wrap_uint (n + (if is_newline c then 1 else 0))) s (wrap_uint a)
  = wrap_uint (a + Z.of_nat (length (complete_lines_from cur s))).
Proof.
  revert cur a. induction s as [|c s IH]; intros cur a; simpl.
  - by rewrite Z.add_0_r.
  - assert (Hw : forall b, wrap_uint (wrap_uint a + b) = wrap_uint (a + b)).
    { intros b. unfold wrap_uint. by rewrite Z.add_mod_idemp_l. }
    rewrite Hw. destruct (is_newline c); simpl.
    + rewrite (IH []). f_equal. lia.
    + rewrite (IH (cur ++ [c])). f_equal. lia.
Qed.

(** The counting loop counts the complete lines, modulo 2^32. *)
Lemma count_newlines_wrap (s : list ascii) :
  count_newlines s = wrap_uint (Z.of_nat (length (complete_lines s))).
Proof.
  unfold count_newlines, complete_lines.
  exact (count_newlines_acc s [] 0).
Qed.

Lemma count_newlines_lines (s : list ascii) :
  Z.of_nat (length s) < 2 ^ 32 ->
  count_newlines s = Z.of_nat (length (complete_lines s)).
Proof.
  intros Hs. rewrite count_newlines_wrap. apply wrap_uint_small.
  pose proof (complete_lines_from_length s []). unfold complete_lines. lia.
Qed.

Lemma split_loop_done (fuel : nat) (source : list ascii) (len i : Z) (st : split_state) :
  len <= i -> split_loop fuel source len i st = Some st.
Proof.
  intros H. apply Z.ltb_ge in H. destruct fuel; simpl; by rewrite H.
Qed.

Lemma split_loop_turn (fuel : nat) (source : list ascii) (len i : Z) (st : split_state)
    (c : ascii) :
  i < len -> source !! Z.to_nat i = Some c ->
  split_loop (S fuel) source len i st
  = match split_step i c st with
    | Some st' => split_loop fuel source len (wrap_uint (i + 1)) st'
    | None => None
    end.
Proof. intros H Hc. apply Z.ltb_lt in H. simpl. by rewrite H, Hc. Qed.

Lemma write_cell_inside (k : nat) (v : Z) (a : list (option Z)) :
  (k < length a)%nat -> write_cell (Z.of_nat k) v a = Some (<[k := Some v]> a).
Proof.
  intros H. unfold write_cell.
  assert (E : (0 <=? Z.of_nat k) && (Z.of_nat k <? Z.of_nat (length a)) = true).
  { apply andb_true_intro. split; [apply Z.leb_le|apply Z.ltb_lt]; lia. }
  by rewrite E, Nat2Z.id.
Qed.

(** From a source shorter than 2^31 - 1 characters no counter of the
    second loop wraps around and no write misses its array: the loop
    writes, from cell [idx] on, the start and the length of every
    complete line ahead. *)
Lemma split_loop_spec (source rest : list ascii) :
  forall (fuel : nat) (pre cur : list ascii) (st : split_state) (k ls : nat),
  source = pre ++ rest ->
  Z.of_nat (length source) < 2 ^ 31 - 1 ->
  (length rest <= fuel)%nat ->
  lineLength st = Z.of_nat (S (length cur)) ->
  lineStart st = Z.of_nat ls -> (ls + length cur = length pre)%nat ->
  idx st = Z.of_nat k ->
  let L := complete_lines_from cur rest in
  (k + length L <= length (sourceLines st))%nat ->
  length (lengths st) = length (sourceLines st) ->
  Z.of_nat (length (sourceLines st)) < 2 ^ 31 ->
  exists st' : split_state,
    split_loop fuel source (Z.of_nat (length source)) (Z.of_nat (length pre)) st = Some st'
    /\ idx st' = Z.of_nat (k + length L)
    /\ sourceLines st'
       = list_inserts k ((fun o => Some (Z.of_nat o)) <$> offsets ls L) (sourceLines st)
    /\ lengths st'
       = list_inserts k ((fun l => Some (Z.of_nat (length l))) <$> L) (lengths st).
Proof.
  induction rest as [|c rest IH];
    intros fuel pre cur st k ls Hsrc Hlen Hfuel Hll Hls Hcur Hidx L Hroom Hsame Hsmall.
  - exists st. subst L. simpl. rewrite Nat.add_0_r.
    split; [|done]. apply split_loop_done. rewrite Hsrc, app_nil_r. lia.
  - destruct fuel as [|fuel]; [simpl in Hfuel; lia|].
    assert (Hi : Z.of_nat (length pre) < Z.of_nat (length source)).
    { rewrite Hsrc, length_app. simpl. lia. }
    assert (Hc : source !! Z.to_nat (Z.of_nat (length pre)) = Some c).
    { rewrite Nat2Z.id, Hsrc. by apply list_lookup_middle. }
    rewrite (split_loop_turn fuel source _ _ st c Hi Hc).
    assert (Hnext : wrap_uint (Z.of_nat (length pre) + 1) = Z.of_nat (length (pre ++ [c]))).
    { rewrite length_app. simpl. rewrite wrap_uint_small; lia. }
    rewrite Hnext.
    assert (Hsrc' : source = (pre ++ [c]) ++ rest) by (by rewrite <- app_assoc).
    subst L. unfold split_step. simpl in Hroom |- *.
    destruct (is_newline c) eqn:Ec; simpl in Hroom |- *.
    + rewrite Hidx, write_cell_inside by lia.
      rewrite write_cell_inside by lia.
      destruct (IH fuel (pre ++ [c]) []
                  {| idx := cast_int (Z.of_nat k + 1);
                     lineStart := Z.of_nat (length pre) + 1;
                     lineLength := 1;
                     sourceLines := <[k := Some (lineStart st)]> (sourceLines st);
                     lengths := <[k := Some (lineLength st)]> (lengths st) |}
                  (S k) (length (pre ++ [c])) Hsrc' Hlen)
        as (st' & Hrun & Hi' & Hs' & Hl').
      * simpl in Hfuel. lia.
      * reflexivity.
      * simpl. rewrite length_app. simpl. lia.
      * simpl. lia.
      * simpl. rewrite cast_int_small; lia.
      * simpl. rewrite length_insert. lia.
      * simpl. by rewrite !length_insert.
      * simpl. rewrite length_insert. lia.
      * exists st'. split; [exact Hrun|]. simpl in Hi', Hs', Hl'.
        split; [rewrite Hi'; f_equal; lia|].
        rewrite Hs', Hl'. simpl.
        rewrite !list_insert_inserts_lt by lia.
        rewrite Hls, Hll, !length_app. simpl.
        replace (ls + (length cur + 1))%nat with (length pre + 1)%nat by lia.
        replace (S (length cur)) with (length cur + 1)%nat by lia.
        done.
    + destruct (IH fuel (pre ++ [c]) (cur ++ [c])
                  {| idx := idx st;
                     lineStart := lineStart st;
                     lineLength := cast_int (lineLength st + 1);
                     sourceLines := sourceLines st;
                     lengths := lengths st |}
                  k ls Hsrc' Hlen)
        as (st' & Hrun & Hi' & Hs' & Hl').
      * simpl in Hfuel. lia.
      * simpl. rewrite Hll, length_app. simpl.
        assert (Z.of_nat (length pre) < Z.of_nat (length source)) by exact Hi.
        rewrite cast_int_small; lia.
      * done.
      * rewrite !length_app. simpl. lia.
      * done.
      * done.
      * done.
      * done.
      * exists st'. by split.
Qed.

Lemma length_offsets (ls : list (list ascii)) (from : nat) :
  length (offsets from ls) = length ls.
Proof. revert from. induction ls as [|l ls IH]; intros from; simpl; [done|]. by rewrite IH. Qed.

(** The arrays handed to the driver for a source shorter than 2^31 - 1
    characters are exactly the starts and lengths of its complete lines:
    every cell is written. *)
Lemma split_lines_spec (source : list ascii) :
  Z.of_nat (length source) < 2 ^ 31 - 1 ->
  split_lines source =
  Some {| sl_count := Z.of_nat (length (complete_lines source));
          sl_starts := (fun o => Some (Z.of_nat o)) <$> offsets 0 (complete_lines source);
          sl_lengths := (fun l => Some (Z.of_nat (length l))) <$> complete_lines source |}.
Proof.
  intros Hlen. unfold split_lines. cbv zeta.
  pose proof (complete_lines_from_length source []) as Hn. fold (complete_lines source) in Hn.
  rewrite count_newlines_lines by lia.
  destruct (split_loop_spec source source (S (length source)) [] []
              (split_init (Z.of_nat (length (complete_lines source)))) 0 0)
    as (st' & Hrun & _ & Hs & Hl); try done.
  - lia.
  - simpl. rewrite Nat2Z.id, length_replicate. done.
  - simpl. rewrite Nat2Z.id, length_replicate. lia.
  - change (Z.of_nat (length (@nil ascii))) with 0 in Hrun.
    rewrite Hrun. fold (complete_lines source) in Hs, Hl.
    rewrite Hs, Hl. simpl. rewrite Nat2Z.id. f_equal. f_equal.
    + apply cast_int_small. lia.
    + pose proof (list_inserts_0_l ((fun o => Some (Z.of_nat o))
                                      <$> offsets 0 (complete_lines source)) []
                    (replicate (length (complete_lines source)) None)) as H.
      rewrite app_nil_r in H. apply H.
      by rewrite length_fmap, length_replicate, length_offsets.
    + pose proof (list_inserts_0_l ((fun l => Some (Z.of_nat (length l)))
                                      <$> complete_lines source) []
                    (replicate (length (complete_lines source)) None)) as H.
      rewrite app_nil_r in H. apply H.
      by rewrite length_fmap, length_replicate.
Qed.


(** With a source of 2^32 characters or more the index never gets to the
    length: no number of turns ends the loop. *)
Lemma split_loop_endless (source : list ascii) (len : Z) :
  2 ^ 32 <= len ->
  forall (fuel : nat) (i : Z) (st : split_state),
    0 <= i < 2 ^ 32 -> split_loop fuel source len i st = None.
Proof.
  intros Hlen. induction fuel as [|fuel IH]; intros i st Hi; simpl.
  - assert (E : (i <? len) = true) by (apply Z.ltb_lt; lia). by rewrite E.
  - assert (E : (i <? len) = true) by (apply Z.ltb_lt; lia). rewrite E.
    destruct (source !! Z.to_nat i) as [c|]; [|done].
    destruct (split_step i c st) as [st'|]; [|done].
    apply IH. unfold wrap_uint. apply Z.mod_pos_bound. lia.
Qed.

(** With a shorter source, a loop that has as many turns as there are
    characters ahead and yet has no result has none whatever its number
    of turns. *)
Lemma split_loop_stuck (source : list ascii) (len : Z) :
  len < 2 ^ 32 ->
  forall (fuel : nat) (i : Z) (st : split_state),
    0 <= i -> len - i <= Z.of_nat fuel ->
    split_loop fuel source len i st = None ->
    forall fuel' : nat, split_loop fuel' source len i st = None.
Proof.
  intros Hlen. induction fuel as [|fuel IH]; intros i st Hi Hfuel Hnone fuel'.
  - rewrite split_loop_done in Hnone by lia. discriminate.
  - destruct (Z.ltb_spec i len) as [Hlt|Hge];
      [|rewrite split_loop_done in Hnone by lia; discriminate].
    assert (E : (i <? len) = true) by (by apply Z.ltb_lt).
    destruct fuel' as [|fuel']; simpl in Hnone |- *; rewrite E in Hnone |- *; [done|].
    destruct (source !! Z.to_nat i) as [c|]; [|done].
    destruct (split_step i c st) as [st'|]; [|done].
    rewrite wrap_uint_small in Hnone |- * by lia.
    apply (IH (i + 1) st'); [lia|lia|exact Hnone].
Qed.

(** The number of turns [split_lines] gives the loop is enough: where it
    has no result, no number of turns gives one. *)
Lemma split_lines_none (source : list ascii) :
  split_lines source = None ->
  forall fuel : nat,
    split_loop fuel source (Z.of_nat (length source)) 0
      (split_init (count_newlines source)) = None.
Proof.
  unfold split_lines. cbv zeta. intros Hnone fuel.
  destruct (split_loop (S (length source)) source (Z.of_nat (length source)) 0
              (split_init (count_newlines source))) as [st|] eqn:Hrun; [discriminate|].
  destruct (Z.ltb_spec (Z.of_nat (length source)) (2 ^ 32)) as [Hlt|Hge].
  - apply (split_loop_stuck source _ Hlt (S (length source)) 0 _); [lia|lia|exact Hrun].
  - apply split_loop_endless; [exact Hge|lia].
Qed.

(** [compileShader] has no result for a source of 2^32 characters or
    more. *)
Lemma split_lines_endless (source : list ascii) :
  2 ^ 32 <= Z.of_nat (length source) -> split_lines source = None.
Proof.
  intros Hlen. unfold split_lines. cbv zeta.
  rewrite split_loop_endless; [done|exact Hlen|lia].
Qed.

Lemma offsets_lookup (ls : list (list ascii)) : forall (from k : nat) (l : list ascii),
  ls !! k = Some l ->
  offsets from ls !! k = Some (from + length (concat (take k ls)))%nat.
Proof.
  induction ls as [|l0 ls IH]; intros from k l Hk; [done|].
  destruct k as [|k]; simpl.
  - f_equal. lia.
  - simpl in Hk. rewrite (IH _ _ _ Hk). rewrite length_app. f_equal. lia.
Qed.

(** A text is its complete lines followed by a tail without newline. *)
Lemma complete_lines_from_concat (s : list ascii) : forall cur : list ascii,
  exists tail : list ascii,
    Forall (fun c => is_newline c = false) tail /\
    ((complete_lines_from cur s = [] /\ s = tail)
     \/ cur ++ s = concat (complete_lines_from cur s) ++ tail).
Proof.
  induction s as [|c s IH]; intros cur; simpl.
  - exists []. split; [constructor|]. by left.
  - destruct (is_newline c) eqn:Hc.
    + destruct (IH []) as (tail & Ht & [(Hnil & Hs)|Hs]);
        exists tail; (split; [done|]); right; simpl.
      * rewrite Hnil. simpl. rewrite app_nil_r, <- app_assoc. simpl. congruence.
      * simpl in Hs. rewrite <- !app_assoc. simpl. congruence.
    + destruct (IH (cur ++ [c])) as (tail & Ht & [(Hnil & Hs)|Hs]).
      * exists (c :: tail). split; [by constructor|]. left. split; congruence.
      * exists tail. split; [done|]. right. rewrite <- Hs, <- app_assoc. reflexivity.
Qed.

Lemma complete_lines_concat (s : list ascii) :
  exists tail : list ascii,
    s = concat (complete_lines s) ++ tail /\ Forall (fun c => is_newline c = false) tail.
Proof.
  destruct (complete_lines_from_concat s []) as (tail & Ht & [(Hnil & Hs)|Hs]).
  - exists tail. unfold complete_lines. by rewrite Hnil.
  - by exists tail.
Qed.

(** Each complete line is a newline-free body and one newline. *)
Lemma complete_lines_from_shape (s : list ascii) : forall cur : list ascii,
  Forall (fun c => is_newline c = false) cur ->
  Forall (fun l => exists body, l = body ++ [newline]
                                /\ Forall (fun c => is_newline c = false) body)
         (complete_lines_from cur s).
Proof.
  induction s as [|c s IH]; intros cur Hcur; simpl; [constructor|].
  destruct (is_newline c) eqn:Hc.
  - constructor; [|apply IH; constructor].
    exists cur. split; [|done].
    unfold is_newline in Hc. apply Ascii.eqb_eq in Hc. by subst.
  - apply IH. apply Forall_app. split; [done|]. by constructor.
Qed.

End Splitting.

Section Submission.

(** Read back as the driver reads them, the entries are the complete
    lines of the source. *)
Lemma entry_texts_complete (source : list ascii) (sl : shader_lines) :
  Z.of_nat (length source) < 2 ^ 31 - 1 ->
  split_lines source = Some sl ->
  entry_texts source sl = Some (complete_lines source).
Proof.
  intros Hlen Hsl. rewrite split_lines_spec in Hsl by exact Hlen.
  injection Hsl as <-. unfold entry_texts. simpl. rewrite Nat2Z.id.
  apply mapM_Some. apply Forall2_same_length_lookup_2; [by rewrite length_seq|].
  intros i k l Hk Hl.
  apply lookup_seq in Hk as [-> _]. simpl.
  rewrite !list_lookup_fmap, (offsets_lookup _ 0%nat i l Hl), Hl. simpl.
  destruct (complete_lines_concat source) as (tail & Hsrc & _).
  pose proof (take_drop_middle _ _ _ Hl) as Hmid.
  assert (Hbuf : source = concat (take i (complete_lines source))
                          ++ l ++ (concat (drop (S i) (complete_lines source)) ++ tail)).
  { rewrite Hsrc at 1. rewrite <- Hmid at 1.
    rewrite concat_app. simpl. by rewrite <- !app_assoc. }
  unfold entry_text.
  set (pre := concat (take i (complete_lines source))) in *.
  set (post := concat (drop (S i) (complete_lines source)) ++ tail) in *.
  clearbody pre post.
  assert (Hle : (length pre + length l <= length source)%nat).
  { apply (f_equal length) in Hbuf. rewrite !length_app in Hbuf. lia. }
  assert (E1 : (Z.of_nat (length pre) <? 0) || (Z.of_nat (length source) <? Z.of_nat (length pre))
               = false).
  { apply orb_false_intro; apply Z.ltb_ge; lia. }
  assert (E2 : (Z.of_nat (length l) <? 0) = false) by (apply Z.ltb_ge; lia).
  assert (E3 : (Z.of_nat (length pre) + Z.of_nat (length l) <=? Z.of_nat (length source)) = true)
    by (apply Z.leb_le; lia).
  rewrite E1, E2, E3, !Nat2Z.id.
  f_equal. rewrite Hbuf.
  by rewrite drop_app_length, take_app_length.
Qed.

Local Open Scope nat_scope.

Lemma after_last_newline_bounds (s : list ascii) : forall i acc : nat,
  acc <= i -> acc <= after_last_newline s i acc <= i + length s.
Proof.
  induction s as [|c s IH]; intros i acc Hacc; simpl; [lia|].
  destruct (is_newline c).
  - specialize (IH (S i) (S i)). lia.
  - specialize (IH (S i) acc). lia.
Qed.

Lemma concat_lines_from (s : list ascii) : forall (cur : list ascii) (i acc : nat),
  acc + length cur = i ->
  concat (complete_lines_from cur s) = take (after_last_newline s i acc - acc) (cur ++ s).
Proof.
  induction s as [|c s IH]; intros cur i acc Hi; simpl.
  - by rewrite Nat.sub_diag.
  - destruct (is_newline c) eqn:Hc.
    + simpl. rewrite (IH [] (S i) (S i)) by (simpl; lia). simpl.
      pose proof (after_last_newline_bounds s (S i) (S i)).
      replace (after_last_newline s (S i) (S i) - acc)
        with (length (cur ++ [c]) + (after_last_newline s (S i) (S i) - S i))
        by (rewrite length_app; simpl; lia).
      replace (cur ++ c :: s) with ((cur ++ [c]) ++ s) by (by rewrite <- app_assoc).
      by rewrite take_app_add.
    + rewrite (IH (cur ++ [c]) (S i) acc) by (rewrite length_app; simpl; lia).
      by rewrite <- app_assoc.
Qed.

(** The complete lines put together are the text up to and including its
    last newline. *)
Lemma concat_complete_lines (s : list ascii) :
  concat (complete_lines s) = upto_last_newline s.
Proof.
  unfold complete_lines, upto_last_newline.
  rewrite (concat_lines_from s [] 0 0) by reflexivity.
  by rewrite Nat.sub_0_r.
Qed.

Lemma submitted_text_split (s : list ascii) (sl : shader_lines) :
  (Z.of_nat (length s) < 2 ^ 31 - 1)%Z ->
  split_lines s = Some sl ->
  submitted_text s sl = Some (upto_last_newline s).
Proof.
  intros Hlen Hsl. unfold submitted_text.
  rewrite (entry_texts_complete s sl Hlen Hsl). simpl.
  by rewrite concat_complete_lines.
Qed.

(** What the prefix is, said without offsets: the text is the prefix and
    a tail free of newlines, and the prefix is empty or ends in a newline. *)
Lemma upto_last_newline_spec (s : list ascii) :
  (exists tail : list ascii,
      s = upto_last_newline s ++ tail /\ Forall (fun c => is_newline c = false) tail)
  /\ (upto_last_newline s = [] \/ last (upto_last_newline s) = Some newline).
Proof.
  rewrite <- concat_complete_lines. split; [apply complete_lines_concat|].
  pose proof (complete_lines_from_shape s [] (List.Forall_nil _)) as Hshape.
  fold (complete_lines s) in Hshape.
  destruct (complete_lines s) as [|l ls] using rev_ind; [by left|right].
  rewrite Forall_app, Forall_singleton in Hshape. destruct Hshape as [_ (body & -> & _)].
  rewrite concat_app. simpl. rewrite app_nil_r, app_assoc. apply last_snoc.
Qed.

Lemma last_no_newline (tail : list ascii) (c : ascii) :
  Forall (fun c => is_newline c = false) tail -> last tail = Some c -> c <> newline.
Proof.
  intros Ht Hlast Hc. subst c.
  apply last_Some in Hlast as (l' & ->).
  rewrite Forall_app, Forall_singleton in Ht. destruct Ht as [_ Ht].
  vm_compute in Ht. discriminate.
Qed.

(** The text comes back whole exactly when it is empty or ends in a
    newline. *)
Lemma upto_last_newline_all (s : list ascii) :
  upto_last_newline s = s <-> (s = [] \/ last s = Some newline).
Proof.
  destruct (upto_last_newline_spec s) as ((tail & Hs & Ht) & Hend). split.
  - intros Heq. rewrite Heq in Hend. exact Hend.
  - intros Hterm.
    destruct tail as [|c tail] using rev_ind.
    { by rewrite app_nil_r in Hs. }
    exfalso. destruct Hterm as [->|Hlast].
    + apply (f_equal length) in Hs. rewrite !length_app in Hs. simpl in Hs. lia.
    + rewrite Hs, app_assoc, last_snoc in Hlast.
      apply (last_no_newline (tail ++ [c]) c Ht); [apply last_snoc|congruence].
Qed.

End Submission.

(** ** Runs of the program *)

Section Runs.

Local Arguments gl_step : simpl never.

Lemma trace_records (l : list action) (e : env) (w : world) :
  w_trace (records l e w) = w_trace w ++ l.
Proof.
  revert w. induction l as [|a l IH]; intros w; simpl; [by rewrite app_nil_r|].
  rewrite IH. simpl. by rewrite <- app_assoc.
Qed.

Lemma gl_records (l : list action) (e : env) (w : world) :
  w_gl (records l e w) = fold_left (gl_step (env_driver e)) l (w_gl w).
Proof. revert w. induction l as [|a l IH]; intros w; simpl; [done|]. by rewrite IH. Qed.

Lemma close_records (l : list action) (e : env) (w : world) :
  w_should_close (records l e w) = w_should_close w.
Proof. revert w. induction l as [|a l IH]; intros w; simpl; [done|]. by rewrite IH. Qed.

Lemma escape_records (l : list action) (e : env) (w : world) :
  w_escape (records l e w) = w_escape w.
Proof. revert w. induction l as [|a l IH]; intros w; simpl; [done|]. by rewrite IH. Qed.

Lemma polls_records (l : list action) (e : env) (w : world) :
  w_polls (records l e w) = w_polls w.
Proof. revert w. induction l as [|a l IH]; intros w; simpl; [done|]. by rewrite IH. Qed.

Lemma records_app (l1 l2 : list action) (e : env) (w : world) :
  records (l1 ++ l2) e w = records l2 e (records l1 e w).
Proof. unfold records. apply fold_left_app. Qed.

(** *** Computations that only make calls *)

Lemma emits_ret {A} (a : A) (P : action -> Prop) : emits (ret a) P.
Proof. intros e w. exists []. by split. Qed.

Lemma emits_bind {A B} (m : M A) (k : A -> M B) (P : action -> Prop) :
  emits m P -> (forall a, emits (k a) P) -> emits (bind m k) P.
Proof.
  intros Hm Hk e w. unfold bind.
  destruct (Hm e w) as (t1 & H1 & HP1).
  destruct (Hk (fst (m e w)) e (snd (m e w))) as (t2 & H2 & HP2).
  exists (t1 ++ t2). split; [|by apply Forall_app].
  by rewrite H2, H1, records_app.
Qed.

Lemma emits_call (a : action) (P : action -> Prop) : P a -> emits (call a) P.
Proof. intros Ha e w. exists [a]. split; [done|]. by constructor. Qed.

Lemma emits_query {A} (a : action) (answer : env -> world -> A) (P : action -> Prop) :
  P a -> emits (query a answer) P.
Proof. intros Ha e w. exists [a]. split; [done|]. by constructor. Qed.

Lemma emits_if {A} (c : bool) (m1 m2 : M A) (P : action -> Prop) :
  emits m1 P -> emits m2 P -> emits (if c then m1 else m2) P.
Proof. by destruct c. Qed.

Lemma emits_match {A B} (o : option A) (m : A -> M B) (n : M B) (P : action -> Prop) :
  (forall a, emits (m a) P) -> emits n P ->
  emits (match o with Some a => m a | None => n end) P.
Proof. by destruct o. Qed.

Lemma emits_assert (expr : string) (cond : M bool) (P : action -> Prop) :
  emits cond P -> P (AssertFailed expr) -> emits (assert_ expr cond) P.
Proof.
  intros Hc Ha e w. unfold assert_. destruct (env_ndebug e).
  - exists []. by split.
  - destruct (Hc e w) as (t & Ht & HP). destruct (fst (cond e w)); simpl.
    + by exists t.
    + exists (t ++ [AssertFailed expr]). split.
      * by rewrite Ht, records_app.
      * apply Forall_app. split; [done|]. by constructor.
Qed.

Lemma emits_weaken {A} (m : M A) (P Q : action -> Prop) :
  (forall a, P a -> Q a) -> emits m P -> emits m Q.
Proof.
  intros HPQ Hm e w. destruct (Hm e w) as (t & Ht & HP).
  exists t. split; [done|]. eapply Forall_impl; eauto.
Qed.

Ltac emits_tac :=
  repeat first
    [ apply emits_ret
    | apply emits_bind; [|intros ?]
    | apply emits_if
    | apply emits_match; [intros ?|]
    | apply emits_call; reflexivity
    | apply emits_query; reflexivity
    | apply emits_assert; [|reflexivity] ].

Lemma emits_compileLines (shader : GLuint) (buf : list ascii) (lines : shader_lines) :
  emits (compileLines shader buf lines) (fun a => is_build_call a = true).
Proof. unfold compileLines. emits_tac. Qed.

Lemma emits_compileShader (shader : GLuint) (source : string) :
  emits (compileShader shader source) (fun a => is_build_call a = true).
Proof.
  unfold compileShader.
  repeat first [ apply emits_compileLines | progress emits_tac ].
Qed.

Lemma emits_createProgram (vertSource fragSource : string) :
  emits (createProgram vertSource fragSource) (fun a => is_build_call a = true).
Proof.
  unfold createProgram.
  repeat first [ apply emits_compileShader | progress emits_tac ].
Qed.

Lemma emits_setup : emits setup (fun a => is_setup_call a = true).
Proof. unfold setup. emits_tac. Qed.

Lemma emits_error :
  emits error (fun a => a = GlGetError \/ exists text, a = Cerr text).
Proof.
  unfold error, getErrorMessage.
  repeat first
    [ apply emits_ret
    | apply emits_bind; [|intros ?]
    | apply emits_if
    | apply emits_call; right; eexists; reflexivity
    | apply emits_query; left; reflexivity ].
Qed.

End Runs.

(** ** The frame loop *)

Section Loop.

Local Arguments gl_step : simpl never.

Lemma deliver_fold (evs : list event) (w : world) :
  fold_left deliver evs w =
  {| w_trace := w_trace w; w_gl := w_gl w;
     w_should_close := close_after evs (w_should_close w);
     w_escape := escape_after evs (w_escape w);
     w_polls := w_polls w |}.
Proof.
  revert w. induction evs as [|ev evs IH]; intros w; simpl; [by destruct w|].
  rewrite IH. by destruct ev.
Qed.

Lemma passA_run (fb quad1Program : GLuint) (e : env) (w : world) :
  passA fb quad1Program e w = (tt, records (passA_actions fb quad1Program) e w).
Proof. reflexivity. Qed.

Lemma passB_run (texProgram tex1 : GLuint) (e : env) (w : world) :
  passB texProgram tex1 e w = (tt, records (passB_actions texProgram tex1) e w).
Proof. reflexivity. Qed.

Lemma keyPoll_run (window : Z) (e : env) (w : world) :
  snd (keyPoll window e w) =
  if w_escape w =? GLFW_PRESS
  then set_should_close GLFW_TRUE (records (keyPoll_actions true window) e w)
  else records (keyPoll_actions false window) e w.
Proof.
  unfold keyPoll, bind, glfwGetKey, query. cbn [fst snd]. rewrite Z.eqb_refl.
  by destruct (w_escape w =? GLFW_PRESS).
Qed.

Lemma glfwPollEvents_run (e : env) (w : world) :
  glfwPollEvents e w =
  (tt, {| w_trace := w_trace w ++ [GlfwPollEvents];
          w_gl := fold_left (gl_step (env_driver e)) [GlfwPollEvents] (w_gl w);
          w_should_close := close_after (env_events e (w_polls w)) (w_should_close w);
          w_escape := escape_after (env_events e (w_polls w)) (w_escape w);
          w_polls := S (w_polls w) |}).
Proof. unfold glfwPollEvents. by rewrite deliver_fold. Qed.

Lemma records_set_should_close (l : list action) (e : env) (v : Z) (w : world) :
  records l e (set_should_close v w) = set_should_close v (records l e w).
Proof. revert w. induction l as [|a l IH]; intros w; simpl; [done|]. by rewrite <- IH. Qed.

Lemma trace_set_should_close (v : Z) (w : world) :
  w_trace (set_should_close v w) = w_trace w.
Proof. reflexivity. Qed.
Lemma gl_set_should_close (v : Z) (w : world) : w_gl (set_should_close v w) = w_gl w.
Proof. reflexivity. Qed.
Lemma close_set_should_close (v : Z) (w : world) :
  w_should_close (set_should_close v w) = v.
Proof. reflexivity. Qed.
Lemma escape_set_should_close (v : Z) (w : world) :
  w_escape (set_should_close v w) = w_escape w.
Proof. reflexivity. Qed.
Lemma polls_set_should_close (v : Z) (w : world) :
  w_polls (set_should_close v w) = w_polls w.
Proof. reflexivity. Qed.

Lemma frame_unfold (window fb quad1Program texProgram tex1 : Z) (e : env) (w : world) :
  frame window fb quad1Program texProgram tex1 e w =
  glfwPollEvents e (records [GlfwSwapBuffers window] e
    (records (passB_actions texProgram tex1) e
       (records (passA_actions fb quad1Program) e (snd (keyPoll window e w))))).
Proof. reflexivity. Qed.

(** One iteration of the body, in closed form. *)
Lemma frame_run (window fb quad1Program texProgram tex1 : Z) (e : env) (w : world) :
  let pressed := w_escape w =? GLFW_PRESS in
  let acts := frame_actions pressed window fb quad1Program texProgram tex1 in
  let evs := env_events e (w_polls w) in
  frame window fb quad1Program texProgram tex1 e w =
  (tt, {| w_trace := w_trace w ++ acts;
          w_gl := fold_left (gl_step (env_driver e)) acts (w_gl w);
          w_should_close :=
            close_after evs (if pressed then GLFW_TRUE else w_should_close w);
          w_escape := escape_after evs (w_escape w);
          w_polls := S (w_polls w) |}).
Proof.
  intros pressed acts evs. subst pressed acts evs.
  rewrite frame_unfold, keyPoll_run, glfwPollEvents_run.
  unfold frame_actions.
  destruct (w_escape w =? GLFW_PRESS).
  - rewrite !records_set_should_close.
    rewrite <- !records_app.
    rewrite trace_set_should_close, gl_set_should_close, close_set_should_close,
      escape_set_should_close, polls_set_should_close.
    rewrite trace_records, gl_records, escape_records, polls_records.
    rewrite <- fold_left_app.
    rewrite <- !app_assoc.
    reflexivity.
  - rewrite <- !records_app.
    rewrite trace_records, gl_records, close_records, escape_records, polls_records.
    rewrite <- fold_left_app.
    rewrite <- !app_assoc.
    reflexivity.
Qed.

Lemma frameLoop_step (fuel : nat) (window fb quad1Program texProgram tex1 : Z)
    (e : env) (w : world) :
  frameLoop (S fuel) window fb quad1Program texProgram tex1 e w =
  if w_should_close w =? 0 then
    frameLoop fuel window fb quad1Program texProgram tex1 e
      (snd (frame window fb quad1Program texProgram tex1 e
              (record (GlfwWindowShouldClose window) e w)))
  else (true, record (GlfwWindowShouldClose window) e w).
Proof.
  cbn [frameLoop]. unfold bind at 1. unfold glfwWindowShouldClose, query.
  cbn [fst snd].
  destruct (w_should_close w =? 0); reflexivity.
Qed.

(** No batch of events lowers the close flag. *)
Lemma close_after_nonzero (evs : list event) (flag : Z) :
  flag <> 0 -> close_after evs flag <> 0.
Proof.
  revert flag. induction evs as [|ev evs IH]; intros flag Hf; simpl; [done|].
  apply IH. by destruct ev.
Qed.

Lemma close_after_quiet (evs : list event) (flag : Z) :
  quiet evs = true -> close_after evs flag = flag.
Proof.
  revert flag. induction evs as [|ev evs IH]; intros flag Hq; simpl; [done|].
  simpl in Hq. apply andb_prop in Hq as [Hev Hq]. rewrite IH by done. by destruct ev.
Qed.

Lemma escape_after_quiet (evs : list event) :
  quiet evs = true -> escape_after evs GLFW_RELEASE = GLFW_RELEASE.
Proof.
  induction evs as [|ev evs IH]; intros Hq; simpl; [done|].
  simpl in Hq. apply andb_prop in Hq as [Hev Hq].
  destruct ev as [[|]|]; try discriminate. by apply IH.
Qed.

End Loop.

Section LoopFacts.

Variables (window fb quad1Program texProgram tex1 : Z) (e : env).

Let body := frame window fb quad1Program texProgram tex1.
Let loop (fuel : nat) := frameLoop fuel window fb quad1Program texProgram tex1.
Let turn (pressed : bool) : list action :=
  iteration pressed window fb quad1Program texProgram tex1.

Lemma trace_record (a : action) (w : world) : w_trace (record a e w) = w_trace w ++ [a].
Proof. reflexivity. Qed.
Lemma gl_record (a : action) (w : world) :
  w_gl (record a e w) = gl_step (env_driver e) (w_gl w) a.
Proof. reflexivity. Qed.
Lemma close_record (a : action) (w : world) :
  w_should_close (record a e w) = w_should_close w.
Proof. reflexivity. Qed.
Lemma escape_record (a : action) (w : world) : w_escape (record a e w) = w_escape w.
Proof. reflexivity. Qed.
Lemma polls_record (a : action) (w : world) : w_polls (record a e w) = w_polls w.
Proof. reflexivity. Qed.

Lemma frame_trace (w : world) :
  w_trace (snd (body e w)) =
  w_trace w ++ frame_actions (w_escape w =? GLFW_PRESS) window fb quad1Program texProgram tex1.
Proof. unfold body. by rewrite frame_run. Qed.

Lemma frame_gl (w : world) :
  w_gl (snd (body e w)) =
  fold_left (gl_step (env_driver e))
    (frame_actions (w_escape w =? GLFW_PRESS) window fb quad1Program texProgram tex1)
    (w_gl w).
Proof. unfold body. by rewrite frame_run. Qed.

Lemma frame_close (w : world) :
  w_should_close (snd (body e w)) =
  close_after (env_events e (w_polls w))
    (if w_escape w =? GLFW_PRESS then GLFW_TRUE else w_should_close w).
Proof. unfold body. by rewrite frame_run. Qed.

Lemma frame_escape (w : world) :
  w_escape (snd (body e w)) = escape_after (env_events e (w_polls w)) (w_escape w).
Proof. unfold body. by rewrite frame_run. Qed.

Lemma frame_polls (w : world) : w_polls (snd (body e w)) = S (w_polls w).
Proof. unfold body. by rewrite frame_run. Qed.

Lemma frameLoop_closed (fuel : nat) (w : world) :
  w_should_close w <> 0 ->
  loop (S fuel) e w = (true, record (GlfwWindowShouldClose window) e w).
Proof.
  intros Hc. unfold loop. rewrite frameLoop_step.
  apply Z.eqb_neq in Hc. by rewrite Hc.
Qed.

Lemma frameLoop_open (fuel : nat) (w : world) :
  w_should_close w = 0 ->
  loop (S fuel) e w = loop fuel e (snd (body e (record (GlfwWindowShouldClose window) e w))).
Proof. intros Hc. unfold loop. rewrite frameLoop_step. by rewrite Hc. Qed.

(** The calls of a run of the loop: whole iterations, each the loop test
    followed by the calls of the body, and the final test when the loop
    is left.  A loop entered with the flag down and left has run the body
    at least once. *)
Lemma frameLoop_trace (fuel : nat) : forall w : world,
  exists keys : list bool,
    (length keys <= fuel)%nat /\
    w_trace (snd (loop fuel e w)) =
    w_trace w ++ concat (map turn keys)
    ++ (if fst (loop fuel e w) then [GlfwWindowShouldClose window] else [])
    /\ (w_should_close w = 0 -> fst (loop fuel e w) = true -> keys <> [])
    /\ (w_should_close w = 0 -> fuel <> 0%nat -> keys <> []).
Proof.
  induction fuel as [|fuel IH]; intros w.
  - exists []. split; [done|]. split; [|done]. simpl. by rewrite app_nil_r.
  - destruct (Z.eq_dec (w_should_close w) 0) as [Hc|Hc].
    + rewrite (frameLoop_open fuel w Hc).
      destruct (IH (snd (body e (record (GlfwWindowShouldClose window) e w))))
        as (keys & Hlen & Htr & _).
      exists ((w_escape w =? GLFW_PRESS) :: keys). split; [simpl; lia|].
      split; [|done].
      rewrite Htr, frame_trace, trace_record, escape_record.
      cbn [map concat]. unfold turn at 2. unfold iteration.
      rewrite <- !app_assoc. reflexivity.
    + rewrite (frameLoop_closed fuel w Hc). exists []. split; [simpl; lia|].
      split; [reflexivity|done].
Qed.

End LoopFacts.

(** ** [createProgram] *)

Section Building.

Lemma bind_run {A B} (m : M A) (k : A -> M B) (e : env) (w : world) :
  bind m k e w = k (fst (m e w)) e (snd (m e w)).
Proof. reflexivity. Qed.

Lemma stderr_app (t1 t2 : list action) : stderr (t1 ++ t2) = stderr t1 ++ stderr t2.
Proof. unfold stderr. apply omap_app. Qed.

(** Once the lines are split, [compileShader] makes build calls and
    writes nothing to the standard error stream. *)
Lemma compileLines_run (shader : GLuint) (buf : list ascii) (lines : shader_lines)
    (e : env) (w : world) :
  exists t : list action,
    snd (compileLines shader buf lines e w) = records t e w
    /\ Forall (fun a => is_build_call a = true) t
    /\ stderr t = [].
Proof.
  unfold compileLines. rewrite !bind_run.
  unfold glShaderSource, glCompileShader, glGetShaderiv, glGetShaderInfoLog, cout, call,
    query, ret. cbn [fst snd].
  match goal with |- context [if ?c then _ else _] => destruct c end.
  - rewrite !bind_run. cbn [fst snd].
    eexists [_; _; _; _; _; _; _]. split; [reflexivity|]. split; [|reflexivity].
    repeat constructor.
  - eexists [_; _; _; _]. split; [reflexivity|]. split; [|reflexivity].
    repeat constructor.
Qed.

(** [compileShader] is [compileLines] on the lines of the source, and
    makes no call when there are none to be had. *)
Lemma compileShader_split (shader : GLuint) (source : string) (e : env) (w : world) :
  compileShader shader source e w
  = match split_lines (chars source) with
    | Some lines =>
        (Some (fst (compileLines shader (chars source) lines e w)),
         snd (compileLines shader (chars source) lines e w))
    | None => (None, w)
    end.
Proof. unfold compileShader. by destruct (split_lines (chars source)). Qed.

Lemma compileShader_none (shader : GLuint) (source : string) (e : env) (w : world) :
  fst (compileShader shader source e w) = None <-> split_lines (chars source) = None.
Proof. rewrite compileShader_split. by destruct (split_lines (chars source)). Qed.

(** [compileShader] makes build calls and writes nothing to the standard
    error stream. *)
Lemma compileShader_run (shader : GLuint) (source : string) (e : env) (w : world) :
  exists t : list action,
    snd (compileShader shader source e w) = records t e w
    /\ Forall (fun a => is_build_call a = true) t
    /\ stderr t = [].
Proof.
  rewrite compileShader_split. destruct (split_lines (chars source)) as [lines|].
  - apply compileLines_run.
  - exists []. by split.
Qed.


Lemma records_cons (a : action) (l : list action) (e : env) (w : world) :
  records (a :: l) e w = records l e (record a e w).
Proof. reflexivity. Qed.

Lemma records_snoc (a : action) (l : list action) (e : env) (w : world) :
  record a e (records l e w) = records (l ++ [a]) e w.
Proof. by rewrite records_app. Qed.

Lemma records_nil (e : env) (w : world) : w = records [] e w.
Proof. reflexivity. Qed.

Lemma build_snoc (a : action) (t : list action) :
  Forall (fun a => is_build_call a = true) t -> is_build_call a = true ->
  Forall (fun a => is_build_call a = true) (t ++ [a]).
Proof. intros Ht Ha. apply Forall_app. split; [done|]. by constructor. Qed.

(** Every run of [createProgram]: build calls only, and either one of the
    six failures, with its message and its value, or no message and the
    name that [glCreateProgram] answered, which is not 0, or no message
    and no result, a call of [compileShader] not having returned. *)
Lemma createProgram_cases (vertSource fragSource : string) (e : env) (w : world) :
  let r := createProgram vertSource fragSource e w in
  exists t : list action,
    snd r = records t e w
    /\ Forall (fun a => is_build_call a = true) t
    /\ ((exists f : build_failure,
           fst r = Some (failure_result f) /\ stderr t = [failure_message f]
           /\ (zero_handle f = true ->
               exists t1 : list action,
                 t = t1 ++ [creation_call f; Cerr (failure_message f)]
                 /\ drv_name (env_driver e) (gl_allocs (w_gl (records t1 e w))) = 0))
        \/ (stderr t = [] /\
            exists p : GLuint,
              fst r = Some p /\ p <> 0 /\
              exists t1 t2 : list action,
                t = t1 ++ GlCreateProgram :: t2 /\
                p = drv_name (env_driver e) (gl_allocs (w_gl (records t1 e w))))
        \/ (stderr t = [] /\ fst r = None
            /\ (split_lines (chars vertSource) = None
                \/ split_lines (chars fragSource) = None))).
Proof.
  intros r. remember (createProgram vertSource fragSource e w) as r0 eqn:Hr. subst r.
  unfold createProgram, glCreateShader, glCreateProgram, glAttachShader, glLinkProgram,
    glGetProgramiv, glDeleteShader, cerr, call, query, ret in Hr.
  rewrite bind_run in Hr. cbn [fst snd] in Hr.
  set (vs := drv_name (env_driver e) (gl_allocs (w_gl w))) in Hr.
  change (record (GlCreateShader GL_VERTEX_SHADER) e w)
    with (records [GlCreateShader GL_VERTEX_SHADER] e w) in Hr.
  set (t0 := [GlCreateShader GL_VERTEX_SHADER]) in Hr.
  assert (B0 : Forall (fun a => is_build_call a = true) t0) by (repeat constructor).
  assert (S0 : stderr t0 = []) by reflexivity.
  destruct (vs =? 0) eqn:Hvs.
  { rewrite bind_run in Hr. cbn [fst snd] in Hr.
    rewrite records_snoc in Hr. subst r0. cbn [fst snd].
    eexists. split; [reflexivity|]. split; [by apply build_snoc|].
    left. exists ZeroVertexShader. split; [reflexivity|].
    split; [by rewrite stderr_app, S0|].
    intros _. exists []. split; [reflexivity|]. by apply Z.eqb_eq. }
  clearbody t0.
  rewrite bind_run in Hr. cbn [fst snd] in Hr.
  set (fs := drv_name (env_driver e) (gl_allocs (w_gl (records t0 e w)))) in Hr.
  rewrite records_snoc in Hr.
  assert (B1 := build_snoc (GlCreateShader GL_FRAGMENT_SHADER) t0 B0 eq_refl).
  assert (S1 : stderr (t0 ++ [GlCreateShader GL_FRAGMENT_SHADER]) = [])
    by (by rewrite stderr_app, S0).
  destruct (fs =? 0) eqn:Hfs.
  { rewrite bind_run in Hr. cbn [fst snd] in Hr.
    rewrite records_snoc in Hr. subst r0. cbn [fst snd].
    eexists. split; [reflexivity|]. split; [by apply build_snoc|].
    left. exists ZeroFragmentShader. split; [reflexivity|].
    split; [by rewrite stderr_app, S1|].
    intros _. exists t0. split; [by rewrite <- app_assoc|]. by apply Z.eqb_eq. }
  set (t1 := t0 ++ [GlCreateShader GL_FRAGMENT_SHADER]) in *. clearbody t1. clear B0 S0.
  rewrite bind_run in Hr.
  destruct (compileShader_run vs vertSource e (records t1 e w)) as (tv & Hv & Bv & Sv).
  rewrite Hv, <- records_app in Hr.
  assert (B2 : Forall (fun a => is_build_call a = true) (t1 ++ tv)) by (by apply Forall_app).
  assert (S2 : stderr (t1 ++ tv) = []) by (by rewrite stderr_app, S1, Sv).
  set (t2 := t1 ++ tv) in *. clearbody t2. clear B1 S1 Bv Sv Hv.
  destruct (fst (compileShader vs vertSource e (records t1 e w))) as [[|]|] eqn:Ev.
  3:{ subst r0. cbn [ret fst snd].
      eexists. split; [reflexivity|]. split; [exact B2|].
      right. right. split; [exact S2|]. split; [reflexivity|].
      left. by apply (compileShader_none vs vertSource e (records t1 e w)). }
  2:{ cbn [negb] in Hr. rewrite bind_run in Hr. cbn [fst snd] in Hr. rewrite records_snoc in Hr. subst r0. cbn [fst snd].
      eexists. split; [reflexivity|]. split; [by apply build_snoc|].
      left. exists VertexCompileFailure. split; [reflexivity|].
      split; [by rewrite stderr_app, S2|done]. }
  cbn [negb] in Hr. rewrite bind_run in Hr.
  destruct (compileShader_run fs fragSource e (records t2 e w)) as (tf & Hf & Bf & Sf).
  rewrite Hf, <- records_app in Hr.
  assert (B3 : Forall (fun a => is_build_call a = true) (t2 ++ tf)) by (by apply Forall_app).
  assert (S3 : stderr (t2 ++ tf) = []) by (by rewrite stderr_app, S2, Sf).
  set (t3 := t2 ++ tf) in *. clearbody t3. clear B2 S2 Bf Sf Hf.
  destruct (fst (compileShader fs fragSource e (records t2 e w))) as [[|]|] eqn:Ef.
  3:{ subst r0. cbn [ret fst snd].
      eexists. split; [reflexivity|]. split; [exact B3|].
      right. right. split; [exact S3|]. split; [reflexivity|].
      right. by apply (compileShader_none fs fragSource e (records t2 e w)). }
  2:{ cbn [negb] in Hr. rewrite bind_run in Hr. cbn [fst snd] in Hr. rewrite records_snoc in Hr. subst r0. cbn [fst snd].
      eexists. split; [reflexivity|]. split; [by apply build_snoc|].
      left. exists FragmentCompileFailure. split; [reflexivity|].
      split; [by rewrite stderr_app, S3|done]. }
  cbn [negb] in Hr. rewrite bind_run in Hr. cbn [fst snd] in Hr.
  set (program := drv_name (env_driver e) (gl_allocs (w_gl (records t3 e w)))) in Hr.
  rewrite records_snoc in Hr.
  destruct (program =? 0) eqn:Hp.
  { rewrite bind_run in Hr. cbn [fst snd] in Hr.
    rewrite records_snoc in Hr. subst r0. cbn [fst snd].
    eexists. split; [reflexivity|].
    split; [apply build_snoc; [by apply build_snoc|reflexivity]|].
    left. exists ZeroProgram. split; [reflexivity|].
    split; [by rewrite !stderr_app, S3|].
    intros _. exists t3. split; [by rewrite <- app_assoc|]. by apply Z.eqb_eq. }
  rewrite bind_run in Hr. cbn [fst snd] in Hr. rewrite records_snoc in Hr.
  rewrite bind_run in Hr. cbn [fst snd] in Hr. rewrite records_snoc in Hr.
  rewrite bind_run in Hr. cbn [fst snd] in Hr. rewrite records_snoc in Hr.
  rewrite bind_run in Hr. cbn [fst snd] in Hr. rewrite records_snoc in Hr.
  rewrite <- !app_assoc in Hr. cbn [app] in Hr.
  set (tail4 := [GlCreateProgram; GlAttachShader program vs; GlAttachShader program fs;
                 GlLinkProgram program; GlGetProgramiv program GL_INFO_LOG_LENGTH]) in Hr.
  assert (B4 : Forall (fun a => is_build_call a = true) (t3 ++ tail4))
    by (apply Forall_app; split; [done|repeat constructor]).
  assert (S4 : stderr (t3 ++ tail4) = []) by (by rewrite stderr_app, S3).
  rewrite bind_run in Hr.
  match type of Hr with
  | context [snd ((if 0 <? ?n then ?m1 else ?m2) e ?W)] =>
      assert (exists tl : list action,
                 snd ((if 0 <? n then m1 else m2) e W) = records tl e W
                 /\ Forall (fun a => is_build_call a = true) tl
                 /\ stderr tl = []) as (tl & Hl & Bl & Sl)
  end.
  { match goal with |- context [if ?c then _ else _] => destruct c end.
    - rewrite !bind_run. cbn [fst snd].
      eexists [_; _; _]. split; [reflexivity|]. split; [|reflexivity].
      repeat constructor.
    - exists []. split; [reflexivity|]. split; [constructor|reflexivity]. }
  rewrite Hl, <- records_app in Hr.
  assert (B5 : Forall (fun a => is_build_call a = true) ((t3 ++ tail4) ++ tl))
    by (by apply Forall_app).
  assert (S5 : stderr ((t3 ++ tail4) ++ tl) = []) by (by rewrite stderr_app, S4, Sl).
  rewrite bind_run in Hr. cbn [fst snd] in Hr. rewrite records_snoc in Hr.
  match type of Hr with context [if ?c then _ else _] => destruct c end.
  { rewrite bind_run in Hr. cbn [fst snd] in Hr.
    rewrite records_snoc in Hr. subst r0. cbn [fst snd].
    eexists. split; [reflexivity|].
    split; [apply build_snoc; [by apply build_snoc|reflexivity]|].
    left. exists LinkFailure. split; [reflexivity|].
    split; [by rewrite 2!stderr_app, S5|done]. }
  rewrite !bind_run in Hr. cbn [fst snd] in Hr.
  rewrite !records_snoc in Hr. subst r0. cbn [fst snd].
  eexists. split; [reflexivity|].
  split; [repeat apply build_snoc; done|].
  right. left. split; [by rewrite 3!stderr_app, S5|].
  exists program. split; [reflexivity|].
  split; [by apply Z.eqb_neq|].
  exists t3. eexists. split; [|reflexivity].
  unfold tail4. rewrite <- !app_assoc. reflexivity.
Qed.

(** [createProgram] returns when both sources can be split. *)
Lemma createProgram_returns (vertSource fragSource : string) (e : env) (w : world) :
  split_lines (chars vertSource) <> None -> split_lines (chars fragSource) <> None ->
  is_Some (fst (createProgram vertSource fragSource e w)).
Proof.
  intros Hv Hf.
  destruct (createProgram_cases vertSource fragSource e w)
    as (t & _ & _ & [(f & Hr & _)|[(_ & p & Hr & _)|(_ & _ & [Hn|Hn])]]).
  - rewrite Hr. by eexists.
  - rewrite Hr. by eexists.
  - by destruct Hv.
  - by destruct Hf.
Qed.

(** The four embedded texts are split. *)
Lemma embedded_split :
  Forall (fun s => split_lines (chars s) <> None)
         [quadVertSource; quad1FragSource; texVertSource; texFragSource].
Proof. repeat constructor; vm_compute; discriminate. Qed.

(** In [main] both calls of [createProgram] return. *)
Lemma embedded_programs_returned (e : env) (w : world) :
  is_Some (fst (createProgram quadVertSource quad1FragSource e w))
  /\ is_Some (fst (createProgram texVertSource texFragSource e w)).
Proof.
  pose proof embedded_split as H.
  apply Forall_cons in H as [H1 H]. apply Forall_cons in H as [H2 H].
  apply Forall_cons in H as [H3 H]. apply Forall_cons in H as [H4 _].
  split; by apply createProgram_returns.
Qed.

End Building.

(** ** [main] *)

Section Main.

(** [main] up to the point where it holds the two program values. *)
Lemma main_run (fuel : nat) (e : env) (w : world) :
  main fuel e w =
  if env_glfwInit e =? 0 then
    (Exit 3, records [GlfwInit; Cerr ("Error: glfw init failed." ++ endl)] e w)
  else if env_window e =? 0 then
    (Exit 1, records [GlfwInit;
                      GlfwWindowHint GLFW_CONTEXT_VERSION_MAJOR 3;
                      GlfwWindowHint GLFW_CONTEXT_VERSION_MINOR 3;
                      GlfwWindowHint GLFW_OPENGL_PROFILE GLFW_OPENGL_CORE_PROFILE;
                      GlfwCreateWindow width height "Shader test";
                      Cerr ("Error: window is null." ++ endl);
                      GlfwTerminate] e w)
  else if negb (env_glewInit e =? GLEW_OK) then
    (Exit 2, records (boot_actions (env_window e)
                      ++ [Cerr ("Error: glew not OK." ++ endl); GlfwTerminate]) e w)
  else
    let rA := createProgram quadVertSource quad1FragSource e
                (records (boot_actions (env_window e)) e w) in
    let rB := createProgram texVertSource texFragSource e (snd rA) in
    render fuel (env_window e) (default 0 (fst rA)) (default 0 (fst rB)) e (snd rB).
Proof.
  unfold main.
  rewrite bind_run. unfold glfwInit at 1 2. unfold query at 1 2. cbn [fst snd].
  destruct (env_glfwInit e =? 0); [reflexivity|].
  rewrite !bind_run. unfold glfwWindowHint, glfwCreateWindow, call, query. cbn [fst snd].
  destruct (env_window e =? 0); [reflexivity|].
  rewrite !bind_run. unfold glfwMakeContextCurrent, glewInit, call, query. cbn [fst snd].
  destruct (negb (env_glewInit e =? GLEW_OK)); [reflexivity|].
  rewrite bind_run. cbv zeta.
  change (record GlewInit e _) with (records (boot_actions (env_window e)) e w).
  destruct (embedded_programs_returned e (records (boot_actions (env_window e)) e w))
    as [[qp HA] _].
  rewrite HA, bind_run.
  destruct (embedded_programs_returned e
              (snd (createProgram quadVertSource quad1FragSource e
                      (records (boot_actions (env_window e)) e w))))
    as [_ [tp HB]].
  rewrite HB. reflexivity.
Qed.

(** [render], step by step. *)
Lemma render_run (fuel : nat) (window quad1Program texProgram : Z) (e : env) (w : world) :
  render fuel window quad1Program texProgram e w =
  let rs := setup e w in
  match fst rs with
  | None => (Aborted, snd rs)
  | Some (fb, tex1) =>
      let ra := assert_ "!error()" (failed <- error ;; ret (negb failed)) e (snd rs) in
      if fst ra then
        let l := frameLoop fuel window fb quad1Program texProgram tex1 e (snd ra) in
        if fst l then shutdown window quad1Program e (snd l) else (Running, snd l)
      else (Aborted, snd ra)
  end.
Proof.
  unfold render. rewrite bind_run. cbv zeta.
  destruct (fst (setup e w)) as [[fb tex1]|]; [|reflexivity].
  rewrite bind_run.
  destruct (fst (assert_ _ _ e (snd (setup e w)))); [|reflexivity].
  cbn [negb]. rewrite bind_run.
  destruct (fst (frameLoop _ _ _ _ _ _ e _)); reflexivity.
Qed.

Lemma shutdown_run (window quad1Program : Z) (e : env) (w : world) :
  shutdown window quad1Program e w =
  (Exit 0, records (shutdown_actions window quad1Program) e w).
Proof. reflexivity. Qed.

End Main.

Section ErrorQuery.

Lemma describe_nonempty (code : GLenum) : (String.length (describe code) =? 0)%nat = false.
Proof. reflexivity. Qed.

(** One call of the helper: one [glGetError], and a line on the standard
    error stream for the code it returned, if any. *)
Lemma error_run (e : env) (w : world) :
  error e w =
  if GL_NO_ERROR =? pending_error (w_gl w)
  then (false, records [GlGetError] e w)
  else (true, records [GlGetError; Cerr (describe (pending_error (w_gl w)))] e w).
Proof.
  unfold error, getErrorMessage. rewrite !bind_run.
  unfold glGetError, query. cbn [fst snd].
  destruct (GL_NO_ERROR =? pending_error (w_gl w)); [reflexivity|].
  unfold ret at 1 2 3. cbn [fst snd]. rewrite describe_nonempty.
  reflexivity.
Qed.

(** [glGetError] takes one code off the queue. *)
Lemma gl_errors_glGetError (d : driver) (st : gl_state) :
  gl_errors (gl_step d st GlGetError) = tail (gl_errors st).
Proof. reflexivity. Qed.

Lemma gl_errors_Cerr (d : driver) (st : gl_state) (text : string) :
  gl_errors (gl_step d st (Cerr text)) = gl_errors st.
Proof. reflexivity. Qed.

Lemma occurrences_app (p : action -> bool) (t1 t2 : list action) :
  occurrences p (t1 ++ t2) = (occurrences p t1 + occurrences p t2)%nat.
Proof. unfold occurrences. by rewrite filter_app, length_app. Qed.

Lemma occurrences_none (p : action -> bool) (t : list action) :
  Forall (fun a => p a = false) t -> occurrences p t = 0%nat.
Proof.
  unfold occurrences. induction 1 as [|a t Ha _ IH]; [done|].
  rewrite filter_cons_False; [done|]. by rewrite Ha.
Qed.

(** The assertion of line 277. *)
Lemma assert_error_run (e : env) (w : world) :
  let ra := assert_ "!error()" (failed <- error ;; ret (negb failed)) e w in
  exists t : list action,
    snd ra = records t e w
    /\ Forall (fun a => is_startup_call a = true) t
    /\ Forall (fun a => is_glDeleteProgram a = false) t
    /\ occurrences is_glGetError t = (if env_ndebug e then 0 else 1)%nat.
Proof.
  unfold assert_. destruct (env_ndebug e).
  - exists []. cbn [snd]. repeat split; constructor.
  - rewrite bind_run, error_run.
    destruct (GL_NO_ERROR =? pending_error (w_gl w)); cbn [fst snd negb ret].
    + exists [GlGetError]. repeat split; repeat constructor.
    + eexists [GlGetError; Cerr _; AssertFailed _].
      repeat split; repeat constructor.
Qed.

End ErrorQuery.

Section Shape.

Lemma build_is_startup (a : action) : is_build_call a = true -> is_startup_call a = true.
Proof. unfold is_startup_call. intros ->. by rewrite orb_true_r. Qed.

Lemma setup_is_startup (a : action) : is_setup_call a = true -> is_startup_call a = true.
Proof. unfold is_startup_call. intros ->. by rewrite orb_true_r. Qed.

Lemma startup_not_delete (a : action) :
  is_startup_call a = true -> is_glDeleteProgram a = false.
Proof. by destruct a. Qed.

Lemma build_not_error (a : action) : is_build_call a = true -> is_glGetError a = false.
Proof. by destruct a. Qed.

Lemma setup_not_error (a : action) : is_setup_call a = true -> is_glGetError a = false.
Proof. by destruct a. Qed.

Lemma startup_not_loop_test (a : action) (window : Z) :
  is_startup_call a = true -> a <> GlfwWindowShouldClose window.
Proof. by destruct a. Qed.

(** Every run of [main]: the calls [t0] before the loop, then either one
    of the early ends, or whole turns of the loop, followed, when the loop
    is left, by its last test and the shutdown sequence. *)
Lemma main_shape (fuel : nat) (e : env) (w : world) :
  w_should_close w = 0 ->
  let r := main fuel e w in
  let window := env_window e in
  let qp := quad1Program_of e w in
  let tp := texProgram_of e w in
  exists t0 : list action,
    Forall (fun a => is_startup_call a = true) t0
    /\ (occurrences is_glGetError t0 <= 1)%nat
    /\ (env_ndebug e = true -> occurrences is_glGetError t0 = 0%nat)
    /\ ((In (fst r) [Exit 3; Exit 1; Exit 2; Aborted] /\ snd r = records t0 e w)
        \/ (occurrences is_glGetError t0 = (if env_ndebug e then 0 else 1)%nat /\
            exists (fb tex1 : Z) (keys : list bool),
              (length keys <= fuel)%nat /\
              let turns := concat (map (fun p => iteration p window fb qp tp tex1) keys) in
              (fuel <> 0%nat -> keys <> []) /\
              ((fst r = Running /\ w_trace (snd r) = w_trace w ++ t0 ++ turns)
               \/ (fst r = Exit 0 /\ keys <> [] /\
                   w_trace (snd r) =
                   w_trace w ++ t0 ++ turns
                   ++ GlfwWindowShouldClose window :: shutdown_actions window qp)))).
Proof.
  intros Hflag r window qp tp. subst r window qp tp.
  unfold quad1Program_of, texProgram_of. rewrite main_run.
  destruct (env_glfwInit e =? 0).
  { match goal with |- context [records ?l e w] => exists l end.
    split; [repeat constructor|]. split; [cbv; lia|]. split; [reflexivity|].
    left. split; [cbn; tauto|reflexivity]. }
  destruct (env_window e =? 0).
  { match goal with |- context [records ?l e w] => exists l end.
    split; [repeat constructor|]. split; [cbv; lia|]. split; [reflexivity|].
    left. split; [cbn; tauto|reflexivity]. }
  destruct (negb (env_glewInit e =? GLEW_OK)).
  { match goal with |- context [records ?l e w] => exists l end.
    split; [repeat constructor|]. split; [cbv; lia|]. split; [reflexivity|].
    left. split; [cbn; tauto|reflexivity]. }
  cbv zeta.
  set (w1 := records (boot_actions (env_window e)) e w).
  destruct (createProgram_cases quadVertSource quad1FragSource e w1) as (tA & HA & BA & _).
  set (qp := default 0 (fst (createProgram quadVertSource quad1FragSource e w1))).
  rewrite HA.
  destruct (createProgram_cases texVertSource texFragSource e (records tA e w1))
    as (tB & HB & BB & _).
  set (tp := default 0 (fst (createProgram texVertSource texFragSource e
                                (records tA e w1)))).
  rewrite HB. rewrite render_run. cbv zeta.
  destruct (emits_setup e (records tB e (records tA e w1))) as (tS & HS & BS).
  rewrite HS.
  unfold w1. rewrite <- !records_app, <- ?app_assoc.
  set (t3 := boot_actions (env_window e) ++ tA ++ tB ++ tS).
  assert (B3 : Forall (fun a => is_startup_call a = true) t3).
  { unfold t3. rewrite !Forall_app. repeat split.
    - repeat constructor.
    - eapply Forall_impl; [exact BA|]. apply build_is_startup.
    - eapply Forall_impl; [exact BB|]. apply build_is_startup.
    - eapply Forall_impl; [exact BS|]. apply setup_is_startup. }
  assert (E3 : occurrences is_glGetError t3 = 0%nat).
  { apply occurrences_none. unfold t3. rewrite !Forall_app. repeat split.
    - repeat constructor.
    - eapply Forall_impl; [exact BA|]. apply build_not_error.
    - eapply Forall_impl; [exact BB|]. apply build_not_error.
    - eapply Forall_impl; [exact BS|]. apply setup_not_error. }
  clearbody t3.
  destruct (fst (setup e _)) as [[fb tex1]|].
  2:{ exists t3. split; [done|]. split; [lia|]. split; [done|].
      left. split; [cbn; tauto|reflexivity]. }
  destruct (assert_error_run e (records t3 e w)) as (tE & HE & BE & _ & EE).
  rewrite HE, <- records_app.
  assert (B4 : Forall (fun a => is_startup_call a = true) (t3 ++ tE))
    by (by apply Forall_app).
  assert (E4 : occurrences is_glGetError (t3 ++ tE) = (if env_ndebug e then 0 else 1)%nat)
    by (by rewrite occurrences_app, E3, EE).
  set (t4 := t3 ++ tE) in *. clearbody t4.
  destruct (fst (assert_ _ _ e (records t3 e w))).
  2:{ exists t4. split; [done|]. split; [rewrite E4; destruct (env_ndebug e); lia|].
      split; [by intros Hn; rewrite E4, Hn|].
      left. split; [cbn; tauto|reflexivity]. }
  exists t4. split; [done|]. split; [rewrite E4; destruct (env_ndebug e); lia|].
  split; [by intros Hn; rewrite E4, Hn|].
  right. split; [done|].
  destruct (frameLoop_trace (env_window e) fb qp tp tex1 e fuel (records t4 e w))
    as (keys & Hlen & Htr & Hne & Hfuel).
  exists fb, tex1, keys. split; [done|]. cbv zeta.
  rewrite close_records in Hne, Hfuel. specialize (Hne Hflag). specialize (Hfuel Hflag).
  split; [exact Hfuel|].
  rewrite trace_records in Htr.
  destruct (fst (frameLoop fuel (env_window e) fb qp tp tex1 e (records t4 e w))).
  - right. split; [reflexivity|]. split; [by apply Hne|].
    rewrite shutdown_run. cbn [snd]. rewrite trace_records, Htr.
    rewrite <- !app_assoc. reflexivity.
  - left. split; [reflexivity|]. cbn [snd]. rewrite Htr.
    rewrite <- !app_assoc, app_nil_r. reflexivity.
Qed.

End Shape.

(** ** Rasterisation of the two quads *)

Section Raster.

Lemma inside_spec (a b c p : vec2) :
  inside a b c p = true <->
  ~ Qeq (edge a b c) 0 /\
  ((Qle 0 (edge a b p) /\ Qle 0 (edge b c p) /\ Qle 0 (edge c a p)) \/
   (Qle (edge a b p) 0 /\ Qle (edge b c p) 0 /\ Qle (edge c a p) 0)).
Proof.
  unfold inside.
  destruct (Qeq_bool (edge a b c) 0) eqn:Ha.
  - apply Qeq_bool_iff in Ha. split; [discriminate|]. intros [Hn _]. by destruct Hn.
  - rewrite orb_true_iff, !andb_true_iff, !Qle_bool_iff.
    split.
    + intros H. split; [|tauto]. intros Heq. apply Qeq_bool_iff in Heq. congruence.
    + tauto.
Qed.

(** The centre of pixel column [x] lies on one side of the line [a]. *)
Lemma column_cases (x a : Z) :
  (x < a /\ Qle (inject_Z x + (1 # 2)) (inject_Z a - (1 # 2)))
  \/ (a <= x /\ Qle (inject_Z a + (1 # 2)) (inject_Z x + (1 # 2))).
Proof.
  destruct (Z_lt_le_dec x a) as [H|H]; [left|right]; (split; [done|]).
  - unfold Qle, Qminus, Qplus, Qopp, inject_Z. cbn [Qnum Qden Pos.mul]. lia.
  - unfold Qle, Qminus, Qplus, Qopp, inject_Z. cbn [Qnum Qden Pos.mul]. lia.
Qed.

Lemma Qfloor_centre (x : Z) : Qfloor (inject_Z x + (1 # 2)) = x.
Proof.
  unfold Qfloor, Qplus, inject_Z. cbn [Qnum Qden Pos.mul].
  symmetry. apply Z.div_unique with (r := 1); lia.
Qed.

Ltac window_coordinates :=
  unfold to_window, edge, pixel_centre;
  cbn [v2_x v2_y v4_x v4_y v4_w vp_x vp_y vp_width vp_height window_viewport];
  unfold Qdiv, width, height; cbn [Qinv Qnum Qden].

Ltac name_centre x y :=
  change (inject_Z 200) with 200%Q in *; change (inject_Z 600) with 600%Q in *;
  change (inject_Z 150) with 150%Q in *; change (inject_Z 450) with 450%Q in *;
  change (inject_Z 800) with 800%Q in *; change (inject_Z 0) with 0%Q in *;
  set (X := inject_Z x) in *; set (Y := inject_Z y) in *; clearbody X Y.

(** The quad of pass A, half the size of the buffer, covers the pixels
    200 <= x < 600, 150 <= y < 450. *)
Lemma covers_quadA (x y : Z) :
  existsb (fun t => covers window_viewport t x y) (triangles (map quadVert_main quad_vertices))
  = in_window x y && in_quad x y.
Proof.
  let t := eval vm_compute in (triangles (map quadVert_main quad_vertices)) in
  change (triangles (map quadVert_main quad_vertices)) with t.
  cbn [existsb]. rewrite orb_false_r.
  unfold covers. cbn [tri_a tri_b tri_c gl_Position].
  rewrite <- andb_orb_distrib_r. f_equal.
  apply eq_true_iff_eq. rewrite orb_true_iff, !inside_spec.
  unfold in_quad, in_rect. rewrite !andb_true_iff, !Z.leb_le, !Z.ltb_lt.
  window_coordinates.
  destruct (column_cases x 200) as [[? Hx1]|[? Hx1]];
  destruct (column_cases x 600) as [[? Hx2]|[? Hx2]];
  destruct (column_cases y 150) as [[? Hy1]|[? Hy1]];
  destruct (column_cases y 450) as [[? Hy2]|[? Hy2]];
  name_centre x y.
  all: split; [intros Hq; try lia; exfalso; lra | intros Hz; try lia; lra].
Qed.

(** The quad of pass B covers the window. *)
Lemma covers_quadB (x y : Z) :
  existsb (fun t => covers window_viewport t x y) (triangles (map texVert_main quad_vertices))
  = in_window x y.
Proof.
  let t := eval vm_compute in (triangles (map texVert_main quad_vertices)) in
  change (triangles (map texVert_main quad_vertices)) with t.
  cbn [existsb]. rewrite orb_false_r.
  unfold covers. cbn [tri_a tri_b tri_c gl_Position].
  rewrite <- andb_orb_distrib_r.
  change (in_rect (vp_x window_viewport) (vp_y window_viewport) (vp_width window_viewport)
            (vp_height window_viewport) x y) with (in_window x y).
  destruct (in_window x y) eqn:Hin; [|reflexivity].
  cbn [andb]. rewrite orb_true_iff, !inside_spec.
  unfold in_window, in_rect, width, height in Hin.
  rewrite !andb_true_iff, !Z.leb_le, !Z.ltb_lt in Hin.
  window_coordinates.
  destruct (column_cases x 0) as [[? Hx1]|[? Hx1]]; [lia|].
  destruct (column_cases x 800) as [[? Hx2]|[? Hx2]]; [|lia].
  destruct (column_cases y 0) as [[? Hy1]|[? Hy1]]; [lia|].
  destruct (column_cases y 600) as [[? Hy2]|[? Hy2]]; [|lia].
  name_centre x y.
  lra.
Qed.

(** In both triangles of pass B the interpolated [texCoord] of a pixel is
    the centre of the pixel, scaled to the unit square. *)
Lemma texCoord_quadB (t : triangle) (x y : Z) :
  In t (triangles (map texVert_main quad_vertices)) ->
  exists tc, tri_texCoord window_viewport t (pixel_centre x y) = Some tc
             /\ Qeq (v2_x tc * 800) (inject_Z x + (1 # 2))
             /\ Qeq (v2_y tc * 600) (inject_Z y + (1 # 2)).
Proof.
  let t := eval vm_compute in (triangles (map texVert_main quad_vertices)) in
  change (triangles (map texVert_main quad_vertices)) with t.
  intros [<-|[<-|[]]]; unfold tri_texCoord; cbn [tri_a tri_b tri_c vs_texCoord gl_Position];
    eexists; (split; [reflexivity|]).
  all: unfold interpolate; cbn [v2_x v2_y];
    repeat match goal with
      | |- context [Qdiv ?n (edge ?a ?b ?c)] =>
          let v := eval vm_compute in (Qinv (edge a b c)) in
          change (Qdiv n (edge a b c)) with (Qmult n v)
      end;
    window_coordinates; name_centre x y; split; lra.
Qed.

(** A pixel of a buffer after a list of triangles was drawn into it, when
    every triangle that covers the pixel writes the same value there. *)
Lemma raster_all_pixel (vp : viewport) (fs : fshader) (tx : vec2 -> option vec4)
    (location w h : Z) (ts : list triangle) (img : image) (x y : Z) (c : option texel) :
  (forall t, In t ts ->
     store_color <$> output_at location
       (fs_main fs tx (tri_texCoord vp t (pixel_centre x y))) = c) ->
  raster_all vp fs tx location w h ts img x y =
  if in_rect 0 0 w h x y && existsb (fun t => covers vp t x y) ts then c else img x y.
Proof.
  unfold raster_all. revert img.
  induction ts as [|t ts IH]; intros img Hc; cbn [fold_left existsb].
  - by rewrite andb_false_r.
  - rewrite IH by (intros t' Ht'; apply Hc; by right).
    unfold raster at 1.
    destruct (in_rect 0 0 w h x y); cbn [andb]; [|reflexivity].
    destruct (covers vp t x y); cbn [orb].
    + rewrite (Hc t) by (by left). by destruct (existsb _ ts).
    + reflexivity.
Qed.

(** Pass A writes blue where its quad is and nothing elsewhere. *)
Lemma raster_quadA (tx : vec2 -> option vec4) (img : image) (x y : Z) :
  raster_all window_viewport quad1Frag_main tx 1 width height
    (triangles (map quadVert_main quad_vertices)) img x y =
  if in_quad x y then Some blue else img x y.
Proof.
  rewrite (raster_all_pixel _ _ _ _ _ _ _ _ _ _ (Some blue)) by (intros t _; reflexivity).
  rewrite covers_quadA. fold (in_window x y).
  destruct (in_quad x y) eqn:Hq; [|by rewrite !andb_false_r].
  assert (Hw : in_window x y = true).
  { unfold in_quad, in_window, in_rect, width, height in *.
    rewrite !andb_true_iff, !Z.leb_le, !Z.ltb_lt in *. lia. }
  by rewrite Hw.
Qed.

(** A texture of the size of the window with nearest filtering, read at
    the [texCoord] of a pixel of the window, gives its own texel there. *)
Lemma sample_pixel (t : texture) (tc : vec2) (x y : Z) :
  tex_width t = width -> tex_height t = height ->
  tex_min_filter t = GL_NEAREST -> tex_mag_filter t = GL_NEAREST ->
  Qeq (v2_x tc * 800) (inject_Z x + (1 # 2)) ->
  Qeq (v2_y tc * 600) (inject_Z y + (1 # 2)) ->
  in_window x y = true ->
  sample (Some t) tc = load_color <$> tex_image t x y.
Proof.
  intros Hw Hh Hmin Hmag Hx Hy Hin. unfold sample.
  rewrite Hw, Hh, Hmin, Hmag. cbn [Z.eqb Z.ltb Z.compare andb width height GL_NEAREST Pos.eqb].
  change (inject_Z width) with 800%Q. change (inject_Z height) with 600%Q.
  rewrite (Qfloor_comp _ _ Hx), (Qfloor_comp _ _ Hy), !Qfloor_centre.
  unfold in_window, in_rect, width, height in Hin.
  rewrite !andb_true_iff, !Z.leb_le, !Z.ltb_lt in Hin.
  unfold width, height. rewrite !Z.mod_small by lia. reflexivity.
Qed.

(** Pass B copies the texture to the window, texel by texel. *)
Lemma raster_quadB (t : texture) (img : image) (x y : Z) :
  tex_width t = width -> tex_height t = height ->
  tex_min_filter t = GL_NEAREST -> tex_mag_filter t = GL_NEAREST ->
  in_window x y = true ->
  raster_all window_viewport texFrag_main (sample (Some t)) 0 width height
    (triangles (map texVert_main quad_vertices)) img x y =
  resampled <$> tex_image t x y.
Proof.
  intros Hw Hh Hmin Hmag Hin.
  rewrite (raster_all_pixel _ _ _ _ _ _ _ _ _ _ (resampled <$> tex_image t x y)).
  - rewrite covers_quadB. fold (in_window x y). by rewrite Hin.
  - intros tr Htr. destruct (texCoord_quadB tr x y Htr) as (tc & -> & Hx & Hy).
    cbn [texFrag_main fs_main output_at find fst Z.eqb].
    rewrite (sample_pixel t tc x y) by done.
    by destruct (tex_image t x y).
Qed.

End Raster.

(** ** The effect of one frame on the context *)

Section FrameState.

Variable d : driver.

Local Arguments gl_step : simpl never.

Ltac fields :=
  unfold set_allocs, set_errors, set_shaders, set_programs, set_program, set_vertex,
    set_tex, set_fb, set_surface, set_sampled, paint;
  cbn [gl_allocs gl_errors gl_shaders gl_programs gl_program gl_vertex gl_tex gl_fb
       gl_surface gl_sampled set_allocs set_errors set_shaders set_programs set_program
       set_vertex set_tex set_fb set_surface set_sampled
       tx_textures tx_active tx_units fb_objects fb_draw fb_clear_color fb_viewport
       sf_width sf_height sf_back sf_front fbo_color fbo_draw_buffers] in *.

Lemma vertex_meaning_quad : vertex_meaning (chars quadVertSource) = Some quadVert_main.
Proof. unfold vertex_meaning. by rewrite decide_True. Qed.

Lemma vertex_meaning_tex : vertex_meaning (chars texVertSource) = Some texVert_main.
Proof.
  unfold vertex_meaning. rewrite decide_False; [by rewrite decide_True|].
  intros H. apply (f_equal length) in H. vm_compute in H. discriminate.
Qed.

Lemma fragment_meaning_quad1 : fragment_meaning (chars quad1FragSource) = Some quad1Frag_main.
Proof. unfold fragment_meaning. by rewrite decide_True. Qed.

Lemma fragment_meaning_tex : fragment_meaning (chars texFragSource) = Some texFrag_main.
Proof.
  unfold fragment_meaning. rewrite decide_False; [by rewrite decide_True|].
  intros H. apply (f_equal length) in H. vm_compute in H. discriminate.
Qed.

Lemma executable_linked (st : gl_state) (vt ft : list ascii) (v : vshader) (f : fshader) :
  linked_texts st (gl_program st) = Some (Some vt, Some ft) ->
  vertex_meaning vt = Some v -> fragment_meaning ft = Some f ->
  executable st = Some (v, f).
Proof.
  unfold linked_texts, executable. intros Hl Hv Hf.
  destruct (gl_programs st !! gl_program st) as [p|]; [|discriminate].
  cbn [mbind option_bind] in Hl. by rewrite Hl, Hv, Hf.
Qed.

Lemma draw_targets_window (st : gl_state) :
  fb_draw (gl_fb st) = 0 -> draw_targets st = [(0, ToWindow)].
Proof. unfold draw_targets. by intros ->. Qed.

Lemma draw_targets_object (st : gl_state) (o : framebuffer) :
  fb_draw (gl_fb st) <> 0 ->
  fb_objects (gl_fb st) !! fb_draw (gl_fb st) = Some o ->
  draw_targets st =
  omap id (imap (fun k b =>
                   if b =? GL_NONE then None
                   else (fun t => (Z.of_nat k, ToTexture t))
                          <$> fbo_color o !! (b - GL_COLOR_ATTACHMENT0))
                (fbo_draw_buffers o)).
Proof.
  unfold draw_targets. intros H0 ->. apply Z.eqb_neq in H0. by rewrite H0.
Qed.

(** The calls of a frame, one by one. *)
Lemma bind_framebuffer_existing (st : gl_state) (f : GLuint) (o : framebuffer) :
  fb_objects (gl_fb st) !! f = Some o ->
  gl_step d st (GlBindFramebuffer GL_DRAW_FRAMEBUFFER f) =
  set_fb (fun fs => {| fb_objects := fb_objects fs; fb_draw := f;
                       fb_clear_color := fb_clear_color fs;
                       fb_viewport := fb_viewport fs |}) st.
Proof.
  intros H.
  change (gl_step d st (GlBindFramebuffer GL_DRAW_FRAMEBUFFER f))
    with (set_fb (bind_draw_framebuffer f) st).
  unfold set_fb, bind_draw_framebuffer. rewrite H. by destruct (f =? 0).
Qed.

Lemma bind_framebuffer_default (st : gl_state) :
  gl_step d st (GlBindFramebuffer GL_DRAW_FRAMEBUFFER 0) =
  set_fb (fun fs => {| fb_objects := fb_objects fs; fb_draw := 0;
                       fb_clear_color := fb_clear_color fs;
                       fb_viewport := fb_viewport fs |}) st.
Proof. reflexivity. Qed.

Lemma clear_texture (st : gl_state) (k : Z) (t : GLuint) :
  draw_targets st = [(k, ToTexture t)] ->
  gl_step d st (GlClear GL_COLOR_BUFFER_BIT) =
  set_tex (fun ts =>
             {| tx_textures :=
                  alter (with_image (fun w h _ =>
                           fill w h (store_color (fb_clear_color (gl_fb st)))))
                        t (tx_textures ts);
                tx_active := tx_active ts; tx_units := tx_units ts |}) st.
Proof.
  intros H.
  change (gl_step d st (GlClear GL_COLOR_BUFFER_BIT)) with (clear_color_buffers st).
  unfold clear_color_buffers. rewrite H. reflexivity.
Qed.

Lemma use_linked_program (st : gl_state) (p : GLuint)
    (x : option (list ascii) * option (list ascii)) :
  p <> 0 -> linked_texts st p = Some x ->
  gl_step d st (GlUseProgram p) = set_program p st.
Proof.
  intros Hp Hl. change (gl_step d st (GlUseProgram p)) with (use_program p st).
  unfold use_program, linked_texts in *. apply Z.eqb_neq in Hp. rewrite Hp.
  destruct (gl_programs st !! p) as [ob|]; [|discriminate].
  cbn [mbind option_bind] in Hl. by rewrite Hl.
Qed.

Lemma draw_buffers_step (st : gl_state) (n : Z) (bufs : list GLenum) :
  gl_step d st (GlDrawBuffers n bufs) =
  set_fb (fun fs => {| fb_objects := alter (set_draw_buffers n bufs) (fb_draw fs)
                                       (fb_objects fs);
                       fb_draw := fb_draw fs;
                       fb_clear_color := fb_clear_color fs;
                       fb_viewport := fb_viewport fs |}) st.
Proof. reflexivity. Qed.

Lemma draw_triangles (st : gl_state) (vs : vshader) (fs : fshader) (verts : list vec2)
    (k : Z) (tg : target) :
  executable st = Some (vs, fs) ->
  fetch_vertices (gl_vertex st) 0 6 = Some verts ->
  draw_targets st = [(k, tg)] ->
  gl_step d st (GlDrawArrays GL_TRIANGLES 0 6) =
  let texture :=
    match fs_sampler_unit fs with
    | Some u => sample (tx_textures (gl_tex st) !! unit_texture (gl_tex st) u)
    | None => fun _ => None
    end in
  let st' := paint tg (fun w h img =>
                         raster_all (fb_viewport (gl_fb st)) fs texture k w h
                           (triangles (map vs verts)) img) st in
  match fs_sampler_unit fs with
  | Some u => set_sampled (fun l => l ++ [unit_texture (gl_tex st) u]) st'
  | None => st'
  end.
Proof.
  intros He Hv Ht.
  change (gl_step d st (GlDrawArrays GL_TRIANGLES 0 6))
    with (draw_arrays GL_TRIANGLES 0 6 st).
  unfold draw_arrays. rewrite He, Hv, Ht. reflexivity.
Qed.

Lemma active_texture0 (st : gl_state) :
  gl_step d st (GlActiveTexture GL_TEXTURE0) =
  set_tex (fun ts => {| tx_textures := tx_textures ts; tx_active := 0;
                        tx_units := tx_units ts |}) st.
Proof. reflexivity. Qed.

Lemma bind_texture_existing (st : gl_state) (t : GLuint) (o : texture) :
  tx_textures (gl_tex st) !! t = Some o ->
  gl_step d st (GlBindTexture GL_TEXTURE_2D t) =
  set_tex (fun ts => {| tx_textures := tx_textures ts; tx_active := tx_active ts;
                        tx_units := <[tx_active ts := t]> (tx_units ts) |}) st.
Proof.
  intros H.
  change (gl_step d st (GlBindTexture GL_TEXTURE_2D t)) with (set_tex (bind_texture t) st).
  unfold set_tex, bind_texture. rewrite H. by destruct (t =? 0).
Qed.

Lemma bind_texture_none (st : gl_state) :
  gl_step d st (GlBindTexture GL_TEXTURE_2D 0) =
  set_tex (fun ts => {| tx_textures := tx_textures ts; tx_active := tx_active ts;
                        tx_units := <[tx_active ts := 0]> (tx_units ts) |}) st.
Proof. reflexivity. Qed.

Lemma swap_buffers (st : gl_state) (window : Z) :
  gl_step d st (GlfwSwapBuffers window) =
  set_surface (fun s => {| sf_width := sf_width s; sf_height := sf_height s;
                           sf_back := undefined_image; sf_front := sf_back s |}) st.
Proof. reflexivity. Qed.

Lemma other_call (st : gl_state) (a : action) :
  match a with
  | GlfwGetKey _ _ | GlfwPollEvents | GlfwWindowShouldClose _ => True
  | _ => False
  end -> gl_step d st a = st.
Proof. by destruct a. Qed.

Lemma store_black : store_color (Vec4 0.0 0.0 0.0 1.0) = black.
Proof. reflexivity. Qed.

Lemma targets_as_created (o : framebuffer) (t : GLuint) :
  fbo_draw_buffers o = [GL_COLOR_ATTACHMENT0] -> fbo_color o !! 0 = Some t ->
  omap id (imap (fun k b =>
                   if b =? GL_NONE then None
                   else (fun t => (Z.of_nat k, ToTexture t))
                          <$> fbo_color o !! (b - GL_COLOR_ATTACHMENT0))
                (fbo_draw_buffers o)) = [(0, ToTexture t)].
Proof.
  intros -> H. cbn [imap omap].
  change (GL_COLOR_ATTACHMENT0 =? GL_NONE) with false.
  change (GL_COLOR_ATTACHMENT0 - GL_COLOR_ATTACHMENT0) with 0.
  cbv iota. rewrite H. reflexivity.
Qed.

Lemma targets_as_set (o : framebuffer) (t : GLuint) :
  fbo_draw_buffers o = [GL_NONE; GL_COLOR_ATTACHMENT1] -> fbo_color o !! 1 = Some t ->
  omap id (imap (fun k b =>
                   if b =? GL_NONE then None
                   else (fun t => (Z.of_nat k, ToTexture t))
                          <$> fbo_color o !! (b - GL_COLOR_ATTACHMENT0))
                (fbo_draw_buffers o)) = [(1, ToTexture t)].
Proof.
  intros -> H. cbn [imap omap compose].
  change (GL_NONE =? GL_NONE) with true.
  change (GL_COLOR_ATTACHMENT1 =? GL_NONE) with false.
  change (GL_COLOR_ATTACHMENT1 - GL_COLOR_ATTACHMENT0) with 1.
  cbv iota. rewrite H. reflexivity.
Qed.

(** What [loop_ready] says about the objects themselves. *)
Lemma loop_ready_framebuffer (fb qp tp tex0 tex1 : GLuint) (st : gl_state) :
  loop_ready fb qp tp tex0 tex1 st ->
  exists o, fb_objects (gl_fb st) !! fb = Some o
            /\ fbo_color o !! 0 = Some tex0 /\ fbo_color o !! 1 = Some tex1
            /\ (fbo_draw_buffers o = [GL_COLOR_ATTACHMENT0]
                \/ fbo_draw_buffers o = [GL_NONE; GL_COLOR_ATTACHMENT1]).
Proof.
  intros [_ _ _ _ H0 H1 Hd _ _ _ _ _].
  unfold attachment, draw_buffers in *.
  destruct (fb_objects (gl_fb st) !! fb) as [o|]; [|discriminate].
  cbn [mbind option_bind fmap option_fmap option_map] in *.
  exists o. repeat split; [done..|].
  destruct Hd as [Hd|Hd]; [left|right]; congruence.
Qed.

Lemma loop_ready_texture (fb qp tp tex0 tex1 : GLuint) (st : gl_state) :
  loop_ready fb qp tp tex0 tex1 st ->
  exists t, tx_textures (gl_tex st) !! tex1 = Some t
            /\ tex_width t = width /\ tex_height t = height
            /\ tex_min_filter t = GL_NEAREST /\ tex_mag_filter t = GL_NEAREST.
Proof.
  intros [_ _ _ _ _ _ _ _ Hf _ _ _].
  unfold texture_format in *.
  destruct (tx_textures (gl_tex st) !! tex1) as [t|]; [|discriminate].
  cbn [fmap option_fmap option_map] in *.
  exists t. repeat split; congruence.
Qed.

(** The context after a frame in which escape is not pressed.  [cleared]
    is the texture that the [glClear] of pass A fills: the one the draw
    buffers select when the frame begins. *)
Lemma frame_state (window fb qp tp tex0 tex1 cleared : GLuint) (st : gl_state)
    (o : framebuffer) :
  loop_ready fb qp tp tex0 tex1 st ->
  fb_objects (gl_fb st) !! fb = Some o ->
  (fbo_draw_buffers o = [GL_COLOR_ATTACHMENT0] /\ cleared = tex0)
  \/ (fbo_draw_buffers o = [GL_NONE; GL_COLOR_ATTACHMENT1] /\ cleared = tex1) ->
  fold_left (gl_step d) (frame_actions false window fb qp tp tex1) st =
  let textures :=
    alter (with_image (fun w h img =>
             raster_all window_viewport quad1Frag_main (fun _ => None) 1 w h
               (triangles (map quadVert_main quad_vertices)) img)) tex1
      (alter (with_image (fun w h _ => fill w h black)) cleared
         (tx_textures (gl_tex st))) in
  {| gl_allocs := gl_allocs st; gl_errors := gl_errors st; gl_shaders := gl_shaders st;
     gl_programs := gl_programs st; gl_program := tp; gl_vertex := gl_vertex st;
     gl_tex := {| tx_textures := textures; tx_active := 0;
                  tx_units := <[0 := 0]> (<[0 := tex1]> (tx_units (gl_tex st))) |};
     gl_fb := {| fb_objects := alter (set_draw_buffers 2 att1) fb (fb_objects (gl_fb st));
                 fb_draw := 0;
                 fb_clear_color := fb_clear_color (gl_fb st);
                 fb_viewport := fb_viewport (gl_fb st) |};
     gl_surface :=
       {| sf_width := sf_width (gl_surface st); sf_height := sf_height (gl_surface st);
          sf_back := undefined_image;
          sf_front :=
            raster_all window_viewport texFrag_main (sample (textures !! tex1)) 0
              (sf_width (gl_surface st)) (sf_height (gl_surface st))
              (triangles (map texVert_main quad_vertices)) (sf_back (gl_surface st)) |};
     gl_sampled := gl_sampled st ++ [tex1] |}.
Proof.
  intros Hready Ho Hbufs.
  destruct (loop_ready_framebuffer _ _ _ _ _ _ Hready) as (o' & Ho' & Hc0 & Hc1 & _).
  assert (o' = o) as -> by congruence. clear Ho'.
  destruct (loop_ready_texture _ _ _ _ _ _ Hready) as (t1 & Ht1 & _).
  destruct Hready as [[HqpN Hqp] [HtpN Htp] Hverts Hfb _ _ _ [Htex1 Htex01] _ Hvp _ Hclear].
  unfold frame_actions, keyPoll_actions, passA_actions, passB_actions.
  cbn [app fold_left].
  rewrite (other_call st (GlfwGetKey window GLFW_KEY_ESCAPE)) by exact I.
  (* pass A *)
  assert (Htg : exists k,
            omap id (imap (fun k b =>
                             if b =? GL_NONE then None
                             else (fun t => (Z.of_nat k, ToTexture t))
                                    <$> fbo_color o !! (b - GL_COLOR_ATTACHMENT0))
                          (fbo_draw_buffers o)) = [(k, ToTexture cleared)]).
  { destruct Hbufs as [[Hb ->]|[Hb ->]];
      [exists 0; by apply targets_as_created | exists 1; by apply targets_as_set]. }
  destruct Htg as [k Htg]. clear Hbufs.
  unfold linked_texts in Hqp, Htp.
  rewrite (bind_framebuffer_existing st fb o Ho). fields.
  match goal with
  | |- context [gl_step d ?s (GlClear GL_COLOR_BUFFER_BIT)] =>
      rewrite (clear_texture s k cleared)
  end.
  2:{ rewrite (draw_targets_object _ o); fields; done. }
  fields. rewrite Hclear, store_black.
  match goal with
  | |- context [gl_step d ?s (GlUseProgram qp)] =>
      rewrite (use_linked_program s qp
                 (Some (chars quadVertSource), Some (chars quad1FragSource)) HqpN)
  end.
  2:{ unfold linked_texts. fields. exact Hqp. }
  fields.
  rewrite draw_buffers_step. fields.
  match goal with
  | |- context [gl_step d (Build_gl_state ?a1 ?a2 ?a3 ?a4 ?a5 ?a6 ?a7 ?a8 ?a9 ?a10)
                  (GlDrawArrays GL_TRIANGLES 0 6)] =>
      rewrite (draw_triangles (Build_gl_state a1 a2 a3 a4 a5 a6 a7 a8 a9 a10)
                 quadVert_main quad1Frag_main quad_vertices 1 (ToTexture tex1))
  end.
  2:{ eapply executable_linked;
        [unfold linked_texts; fields; exact Hqp
        | apply vertex_meaning_quad | apply fragment_meaning_quad1]. }
  2:{ fields. exact Hverts. }
  2:{ rewrite (draw_targets_object _ (set_draw_buffers 2 att1 o)); fields.
      - by apply targets_as_set.
      - done.
      - by rewrite lookup_alter_eq, Ho. }
  cbv zeta. cbn [fs_sampler_unit quad1Frag_main]. fields. rewrite Hvp.
  (* pass B *)
  rewrite bind_framebuffer_default. fields.
  match goal with
  | |- context [gl_step d ?s (GlUseProgram tp)] =>
      rewrite (use_linked_program s tp
                 (Some (chars texVertSource), Some (chars texFragSource)) HtpN)
  end.
  2:{ unfold linked_texts. fields. exact Htp. }
  fields.
  rewrite active_texture0. fields.
  set (textures :=
         alter (with_image (fun w h img =>
                  raster_all window_viewport quad1Frag_main (fun _ => None) 1 w h
                    (triangles (map quadVert_main quad_vertices)) img)) tex1
           (alter (with_image (fun w h _ => fill w h black)) cleared
              (tx_textures (gl_tex st)))).
  assert (Hex : exists t, textures !! tex1 = Some t).
  { subst textures. rewrite lookup_alter_eq.
    destruct (decide (cleared = tex1)) as [->|Hne];
      [rewrite lookup_alter_eq | rewrite lookup_alter_ne by done];
      rewrite Ht1; eexists; reflexivity. }
  destruct Hex as [t Ht].
  match goal with
  | |- context [gl_step d ?s (GlBindTexture GL_TEXTURE_2D tex1)] =>
      rewrite (bind_texture_existing s tex1 t)
  end.
  2:{ fields. exact Ht. }
  fields.
  match goal with
  | |- context [gl_step d (Build_gl_state ?a1 ?a2 ?a3 ?a4 ?a5 ?a6 ?a7 ?a8 ?a9 ?a10)
                  (GlDrawArrays GL_TRIANGLES 0 6)] =>
      rewrite (draw_triangles (Build_gl_state a1 a2 a3 a4 a5 a6 a7 a8 a9 a10)
                 texVert_main texFrag_main quad_vertices 0 ToWindow)
  end.
  2:{ eapply executable_linked;
        [unfold linked_texts; fields; exact Htp
        | apply vertex_meaning_tex | apply fragment_meaning_tex]. }
  2:{ fields. exact Hverts. }
  2:{ by apply draw_targets_window. }
  cbv zeta. cbn [fs_sampler_unit texFrag_main]. unfold unit_texture. fields.
  rewrite lookup_insert_eq. cbn [default].
  rewrite bind_texture_none. fields.
  rewrite swap_buffers. fields.
  rewrite other_call by exact I.
  reflexivity.
Qed.


End FrameState.

(** ** What a frame leaves behind *)

Section FrameFacts.

Variables (d : driver) (window fb qp tp tex0 tex1 : GLuint) (st : gl_state).
Hypothesis Hready : loop_ready fb qp tp tex0 tex1 st.

Let st' : gl_state := fold_left (gl_step d) (frame_actions false window fb qp tp tex1) st.

Let drawA (w h : Z) (img : image) : image :=
  raster_all window_viewport quad1Frag_main (fun _ => None) 1 w h
    (triangles (map quadVert_main quad_vertices)) img.

(** The second texture after the frame: pass A has drawn its quad over
    what the texture held, or over the clear colour if the clear went to
    that texture. *)
Lemma frame_texture :
  exists t1 under,
    tx_textures (gl_tex st) !! tex1 = Some t1
    /\ tx_textures (gl_tex st') !! tex1 =
       Some {| tex_width := width; tex_height := height;
               tex_image := drawA width height under;
               tex_min_filter := GL_NEAREST; tex_mag_filter := GL_NEAREST |}
    /\ (draw_buffers st fb = Some [GL_COLOR_ATTACHMENT0] -> under = tex_image t1)
    /\ (draw_buffers st fb = Some [GL_NONE; GL_COLOR_ATTACHMENT1] ->
        under = fill width height black).
Proof.
  destruct (loop_ready_framebuffer _ _ _ _ _ _ Hready) as (o & Ho & Hc0 & Hc1 & Hb).
  destruct (loop_ready_texture _ _ _ _ _ _ Hready) as (t1 & Ht1 & Hw & Hh & Hmin & Hmag).
  assert (Htex01 : tex0 <> tex1) by (destruct Hready as [_ _ _ _ _ _ _ [_ H] _ _ _ _]; exact H).
  assert (Hdb : draw_buffers st fb = Some (fbo_draw_buffers o)).
  { unfold draw_buffers. by rewrite Ho. }
  exists t1.
  destruct Hb as [Hb|Hb].
  - exists (tex_image t1). split; [done|]. split.
    + subst st'.
      rewrite (frame_state d window fb qp tp tex0 tex1 tex0 st o Hready Ho)
        by (left; done).
      cbv zeta. cbn [gl_tex tx_textures].
      rewrite lookup_alter_eq, lookup_alter_ne by done. rewrite Ht1.
      cbn [fmap option_fmap option_map]. unfold with_image.
      rewrite Hw, Hh, Hmin, Hmag. reflexivity.
    + split; [done|]. rewrite Hdb, Hb. discriminate.
  - exists (fill width height black). split; [done|]. split.
    + subst st'.
      rewrite (frame_state d window fb qp tp tex0 tex1 tex1 st o Hready Ho)
        by (right; done).
      cbv zeta. cbn [gl_tex tx_textures].
      rewrite !lookup_alter_eq. rewrite Ht1.
      cbn [fmap option_fmap option_map]. unfold with_image.
      cbn [tex_width tex_height tex_image tex_min_filter tex_mag_filter].
      rewrite Hw, Hh, Hmin, Hmag. reflexivity.
    + split; [|done]. rewrite Hdb, Hb. discriminate.
Qed.

Lemma frame_state_any :
  exists cleared o,
    fb_objects (gl_fb st) !! fb = Some o /\
    st' =
    let textures :=
      alter (with_image drawA) tex1
        (alter (with_image (fun w h _ => fill w h black)) cleared
           (tx_textures (gl_tex st))) in
    {| gl_allocs := gl_allocs st; gl_errors := gl_errors st; gl_shaders := gl_shaders st;
       gl_programs := gl_programs st; gl_program := tp; gl_vertex := gl_vertex st;
       gl_tex := {| tx_textures := textures; tx_active := 0;
                    tx_units := <[0 := 0]> (<[0 := tex1]> (tx_units (gl_tex st))) |};
       gl_fb := {| fb_objects := alter (set_draw_buffers 2 att1) fb
                                   (fb_objects (gl_fb st));
                   fb_draw := 0;
                   fb_clear_color := fb_clear_color (gl_fb st);
                   fb_viewport := fb_viewport (gl_fb st) |};
       gl_surface :=
         {| sf_width := sf_width (gl_surface st); sf_height := sf_height (gl_surface st);
            sf_back := undefined_image;
            sf_front :=
              raster_all window_viewport texFrag_main (sample (textures !! tex1)) 0
                (sf_width (gl_surface st)) (sf_height (gl_surface st))
                (triangles (map texVert_main quad_vertices)) (sf_back (gl_surface st)) |};
       gl_sampled := gl_sampled st ++ [tex1] |}.
Proof.
  destruct (loop_ready_framebuffer _ _ _ _ _ _ Hready) as (o & Ho & _ & _ & Hb).
  destruct Hb as [Hb|Hb]; [exists tex0|exists tex1]; exists o; (split; [done|]);
    subst st'; apply (frame_state d window fb qp tp tex0 tex1 _ st o Hready Ho);
    [left|right]; done.
Qed.

(** The draws of the frame read the second texture and no other. *)
Lemma frame_sampled : gl_sampled st' = gl_sampled st ++ [tex1].
Proof. destruct frame_state_any as (c & o & _ & ->). reflexivity. Qed.

(** The window shows the second texture, texel by texel. *)
Lemma frame_shown (x y : Z) :
  in_window x y = true -> shown st' x y = resampled <$> texel_at st' tex1 x y.
Proof.
  intros Hin.
  destruct frame_texture as (t1 & under & _ & Ht & _).
  unfold texel_at. rewrite Ht. cbn [mbind option_bind tex_image].
  destruct frame_state_any as (c & o & _ & Hst).
  unfold shown. rewrite Hst in Ht |- *. cbv zeta in Ht |- *.
  cbn [gl_tex tx_textures gl_surface sf_front] in Ht |- *.
  rewrite Ht.
  destruct Hready as [_ _ _ _ _ _ _ _ _ _ [-> ->] _].
  by rewrite raster_quadB.
Qed.

(** The frame leaves the context as the next frame needs it, with the
    draw buffers as pass A sets them. *)
Lemma frame_ready :
  loop_ready fb qp tp tex0 tex1 st'
  /\ draw_buffers st' fb = Some [GL_NONE; GL_COLOR_ATTACHMENT1].
Proof.
  destruct frame_texture as (t1 & under & _ & Ht & _).
  destruct (loop_ready_framebuffer _ _ _ _ _ _ Hready) as (o & Ho & Hc0 & Hc1 & _).
  assert (Hdb : draw_buffers st' fb = Some [GL_NONE; GL_COLOR_ATTACHMENT1]).
  { destruct frame_state_any as (c & o' & _ & ->).
    unfold draw_buffers. cbv zeta. cbn [gl_fb fb_objects].
    by rewrite lookup_alter_eq, Ho. }
  split; [|exact Hdb].
  destruct Hready as [Hqp Htp Hverts Hfb Ha0 Ha1 _ Htex Hfmt Hvp Hsf Hcc].
  split; try done.
  - destruct frame_state_any as (c & o' & _ & ->). exact Hqp.
  - destruct frame_state_any as (c & o' & _ & ->). exact Htp.
  - destruct frame_state_any as (c & o' & _ & ->). exact Hverts.
  - destruct frame_state_any as (c & o' & _ & ->).
    unfold attachment. cbv zeta. cbn [gl_fb fb_objects].
    by rewrite lookup_alter_eq, Ho.
  - destruct frame_state_any as (c & o' & _ & ->).
    unfold attachment. cbv zeta. cbn [gl_fb fb_objects].
    by rewrite lookup_alter_eq, Ho.
  - by right.
  - unfold texture_format. by rewrite Ht.
  - destruct frame_state_any as (c & o' & _ & ->). exact Hvp.
  - destruct frame_state_any as (c & o' & _ & ->). exact Hsf.
  - destruct frame_state_any as (c & o' & _ & ->). exact Hcc.
Qed.

(** The second texture holds blue where the quad of pass A is. *)
Lemma frame_texel_blue (x y : Z) :
  in_quad x y = true -> texel_at st' tex1 x y = Some blue.
Proof.
  intros Hq. destruct frame_texture as (t1 & under & _ & Ht & _).
  unfold texel_at. rewrite Ht. cbn [mbind option_bind tex_image].
  unfold drawA. by rewrite raster_quadA, Hq.
Qed.

(** Around the quad it holds the clear colour, once the clear of pass A
    goes to this texture. *)
Lemma frame_texel_black (x y : Z) :
  draw_buffers st fb = Some [GL_NONE; GL_COLOR_ATTACHMENT1] ->
  in_window x y = true -> in_quad x y = false ->
  texel_at st' tex1 x y = Some black.
Proof.
  intros Hdb Hw Hq. destruct frame_texture as (t1 & under & _ & Ht & _ & Hunder).
  unfold texel_at. rewrite Ht. cbn [mbind option_bind tex_image].
  unfold drawA. rewrite raster_quadA, Hq, (Hunder Hdb).
  unfold fill. fold (in_window x y). by rewrite Hw.
Qed.

End FrameFacts.

(** ** The loop, frame after frame *)

Section LoopState.

Variables (window fb qp tp tex0 tex1 : GLuint) (e : env).

(** A loop that has not been left after [n] frames runs one more. *)
Lemma frameLoop_snoc (n : nat) (w : world) :
  fst (frameLoop n window fb qp tp tex1 e w) = false ->
  w_should_close (snd (frameLoop n window fb qp tp tex1 e w)) = 0 ->
  frameLoop (S n) window fb qp tp tex1 e w =
  (false, snd (frame window fb qp tp tex1 e
                 (record (GlfwWindowShouldClose window) e
                    (snd (frameLoop n window fb qp tp tex1 e w))))).
Proof.
  revert w. induction n as [|n IH]; intros w Hleft Hclose.
  - rewrite frameLoop_step. cbn [frameLoop ret fst snd] in Hclose |- *.
    by rewrite Hclose.
  - rewrite (frameLoop_step (S n) window fb qp tp tex1 e w).
    rewrite (frameLoop_step n window fb qp tp tex1 e w) in Hleft, Hclose |- *.
    destruct (w_should_close w =? 0); [|discriminate].
    by apply IH.
Qed.

Lemma resampled_blue : resampled blue = blue.
Proof. reflexivity. Qed.

Lemma resampled_black : resampled black = black.
Proof. reflexivity. Qed.

Lemma in_quad_in_window (x y : Z) : in_quad x y = true -> in_window x y = true.
Proof.
  unfold in_quad, in_window, in_rect, width, height.
  rewrite !andb_true_iff, !Z.leb_le, !Z.ltb_lt. lia.
Qed.

(** What holds after [N] frames in which no event presses escape or asks
    the window to close. *)
Lemma frames_invariant (N : nat) (w : world) :
  loop_ready fb qp tp tex0 tex1 (w_gl w) ->
  w_should_close w = 0 -> w_escape w = GLFW_RELEASE ->
  (forall k, (k < N)%nat -> quiet (env_events e (w_polls w + k)) = true) ->
  let r := frameLoop N window fb qp tp tex1 e w in
  let st := w_gl (snd r) in
  fst r = false
  /\ w_should_close (snd r) = 0
  /\ w_escape (snd r) = GLFW_RELEASE
  /\ w_polls (snd r) = (w_polls w + N)%nat
  /\ loop_ready fb qp tp tex0 tex1 st
  /\ w_trace (snd r) =
     w_trace w ++ concat (replicate N (iteration false window fb qp tp tex1))
  /\ gl_sampled st = gl_sampled (w_gl w) ++ replicate N tex1
  /\ ((1 <= N)%nat ->
      draw_buffers st fb = Some [GL_NONE; GL_COLOR_ATTACHMENT1]
      /\ forall x y, in_quad x y = true ->
           texel_at st tex1 x y = Some blue /\ shown st x y = Some blue)
  /\ ((2 <= N)%nat ->
      forall x y, in_window x y = true -> in_quad x y = false ->
        texel_at st tex1 x y = Some black /\ shown st x y = Some black).
Proof.
  intros Hready Hclose Hesc. induction N as [|n IH]; intros Hquiet.
  - cbn [frameLoop ret fst snd]. rewrite Nat.add_0_r, !app_nil_r.
    do 4 (split; [done|]). split; [exact Hready|].
    do 2 (split; [done|]). split; intros; lia.
  - destruct IH as (Hleft & Hc & Hk & Hp & Hr & Ht & Hs & Hblue & Hblack).
    { intros k Hk. apply Hquiet. lia. }
    cbv zeta. rewrite (frameLoop_snoc n w Hleft Hc). cbn [fst snd].
    set (wn := snd (frameLoop n window fb qp tp tex1 e w)) in *.
    set (w0 := record (GlfwWindowShouldClose window) e wn).
    assert (Hq : quiet (env_events e (w_polls w0)) = true).
    { subst w0. rewrite polls_record, Hp. apply Hquiet. lia. }
    assert (Hk0 : (w_escape w0 =? GLFW_PRESS) = false).
    { subst w0. by rewrite escape_record, Hk. }
    assert (Hgl : w_gl (snd (frame window fb qp tp tex1 e w0)) =
                  fold_left (gl_step (env_driver e))
                    (frame_actions false window fb qp tp tex1) (w_gl wn)).
    { rewrite frame_gl, Hk0. subst w0. rewrite gl_record.
      by rewrite (other_call (env_driver e) (w_gl wn)). }
    rewrite Hgl.
    destruct (frame_ready (env_driver e) window fb qp tp tex0 tex1 (w_gl wn) Hr)
      as [Hr' Hdb'].
    split; [done|]. split.
    { rewrite frame_close, Hk0. subst w0. rewrite close_record, Hc in *.
      by apply close_after_quiet. }
    split.
    { rewrite frame_escape. subst w0. rewrite escape_record, Hk in *.
      by apply escape_after_quiet. }
    split.
    { rewrite frame_polls. subst w0. rewrite polls_record, Hp. lia. }
    split; [exact Hr'|]. split.
    { rewrite frame_trace, Hk0. subst w0. rewrite trace_record, Ht.
      rewrite replicate_S_end, concat_app. cbn [concat]. rewrite app_nil_r.
      unfold iteration. rewrite <- !app_assoc. reflexivity. }
    split.
    { rewrite (frame_sampled (env_driver e) window fb qp tp tex0 tex1 (w_gl wn) Hr), Hs.
      rewrite replicate_S_end, <- app_assoc. reflexivity. }
    split.
    { intros _. split; [exact Hdb'|]. intros x y Hxy.
      rewrite (frame_shown (env_driver e) window fb qp tp tex0 tex1 (w_gl wn) Hr)
        by (by apply in_quad_in_window).
      rewrite (frame_texel_blue (env_driver e) window fb qp tp tex0 tex1 (w_gl wn) Hr)
        by done.
      split; [done|]. cbn [fmap option_fmap option_map]. by rewrite resampled_blue. }
    intros H2 x y Hw Hxy.
    destruct Hblue as [Hdb _]; [lia|].
    rewrite (frame_shown (env_driver e) window fb qp tp tex0 tex1 (w_gl wn) Hr) by done.
    rewrite (frame_texel_black (env_driver e) window fb qp tp tex0 tex1 (w_gl wn) Hr)
      by done.
    split; [done|]. cbn [fmap option_fmap option_map]. by rewrite resampled_black.
Qed.

End LoopState.

(** ** What the window shows *)

Section ShownClaims.

(** With the accepting driver [main] enters the loop in a context that is
    [loop_ready]: the framebuffer is object 11, the programs are 3 and 6,
    the textures 9 and 10. *)
Ltac ready_as_created :=
  split;
  [ split; [discriminate | vm_compute; reflexivity]
  | split; [discriminate | vm_compute; reflexivity]
  | vm_compute; reflexivity
  | discriminate
  | vm_compute; reflexivity
  | vm_compute; reflexivity
  | left; vm_compute; reflexivity
  | split; discriminate
  | vm_compute; reflexivity
  | vm_compute; reflexivity
  | split; vm_compute; reflexivity
  | vm_compute; reflexivity ].

Lemma accepting_entry_ready :
  loop_ready 11 3 6 9 10 (w_gl (loop_entry (plain_env accepting_driver no_events))).
Proof. ready_as_created. Qed.

(** C1, the claim as stated, fails.  After two frames without input the
    clear colour of pass A is opaque black, not blue, and the texture at
    attachment 1 (texture 10, the one pass B reads) holds two colours, as
    does the window: blue, which is what the fragment shader of program A
    writes, inside the quad, and the clear colour around it.  After the
    first frame the texture at attachment 0 (texture 9) holds the clear
    colour: the first [glClear] goes there. *)
Lemma attachment1_shows_two_colors :
  let e := plain_env accepting_driver no_events in
  let st1 := w_gl (snd (main 1 e (world_init e))) in
  let r := main 2 e (world_init e) in
  let st := w_gl (snd r) in
  fst r = Running
  /\ attachment st 11 1 = Some 10 /\ gl_sampled st = [10; 10]
  /\ store_color (fb_clear_color (gl_fb st)) = black
  /\ texel_at st 10 400 300 = Some blue /\ shown st 400 300 = Some blue
  /\ texel_at st 10 0 0 = Some black /\ shown st 0 0 = Some black
  /\ attachment st1 11 0 = Some 9 /\ texel_at st1 9 0 0 = Some black.
Proof. vm_compute. repeat split; reflexivity. Qed.

(** C1, amended.  Take a context in which the loop is entered as [main]
    enters it ([loop_ready]), with the close flag down and escape not
    held, and [N] rounds of events none of which presses escape or asks
    the window to close.  Then the loop runs [N] frames and is not left,
    and the close flag is still down.  The clear colour of pass A is
    opaque black.  From the first frame on, the texture at attachment 1
    and the window hold opaque blue, the colour the fragment shader of
    program A writes, in the pixels of the quad, 200 <= x < 600 and
    150 <= y < 450; from the second frame on they hold the clear colour
    in every other pixel.  Each of the [N] draws that reads a texture
    reads the one at attachment 1, which is not the one at attachment 0. *)
Theorem frames_show_blue_quad_on_black
    (window fb quad1Program texProgram tex0 tex1 : GLuint) (e : env) (N : nat) (w : world) :
  loop_ready fb quad1Program texProgram tex0 tex1 (w_gl w) ->
  w_should_close w = 0 -> w_escape w = GLFW_RELEASE ->
  (forall k, (k < N)%nat -> quiet (env_events e (w_polls w + k)) = true) ->
  let r := frameLoop N window fb quad1Program texProgram tex1 e w in
  let st := w_gl (snd r) in
  fst r = false
  /\ w_should_close (snd r) = 0
  /\ w_trace (snd r) =
     w_trace w ++ concat (replicate N (iteration false window fb quad1Program texProgram tex1))
  /\ attachment st fb 0 = Some tex0 /\ attachment st fb 1 = Some tex1
  /\ store_color (fb_clear_color (gl_fb st)) = black
  /\ ((1 <= N)%nat ->
      forall x y, in_quad x y = true ->
        texel_at st tex1 x y = Some blue /\ shown st x y = Some blue)
  /\ ((2 <= N)%nat ->
      forall x y, in_window x y = true -> in_quad x y = false ->
        texel_at st tex1 x y = Some black /\ shown st x y = Some black)
  /\ gl_sampled st = gl_sampled (w_gl w) ++ replicate N tex1
  /\ tex0 <> tex1.
Proof.
  intros Hready Hclose Hesc Hquiet.
  destruct (frames_invariant window fb quad1Program texProgram tex0 tex1 e N w
              Hready Hclose Hesc Hquiet)
    as (Hleft & Hc & _ & _ & Hr & Ht & Hs & Hblue & Hblack).
  cbv zeta.
  split; [exact Hleft|]. split; [exact Hc|]. split; [exact Ht|].
  destruct Hr as [_ _ _ _ Ha0 Ha1 _ [_ Hne] _ _ _ Hcc].
  split; [exact Ha0|]. split; [exact Ha1|].
  split; [by rewrite Hcc|].
  split; [intros HN; by apply Hblue|].
  split; [exact Hblack|].
  split; [exact Hs|exact Hne].
Qed.

Lemma frames_show_blue_quad_on_black_witness :
  let e := plain_env accepting_driver no_events in
  let w := loop_entry e in
  let st := w_gl (snd (frameLoop 2 4096 11 3 6 10 e w)) in
  loop_ready 11 3 6 9 10 (w_gl w)
  /\ w_should_close w = 0 /\ w_escape w = GLFW_RELEASE
  /\ shown st 400 300 = Some blue /\ shown st 0 0 = Some black
  /\ gl_sampled st = [10; 10].
Proof.
  assert (Hready : loop_ready 11 3 6 9 10
                     (w_gl (loop_entry (plain_env accepting_driver no_events))))
    by ready_as_created.
  destruct (frames_show_blue_quad_on_black 4096 11 3 6 9 10
              (plain_env accepting_driver no_events) 2
              (loop_entry (plain_env accepting_driver no_events))
              Hready eq_refl eq_refl (fun k _ => eq_refl))
    as (_ & _ & _ & _ & _ & _ & Hblue & Hblack & Hs & _).
  split; [exact Hready|]. split; [reflexivity|]. split; [reflexivity|].
  split; [exact (proj2 (Hblue (le_S _ _ (le_n 1)) 400 300 eq_refl))|].
  split; [exact (proj2 (Hblack (le_n 2) 0 0 eq_refl eq_refl))|].
  exact Hs.
Defined.

End ShownClaims.

(** ** The claims about line splitting *)

Section SplittingClaims.

Lemma compileLines_first_call (shader : GLuint) (buf : list ascii) (lines : shader_lines)
    (e : env) (w : world) :
  exists rest : list action,
    w_trace (snd (compileLines shader buf lines e w)) =
    w_trace w ++ GlShaderSource shader buf lines :: rest
    /\ Forall (fun a => match a with GlShaderSource _ _ _ => False | _ => True end) rest.
Proof.
  unfold compileLines. rewrite !bind_run.
  unfold glShaderSource, glCompileShader, glGetShaderiv, glGetShaderInfoLog, cout, call,
    query, ret. cbn [fst snd].
  match goal with |- context [if ?c then _ else _] => destruct c end.
  - rewrite !bind_run. cbn [fst snd].
    match goal with
    | |- context [w_trace (record ?a e ?x)] => remember (w_trace (record a e x)) as tr eqn:Htr
    end.
    rewrite !trace_record in Htr. rewrite <- !app_assoc in Htr. subst tr.
    eexists. split; [reflexivity|]. repeat constructor.
  - cbn [fst snd].
    match goal with
    | |- context [w_trace (record ?a e ?x)] => remember (w_trace (record a e x)) as tr eqn:Htr
    end.
    rewrite !trace_record in Htr. rewrite <- !app_assoc in Htr. subst tr.
    eexists. split; [reflexivity|]. repeat constructor.
Qed.

Lemma compileShader_first_call (shader : GLuint) (source : string) (lines : shader_lines)
    (e : env) (w : world) :
  split_lines (chars source) = Some lines ->
  exists rest : list action,
    w_trace (snd (compileShader shader source e w)) =
    w_trace w ++ GlShaderSource shader (chars source) lines :: rest
    /\ Forall (fun a => match a with GlShaderSource _ _ _ => False | _ => True end) rest.
Proof.
  intros Hsl. rewrite compileShader_split, Hsl. cbn [snd].
  apply compileLines_first_call.
Qed.

Lemma no_newline_no_lines (s cur : list ascii) :
  Forall (fun c => is_newline c = false) s -> complete_lines_from cur s = [].
Proof.
  revert cur. induction s as [|c s IH]; intros cur Hs; [done|].
  apply Forall_cons in Hs as [Hc Hs]. simpl. rewrite Hc. by apply IH.
Qed.

(** A source shorter than 2^31 - 1 characters is submitted up to its
    last newline. *)
Lemma submission_prefix (source : list ascii) :
  Z.of_nat (length source) < 2 ^ 31 - 1 ->
  submission source = Some (upto_last_newline source).
Proof.
  intros Hlen. unfold submission.
  destruct (split_lines source) as [sl|] eqn:Hsl.
  - cbn [mbind option_bind]. by apply submitted_text_split.
  - by rewrite split_lines_spec in Hsl.
Qed.

(** It comes back byte for byte exactly when it is empty or ends in a
    newline. *)
Lemma submission_whole (source : list ascii) :
  Z.of_nat (length source) < 2 ^ 31 - 1 ->
  submission source = Some source <-> (source = [] \/ last source = Some newline).
Proof.
  intros Hlen. rewrite submission_prefix by exact Hlen.
  rewrite <- upto_last_newline_all.
  split; [by intros [= ->]|by intros ->].
Qed.

(** The four embedded texts end in a newline: the driver gets them whole. *)
Lemma embedded_sources_whole :
  Forall (fun s => submission (chars s) = Some (chars s))
         [quadVertSource; quad1FragSource; texVertSource; texFragSource].
Proof. repeat constructor; vm_compute; reflexivity. Qed.

(** The characters of [endless_source]. *)
Lemma endless_source_chars :
  exists n : nat,
    chars endless_source = replicate n "a"%char /\ Z.of_nat n = 2 ^ 32.
Proof.
  exists (Z.to_nat (2 ^ 32)). split.
  - unfold chars, endless_source. apply list_ascii_of_string_of_list_ascii.
  - apply Z2Nat.id. lia.
Qed.

(** C2 (the code departs from the claim).  A shader text with one newline
    and an unterminated second line is split into one entry, as the claim
    says, but the entries put together are the first line only: the text
    after the last newline never reaches the driver. *)
Theorem split_loses_unterminated_line :
  let source := chars unterminated_source in
  count_newlines source = 1
  /\ split_lines source
     = Some {| sl_count := 1; sl_starts := [Some 0]; sl_lengths := [Some 13] |}
  /\ submission source = Some (chars ("#version 330" ++ endl))
  /\ submission source <> Some source.
Proof.
  cbv zeta. repeat split; try reflexivity.
  intros H. vm_compute in H. discriminate.
Qed.

(** C9 (the code departs from the claim).  A text of 2^32 characters
    without a newline is not handed over as zero lines: it is not handed
    over at all.  The index of the loop of line 59 is an [unsigned int]
    and is back at 0 before it gets to the length, so the loop has no
    end, whatever number of turns it is given; [compileShader] makes no
    call and has no result. *)
Theorem compileShader_stuck_on_huge_source (shader : GLuint) (e : env) (w : world)
    (fuel : nat) :
  let source := chars endless_source in
  Z.of_nat (length source) = 2 ^ 32
  /\ Forall (fun c => is_newline c = false) source
  /\ split_loop fuel source (Z.of_nat (length source)) 0
       (split_init (count_newlines source)) = None
  /\ compileShader shader endless_source e w = (None, w).
Proof.
  cbv zeta. destruct endless_source_chars as (n & Hc & Hn).
  assert (Hlen : Z.of_nat (length (chars endless_source)) = 2 ^ 32)
    by (by rewrite Hc, length_replicate).
  assert (Hnone : split_lines (chars endless_source) = None)
    by (apply split_lines_endless; lia).
  split; [exact Hlen|]. split.
  { rewrite Hc. by apply Forall_replicate. }
  split.
  { apply split_loop_endless; lia. }
  by rewrite compileShader_split, Hnone.
Qed.

(** X15.  For every source shorter than 2^31 - 1 characters,
    [compileShader] hands [glShaderSource] the start and length of each
    complete line; every length counts the newline that ends its line;
    read back, the entries are the text up to and including its last
    newline, so whatever follows that newline is part of no entry, and a
    text without any newline is handed over as zero lines. *)
Theorem compileShader_submits_prefix (shader : GLuint) (source : string)
    (e : env) (w : world) :
  let buf := chars source in
  Z.of_nat (length buf) < 2 ^ 31 - 1 ->
  exists sl : shader_lines,
    split_lines buf = Some sl
    /\ (exists rest : list action,
           w_trace (snd (compileShader shader source e w)) =
           w_trace w ++ GlShaderSource shader buf sl :: rest
           /\ Forall (fun a => match a with GlShaderSource _ _ _ => False | _ => True end)
                     rest)
    /\ sl_count sl = count_newlines buf
    /\ sl_lengths sl = (fun l => Some (Z.of_nat (length l))) <$> complete_lines buf
    /\ Forall (fun l => exists body : list ascii,
                   l = body ++ [newline] /\ Forall (fun c => is_newline c = false) body)
              (complete_lines buf)
    /\ entry_texts buf sl = Some (complete_lines buf)
    /\ submitted_text buf sl = Some (upto_last_newline buf)
    /\ (exists tail : list ascii,
           buf = upto_last_newline buf ++ tail
           /\ Forall (fun c => is_newline c = false) tail)
    /\ (upto_last_newline buf = [] \/ last (upto_last_newline buf) = Some newline)
    /\ (Forall (fun c => is_newline c = false) buf ->
        sl_count sl = 0 /\ submitted_text buf sl = Some []).
Proof.
  intros buf Hlen.
  pose proof (split_lines_spec buf Hlen) as Hsl.
  eexists. split; [exact Hsl|].
  split; [by apply compileShader_first_call|].
  split; [cbn [sl_count]; by rewrite count_newlines_lines by lia|].
  split; [reflexivity|].
  split; [apply (complete_lines_from_shape buf []); constructor|].
  split; [by apply entry_texts_complete|].
  split; [by apply submitted_text_split|].
  destruct (upto_last_newline_spec buf) as (Htail & Hend).
  split; [exact Htail|]. split; [exact Hend|].
  intros Hno.
  assert (Hnil : complete_lines buf = []) by (by apply no_newline_no_lines).
  split.
  - cbn [sl_count]. by rewrite Hnil.
  - by rewrite (submitted_text_split buf _ Hlen Hsl), <- concat_complete_lines, Hnil.
Qed.

Lemma compileShader_submits_prefix_witness :
  let buf := chars unterminated_source in
  Z.of_nat (length buf) < 2 ^ 31 - 1
  /\ exists sl : shader_lines,
       split_lines buf = Some sl
       /\ submitted_text buf sl = Some (chars ("#version 330" ++ endl)).
Proof.
  split; [vm_compute; reflexivity|].
  destruct (compileShader_submits_prefix 1 unterminated_source
              (plain_env accepting_driver no_events)
              (world_init (plain_env accepting_driver no_events)))
    as (sl & Hsl & _ & _ & _ & _ & _ & Hsub & _).
  - vm_compute. reflexivity.
  - exists sl. split; [exact Hsl|]. rewrite Hsub. vm_compute. reflexivity.
Defined.

End SplittingClaims.

(** ** The claims about failures *)

Section FailureClaims.

(** The exit codes of [main] are 0, 1, 2 and 3; 5 is none of them. *)
Lemma main_exit_codes (fuel : nat) (e : env) (code : Z) :
  fst (main fuel e (world_init e)) = Exit code -> In code [0; 1; 2; 3].
Proof.
  intros Hc.
  destruct (main_shape fuel e (world_init e) eq_refl)
    as (t0 & _ & _ & _ & [(Hin & _)|(_ & fb & tex1 & keys & _ & _ & [(Hr & _)|(Hr & _)])]);
    rewrite Hc in *.
  - simpl in Hin. destruct Hin as [H|[H|[H|[H|[]]]]]; inversion H; simpl; tauto.
  - discriminate.
  - inversion Hr. simpl. tauto.
Qed.

(** C3 (the code departs from the claim).  With a driver that rejects the
    vertex shaders and a user who closes the window during the first
    frame, [createProgram] returns 5 twice and says so on the standard
    error stream, and [main] goes on to render and exits with code 0. *)
Theorem compile_failure_exits_zero :
  let e := plain_env rejecting_driver close_during_first_frame in
  let r := main 2 e (world_init e) in
  fst r = Exit 0
  /\ stderr (w_trace (snd r))
     = [failure_message VertexCompileFailure; failure_message VertexCompileFailure]
  /\ quad1Program_of e (world_init e) = 5
  /\ texProgram_of e (world_init e) = 5
  /\ occurrences (uses_program 5) (w_trace (snd r)) = 2%nat.
Proof. vm_compute. repeat split. Qed.

(** C5, the claim as stated, fails: a vertex shader handle of zero and a
    link failure make [createProgram] return the same value, 2. *)
Lemma zero_handle_same_value_as_link_failure :
  let e0 := plain_env exhausted_driver no_events in
  let e1 := plain_env unlinking_driver no_events in
  let r0 := createProgram quadVertSource quad1FragSource e0 (world_init e0) in
  let r1 := createProgram quadVertSource quad1FragSource e1 (world_init e1) in
  stderr (w_trace (snd r0)) = [failure_message ZeroVertexShader]
  /\ stderr (w_trace (snd r1)) = [failure_message LinkFailure]
  /\ fst r0 = Some 2 /\ fst r1 = Some 2 /\ fst r0 = fst r1.
Proof. vm_compute. repeat split. Qed.

Lemma failure_message_inj (f g : build_failure) :
  failure_message f = failure_message g -> f = g.
Proof. by destruct f, g. Qed.

(** C5, amended.  A handle of zero ends [createProgram] on the spot: when
    [glCreateShader] answers 0 for the vertex shader, or for the fragment
    shader, or [glCreateProgram] answers 0 after both shaders have
    compiled, the next call writes the message that names the object, no
    call follows, and the value returned is 2.  Conversely a run that
    wrote one of these messages is one whose creation call answered 0.
    A shader that does not compile ends it with its own message and the
    value 5.  So the value 2 of a zero handle differs from the value of
    the runs that wrote a compile failure message, 5, and equals the
    value of the runs that wrote the link failure message, from which
    only the message tells it apart. *)
Theorem zero_handle_failure (vertSource fragSource : string) (e : env) (w : world) :
  let d := env_driver e in
  let r := createProgram vertSource fragSource e w in
  let vs := drv_name d (gl_allocs (w_gl w)) in
  let w1 := record (GlCreateShader GL_VERTEX_SHADER) e w in
  let fs := drv_name d (gl_allocs (w_gl w1)) in
  let w2 := record (GlCreateShader GL_FRAGMENT_SHADER) e w1 in
  let rv := compileShader vs vertSource e w2 in
  let rf := compileShader fs fragSource e (snd rv) in
  let program := drv_name d (gl_allocs (w_gl (snd rf))) in
  (vs = 0 ->
   r = (Some 2, record (Cerr ("Error: vertex shader is 0." ++ endl)) e w1))
  /\ (vs <> 0 -> fs = 0 ->
      r = (Some 2, record (Cerr ("Error: fragment shader is 0." ++ endl)) e w2))
  /\ (vs <> 0 -> fs <> 0 -> fst rv = Some true -> fst rf = Some true -> program = 0 ->
      r = (Some 2, records [GlCreateProgram; Cerr ("Error: program is 0." ++ endl)] e
                     (snd rf)))
  /\ (vs <> 0 -> fs <> 0 -> fst rv = Some false ->
      r = (Some 5, record (Cerr ("Error: could not compile vertex shader." ++ endl)) e
                     (snd rv)))
  /\ (vs <> 0 -> fs <> 0 -> fst rv = Some true -> fst rf = Some false ->
      r = (Some 5, record (Cerr ("Error: could not compile fragment shader." ++ endl)) e
                     (snd rf)))
  /\ (exists t : list action,
         snd r = records t e w
         /\ forall f : build_failure,
              stderr t = [failure_message f] ->
              fst r = Some (failure_result f)
              /\ (zero_handle f = true ->
                  fst r = Some 2
                  /\ exists t1 : list action,
                       t = t1 ++ [creation_call f; Cerr (failure_message f)]
                       /\ drv_name d (gl_allocs (w_gl (records t1 e w))) = 0)
              /\ (compile_failure f = true -> fst r = Some 5)
              /\ (f = LinkFailure -> fst r = Some 2))
  /\ (forall f g : build_failure, failure_message f = failure_message g -> f = g).
Proof.
  intros d r vs w1 fs w2 rv rf program. subst d r vs w1 fs w2 rv rf program.
  split; [|split; [|split; [|split; [|split; [|split]]]]].
  - intros Hvs. unfold createProgram, glCreateShader, query, cerr, call, ret.
    rewrite bind_run. cbn [fst snd]. rewrite Hvs. reflexivity.
  - intros Hvs Hfs. apply Z.eqb_neq in Hvs.
    unfold createProgram, glCreateShader, query, cerr, call, ret.
    rewrite bind_run. cbn [fst snd]. rewrite Hvs.
    rewrite bind_run. cbn [fst snd]. rewrite Hfs. reflexivity.
  - intros Hvs Hfs Hv Hf Hp. apply Z.eqb_neq in Hvs, Hfs.
    unfold createProgram, glCreateShader, glCreateProgram, query, cerr, call, ret.
    rewrite bind_run. cbn [fst snd]. rewrite Hvs.
    rewrite bind_run. cbn [fst snd]. rewrite Hfs.
    rewrite bind_run. rewrite Hv.
    change (negb true) with false. cbv iota.
    rewrite bind_run. rewrite Hf.
    change (negb true) with false. cbv iota.
    rewrite bind_run. cbn [fst snd]. rewrite Hp. reflexivity.
  - intros Hvs Hfs Hv. apply Z.eqb_neq in Hvs, Hfs.
    unfold createProgram, glCreateShader, query, cerr, call, ret.
    rewrite bind_run. cbn [fst snd]. rewrite Hvs.
    rewrite bind_run. cbn [fst snd]. rewrite Hfs.
    rewrite bind_run. rewrite Hv.
    change (negb false) with true. cbv iota. reflexivity.
  - intros Hvs Hfs Hv Hf. apply Z.eqb_neq in Hvs, Hfs.
    unfold createProgram, glCreateShader, query, cerr, call, ret.
    rewrite bind_run. cbn [fst snd]. rewrite Hvs.
    rewrite bind_run. cbn [fst snd]. rewrite Hfs.
    rewrite bind_run. rewrite Hv.
    change (negb true) with false. cbv iota.
    rewrite bind_run. rewrite Hf.
    change (negb false) with true. cbv iota. reflexivity.
  - destruct (createProgram_cases vertSource fragSource e w) as (t & Ht & _ & Hcases).
    exists t. split; [exact Ht|].
    intros f Hf.
    destruct Hcases as [(f' & Hr & Hs & Hz)|[(Hs & _)|(Hs & _)]];
      [|rewrite Hs in Hf; discriminate|rewrite Hs in Hf; discriminate].
    rewrite Hs in Hf. injection Hf as Hf. apply failure_message_inj in Hf. subst f'.
    split; [exact Hr|]. split; [|split].
    + intros Hzero. split; [rewrite Hr; by destruct f|]. by apply Hz.
    + intros Hc. rewrite Hr. by destruct f.
    + intros ->. exact Hr.
  - apply failure_message_inj.
Qed.

Lemma zero_handle_failure_witness :
  let e := plain_env exhausted_driver no_events in
  drv_name (env_driver e) (gl_allocs (w_gl (world_init e))) = 0
  /\ fst (createProgram quadVertSource quad1FragSource e (world_init e)) = Some 2
  /\ stderr (w_trace (snd (createProgram quadVertSource quad1FragSource e (world_init e))))
     = ["Error: vertex shader is 0." ++ endl]%string.
Proof.
  split; [reflexivity|].
  destruct (zero_handle_failure quadVertSource quad1FragSource
              (plain_env exhausted_driver no_events)
              (world_init (plain_env exhausted_driver no_events))) as (H & _).
  rewrite (H eq_refl). split; reflexivity.
Defined.

End FailureClaims.

(** ** The claims about the loop and the shutdown *)

Section LoopClaims.

Lemma iteration_no_glGetError (p : bool) (window fb qp tp tex1 : Z) :
  Forall (fun a => is_glGetError a = false) (iteration p window fb qp tp tex1).
Proof. destruct p; repeat constructor. Qed.

Lemma iteration_no_glDeleteProgram (p : bool) (window fb qp tp tex1 : Z) :
  Forall (fun a => is_glDeleteProgram a = false) (iteration p window fb qp tp tex1).
Proof. destruct p; repeat constructor. Qed.

Lemma iteration_one_swap (p : bool) (window fb qp tp tex1 : Z) :
  occurrences is_glfwSwapBuffers (iteration p window fb qp tp tex1) = 1%nat.
Proof. by destruct p. Qed.

Lemma occurrences_turns (q : action -> bool) (turn : bool -> list action) (keys : list bool) :
  (forall p, Forall (fun a => q a = false) (turn p)) ->
  occurrences q (concat (map turn keys)) = 0%nat.
Proof.
  intros Hq. induction keys as [|p keys IH]; [done|].
  simpl. rewrite occurrences_app, IH, (occurrences_none q (turn p)); [done|apply Hq].
Qed.

(** C4, the claim as stated, fails: with two codes pending the helper
    takes and describes the first and leaves the second in the queue. *)
Lemma error_leaves_second_code_pending :
  let e := plain_env erring_driver no_events in
  let w := world_init e in
  gl_errors (w_gl w) = [GL_INVALID_ENUM; GL_INVALID_VALUE]
  /\ gl_errors (w_gl (snd (error e w))) = [GL_INVALID_VALUE]
  /\ w_trace (snd (error e w)) = [GlGetError; Cerr (describe GL_INVALID_ENUM)].
Proof. vm_compute. repeat split. Qed.

(** C4, amended.  One call of the helper makes one [glGetError] call: it
    takes at most one code off the queue and describes that one alone.
    [main] calls it at most once, inside the assertion after set-up:
    once in a run that reaches the loop with assertions enabled, never
    when built with [NDEBUG]; the loop never calls it. *)
Theorem error_queries_once (fuel : nat) (e : env) (w : world)
    (window fb quad1Program texProgram tex1 : Z) :
  (let r := error e w in
   fst r = negb (GL_NO_ERROR =? pending_error (w_gl w))
   /\ gl_errors (w_gl (snd r)) = tail (gl_errors (w_gl w))
   /\ w_trace (snd r)
      = w_trace w ++ GlGetError
        :: (if fst r then [Cerr (describe (pending_error (w_gl w)))] else []))
  /\ (let m := main fuel e (world_init e) in
      (occurrences is_glGetError (w_trace (snd m)) <= 1)%nat
      /\ (env_ndebug e = true -> occurrences is_glGetError (w_trace (snd m)) = 0%nat)
      /\ (env_ndebug e = false -> fst m = Running \/ fst m = Exit 0 ->
          occurrences is_glGetError (w_trace (snd m)) = 1%nat))
  /\ (let l := frameLoop fuel window fb quad1Program texProgram tex1 e w in
      occurrences is_glGetError (drop (length (w_trace w)) (w_trace (snd l))) = 0%nat).
Proof.
  split; [|split].
  - cbv zeta. rewrite error_run.
    destruct (GL_NO_ERROR =? pending_error (w_gl w)); cbn [fst snd negb];
      rewrite trace_records, gl_records; repeat split.
  - cbv zeta.
    destruct (main_shape fuel e (world_init e) eq_refl)
      as (t0 & _ & Hle & Hnd & [(Hin & Hw)|(Hcount & fb' & tex1' & keys & _ & _ & Hrun)]).
    + rewrite Hw, trace_records. simpl app. split; [done|]. split; [done|].
      intros _ [Hr|Hr]; rewrite Hr in Hin; simpl in Hin;
        destruct Hin as [H|[H|[H|[H|[]]]]]; discriminate.
    + assert (Hturns : occurrences is_glGetError
                (concat (map (fun p => iteration p (env_window e) fb'
                           (quad1Program_of e (world_init e))
                           (texProgram_of e (world_init e)) tex1') keys)) = 0%nat).
      { apply occurrences_turns. intros p. apply iteration_no_glGetError. }
      assert (Htotal : occurrences is_glGetError (w_trace (snd (main fuel e (world_init e))))
                       = occurrences is_glGetError t0).
      { destruct Hrun as [(_ & Htr)|(_ & _ & Htr)]; rewrite Htr; simpl app;
          rewrite !occurrences_app, Hturns; [lia|].
        change (occurrences is_glGetError (GlfwWindowShouldClose _ :: shutdown_actions _ _))
          with 0%nat. lia. }
      rewrite Htotal. split; [done|]. split; [done|].
      intros Hn _. by rewrite Hcount, Hn.
  - cbv zeta.
    destruct (frameLoop_trace window fb quad1Program texProgram tex1 e fuel w)
      as (keys & _ & Htr & _).
    rewrite Htr, drop_app_length, occurrences_app.
    rewrite occurrences_turns by (intros p; apply iteration_no_glGetError).
    by destruct (fst (frameLoop fuel window fb quad1Program texProgram tex1 e w)).
Qed.

End LoopClaims.

Section FrameClaims.

Variables (window fb quad1Program texProgram tex1 : Z) (e : env).

(** C6.  Pass A is five calls, in this order: bind the offscreen
    framebuffer for drawing, clear the colour buffer, use program A, set
    the draw buffers to ([GL_NONE], [GL_COLOR_ATTACHMENT1]), draw six
    vertices as triangles; and every turn of the loop is the loop test,
    the key poll, these five calls, pass B, the swap and the event poll. *)
Theorem passA_calls_in_order (fuel : nat) (w : world) :
  passA fb quad1Program e w = (tt, records (passA_actions fb quad1Program) e w)
  /\ w_trace (snd (passA fb quad1Program e w))
     = w_trace w
       ++ [ GlBindFramebuffer GL_DRAW_FRAMEBUFFER fb;
            GlClear GL_COLOR_BUFFER_BIT;
            GlUseProgram quad1Program;
            GlDrawBuffers 2 [GL_NONE; GL_COLOR_ATTACHMENT1];
            GlDrawArrays GL_TRIANGLES 0 6 ]
  /\ att1 = [GL_NONE; GL_COLOR_ATTACHMENT1]
  /\ (let l := frameLoop fuel window fb quad1Program texProgram tex1 e w in
      exists keys : list bool,
        w_trace (snd l)
        = w_trace w
          ++ concat (map (fun pressed =>
                            GlfwWindowShouldClose window
                            :: keyPoll_actions pressed window
                            ++ passA_actions fb quad1Program
                            ++ passB_actions texProgram tex1
                            ++ [GlfwSwapBuffers window; GlfwPollEvents]) keys)
          ++ (if fst l then [GlfwWindowShouldClose window] else [])).
Proof.
  split; [apply passA_run|].
  split; [rewrite passA_run; cbn [snd]; by rewrite trace_records|].
  split; [reflexivity|]. cbv zeta.
  destruct (frameLoop_trace window fb quad1Program texProgram tex1 e fuel w)
    as (keys & _ & Htr & _).
  exists keys. exact Htr.
Qed.

(** C7, the claim as stated, fails: a press of escape that is released
    before the turn ends is never seen.  The user taps escape while the
    first frame is shown, so that the [glfwPollEvents] ending the first
    turn finds the press and the release, and nothing happens afterwards.
    Four turns later the loop is still running, the close flag is down
    and [glfwSetWindowShouldClose] has not been called. *)
Theorem escape_tap_is_missed :
  let e := plain_env accepting_driver tap_during_first_frame in
  let r := main 4 e (world_init e) in
  env_events e 0 = [EscapeKey true; EscapeKey false]
  /\ (forall k : nat, k <> 0%nat -> env_events e k = [])
  /\ fst r = Running
  /\ w_should_close (snd r) = 0
  /\ occurrences is_glfwSwapBuffers (w_trace (snd r)) = 4%nat
  /\ ~ In (GlfwSetWindowShouldClose (env_window e) GLFW_TRUE) (w_trace (snd r)).
Proof.
  cbv zeta. split; [reflexivity|]. split; [by intros [|k]|].
  vm_compute. repeat split; try reflexivity.
  intros H. repeat (destruct H as [H|H]; [discriminate H|]). exact H.
Qed.

(** C7, amended.  Starting a turn of the loop with the close flag down:
    - if the escape key is down when the key poll of this turn asks for
      it, the flag is up right after that poll and stays up, and the loop
      is left at the next test: the body runs this once and not again;
    - if escape is pressed while this turn runs and is still down once
      the event poll at its end has taken the pending events, the loop is
      left after at most one more turn. *)
Theorem escape_ends_loop (fuel : nat) (w : world) :
  w_should_close w = 0 ->
  let body := frame window fb quad1Program texProgram tex1 in
  let loop n := frameLoop n window fb quad1Program texProgram tex1 in
  let w1 := record (GlfwWindowShouldClose window) e w in
  (w_escape w = GLFW_PRESS ->
     w_should_close (snd (keyPoll window e w1)) = GLFW_TRUE
     /\ w_should_close (snd (body e w1)) <> 0
     /\ loop (S (S fuel)) e w
        = (true, record (GlfwWindowShouldClose window) e (snd (body e w1)))
     /\ w_trace (snd (loop (S (S fuel)) e w))
        = w_trace w ++ iteration true window fb quad1Program texProgram tex1
          ++ [GlfwWindowShouldClose window])
  /\ (escape_after (env_events e (w_polls w)) (w_escape w) = GLFW_PRESS ->
      fst (loop (S (S (S fuel))) e w) = true
      /\ (occurrences is_glfwSwapBuffers
            (drop (length (w_trace w)) (w_trace (snd (loop (S (S (S fuel))) e w))))
          <= 2)%nat).
Proof.
  intros Hflag body loop w1. subst body loop w1. cbv beta.
  assert (Hpressed : forall (n : nat) (v : world),
             w_should_close v = 0 -> w_escape v = GLFW_PRESS ->
             w_should_close
               (snd (frame window fb quad1Program texProgram tex1 e (record (GlfwWindowShouldClose window) e v))) <> 0
             /\ frameLoop (S (S n)) window fb quad1Program texProgram tex1 e v
                = (true, record (GlfwWindowShouldClose window) e
                           (snd (frame window fb quad1Program texProgram tex1 e (record (GlfwWindowShouldClose window) e v))))
             /\ w_trace (snd (frameLoop (S (S n)) window fb quad1Program texProgram tex1 e v))
                = w_trace v ++ iteration true window fb quad1Program texProgram tex1
                  ++ [GlfwWindowShouldClose window]).
  { intros n v Hv Hk.
    assert (Hup : w_should_close
                    (snd (frame window fb quad1Program texProgram tex1 e (record (GlfwWindowShouldClose window) e v))) <> 0).
    { rewrite frame_close, escape_record, Hk.
      apply close_after_nonzero. done. }
    split; [exact Hup|].
    assert (Hloop : frameLoop (S (S n)) window fb quad1Program texProgram tex1 e v
                    = (true, record (GlfwWindowShouldClose window) e
                               (snd (frame window fb quad1Program texProgram tex1 e (record (GlfwWindowShouldClose window) e v))))).
    {       rewrite (frameLoop_open window fb quad1Program texProgram tex1 e _ v Hv).
      by rewrite (frameLoop_closed window fb quad1Program texProgram tex1 e n _ Hup). }
    split; [exact Hloop|].
    rewrite Hloop. cbn [snd]. rewrite trace_record.
    rewrite frame_trace, trace_record, escape_record, Hk.
    unfold iteration. rewrite <- !app_assoc. reflexivity. }
  split.
  - intros Hk. split; [|by apply Hpressed].
    rewrite keyPoll_run, escape_record, Hk. reflexivity.
  - intros Hev.
    set (w2 := snd (frame window fb quad1Program texProgram tex1 e (record (GlfwWindowShouldClose window) e w))).
    assert (Hopen : frameLoop (S (S (S fuel))) window fb quad1Program texProgram tex1 e w = frameLoop (S (S fuel)) window fb quad1Program texProgram tex1 e w2).
    { unfold w2.
      by rewrite (frameLoop_open window fb quad1Program texProgram tex1 e _ w Hflag). }
    assert (Htr2 : w_trace w2
                   = w_trace w ++ iteration (w_escape w =? GLFW_PRESS) window fb
                       quad1Program texProgram tex1).
    { unfold w2. rewrite frame_trace, trace_record, escape_record.
      unfold iteration. rewrite <- !app_assoc. reflexivity. }
    rewrite Hopen.
    destruct (Z.eq_dec (w_should_close w2) 0) as [Hc2|Hc2].
    + assert (Hk2 : w_escape w2 = GLFW_PRESS).
      { unfold w2. by rewrite frame_escape, polls_record, escape_record. }
      destruct (Hpressed fuel w2 Hc2 Hk2) as (_ & Hloop & Htr).
      split; [by rewrite Hloop|].
      rewrite Htr, Htr2, <- app_assoc, drop_app_length, !occurrences_app,
        !iteration_one_swap.
      cbv. lia.
    + idtac.
      rewrite (frameLoop_closed window fb quad1Program texProgram tex1 e _ w2 Hc2).
      split; [reflexivity|]. cbn [snd].
      rewrite trace_record, Htr2, <- app_assoc, drop_app_length, occurrences_app,
        iteration_one_swap.
      cbv. lia.
Qed.

End FrameClaims.

Section EndClaims.

Lemma filter_none (p : action -> bool) (t : list action) :
  Forall (fun a => p a = false) t -> filter (fun a => p a = true) t = [].
Proof.
  induction 1 as [|a t Ha _ IH]; [done|].
  rewrite filter_cons_False; [done|]. by rewrite Ha.
Qed.

Lemma filter_turns (q : action -> bool) (turn : bool -> list action) (keys : list bool) :
  (forall p, Forall (fun a => q a = false) (turn p)) ->
  filter (fun a => q a = true) (concat (map turn keys)) = [].
Proof.
  intros Hq. induction keys as [|p keys IH]; [done|].
  simpl. by rewrite filter_app, IH, (filter_none q (turn p)).
Qed.

(** C8 (the code departs from the claim).  With a driver that names its
    objects 1, 2, 3, ... and rejects the vertex shader of program A, and
    a user who closes the window during the first frame: [createProgram]
    returns 5 for program A and says so on the standard error stream;
    program B links and is object 5; [main] goes on, leaves the loop,
    runs the shutdown sequence and exits with code 0; and the one
    [glDeleteProgram] of the run is handed 5, which is program B: being
    the program in use, it is flagged for deletion. *)
Theorem shutdown_deletes_program_B :
  let e := plain_env picky_driver close_during_first_frame in
  let r := main 2 e (world_init e) in
  let rA := createProgram quadVertSource quad1FragSource e
              (records (boot_actions (env_window e)) e (world_init e)) in
  let rB := createProgram texVertSource texFragSource e (snd rA) in
  fst rA = Some 5
  /\ stderr (w_trace (snd rA)) = [failure_message VertexCompileFailure]
  /\ gl_programs (w_gl (snd rA)) = ∅
  /\ fst rB = Some 5
  /\ stderr (w_trace (snd rB)) = [failure_message VertexCompileFailure]
  /\ linked_texts (w_gl (snd rB)) 5
     = Some (Some (chars texVertSource), Some (chars texFragSource))
  /\ linked_texts (w_gl (loop_entry e)) 5
     = Some (Some (chars texVertSource), Some (chars texFragSource))
  /\ fst r = Exit 0
  /\ (exists t : list action,
        w_trace (snd r)
        = t ++ GlfwWindowShouldClose (env_window e)
              :: shutdown_actions (env_window e) 5)
  /\ filter (fun a => is_glDeleteProgram a = true) (w_trace (snd r))
     = [GlDeleteProgram 5]
  /\ pr_deleted <$> gl_programs (w_gl (loop_entry e)) !! 5 = Some false
  /\ gl_program (w_gl (snd r)) = 5
  /\ pr_deleted <$> gl_programs (w_gl (snd r)) !! 5 = Some true.
Proof.
  vm_compute. repeat split.
  match goal with
  | |- exists t, ?tr = _ => exists (take (length tr - 6) tr)
  end.
  vm_compute. reflexivity.
Qed.

(** X16.  A run of [main] that entered the loop and is not still in it
    has left it at a loop test, and what follows that test is the whole
    shutdown sequence: the notice, the deletion of the value that
    [createProgram] returned for program A, the release of the context,
    the destruction of the window and the termination of the window
    system; the exit code is 0.  That deletion is the only
    [glDeleteProgram] of the run, so the value returned for program B,
    when it is another one, is never handed to [glDeleteProgram]. *)
Theorem shutdown_runs_to_completion (fuel : nat) (e : env) :
  let r := main fuel e (world_init e) in
  let window := env_window e in
  let qp := quad1Program_of e (world_init e) in
  let tp := texProgram_of e (world_init e) in
  In (GlfwWindowShouldClose window) (w_trace (snd r)) ->
  fst r <> Running ->
  fst r = Exit 0
  /\ (exists (t0 : list action) (fb tex1 : Z) (keys : list bool),
         Forall (fun a => is_startup_call a = true) t0
         /\ keys <> []
         /\ w_trace (snd r)
            = t0 ++ concat (map (fun p => iteration p window fb qp tp tex1) keys)
              ++ GlfwWindowShouldClose window
              :: [ Cout ("Finishing..." ++ endl);
                   GlDeleteProgram qp;
                   GlfwMakeContextCurrent 0;
                   GlfwDestroyWindow window;
                   GlfwTerminate ])
  /\ filter (fun a => is_glDeleteProgram a = true) (w_trace (snd r)) = [GlDeleteProgram qp]
  /\ (tp <> qp -> ~ In (GlDeleteProgram tp) (w_trace (snd r))).
Proof.
  intros r window qp tp Hin Hleft. subst r window qp tp.
  destruct (main_shape fuel e (world_init e) eq_refl)
    as (t0 & Hstart & _ & _ & [(_ & Hw)|(_ & fb & tex1 & keys & _ & _ & Hrun)]).
  { exfalso. rewrite Hw, trace_records in Hin. simpl in Hin.
    rewrite Forall_forall in Hstart. apply list_elem_of_In in Hin.
    apply (startup_not_loop_test _ (env_window e) (Hstart _ Hin)). reflexivity. }
  destruct Hrun as [(Hr & _)|(Hr & Hkeys & Htr)]; [done|].
  simpl app in Htr.
  assert (Hfilter : filter (fun a => is_glDeleteProgram a = true)
                      (w_trace (snd (main fuel e (world_init e))))
                    = [GlDeleteProgram (quad1Program_of e (world_init e))]).
  { rewrite Htr, !filter_app.
    rewrite (filter_none is_glDeleteProgram t0)
      by (eapply Forall_impl; [exact Hstart|apply startup_not_delete]).
    rewrite filter_turns by (intros p; apply iteration_no_glDeleteProgram).
    reflexivity. }
  split; [exact Hr|]. split.
  - exists t0, fb, tex1, keys. split; [done|]. split; [done|]. exact Htr.
  - split; [exact Hfilter|].
    intros Hne Hdel. apply list_elem_of_In in Hdel.
    assert (Hmem : GlDeleteProgram (texProgram_of e (world_init e))
                   ∈ filter (fun a => is_glDeleteProgram a = true)
                       (w_trace (snd (main fuel e (world_init e)))))
      by (by apply list_elem_of_filter).
    rewrite Hfilter in Hmem. apply list_elem_of_singleton in Hmem.
    by inversion Hmem.
Qed.



End EndClaims.

(** ** Witnesses *)

Lemma escape_ends_loop_witness :
  (let e := plain_env accepting_driver no_events in
   let w := escape_held_world accepting_driver in
   w_should_close w = 0 /\ w_escape w = GLFW_PRESS
   /\ fst (frameLoop 2 4096 11 3 6 10 e w) = true)
  /\ (let e := plain_env accepting_driver escape_during_first_frame in
      let w := loop_entry e in
      w_should_close w = 0 /\ w_escape w = GLFW_RELEASE
      /\ escape_after (env_events e (w_polls w)) (w_escape w) = GLFW_PRESS
      /\ fst (frameLoop 3 4096 11 3 6 10 e w) = true).
Proof.
  split.
  - split; [reflexivity|]. split; [reflexivity|].
    destruct (escape_ends_loop 4096 11 3 6 10 (plain_env accepting_driver no_events) 0
                (escape_held_world accepting_driver) eq_refl) as [HA _].
    destruct (HA eq_refl) as (_ & _ & Hloop & _).
    rewrite Hloop. reflexivity.
  - assert (Hflag : w_should_close
                      (loop_entry (plain_env accepting_driver escape_during_first_frame))
                    = 0) by (vm_compute; reflexivity).
    assert (Hev : escape_after
                    (env_events (plain_env accepting_driver escape_during_first_frame)
                       (w_polls (loop_entry
                                   (plain_env accepting_driver escape_during_first_frame))))
                    (w_escape (loop_entry
                                 (plain_env accepting_driver escape_during_first_frame)))
                  = GLFW_PRESS) by (vm_compute; reflexivity).
    split; [exact Hflag|]. split; [vm_compute; reflexivity|]. split; [exact Hev|].
    exact (proj1 (proj2 (escape_ends_loop 4096 11 3 6 10
                           (plain_env accepting_driver escape_during_first_frame) 0
                           (loop_entry (plain_env accepting_driver
                                          escape_during_first_frame)) Hflag) Hev)).
Defined.

Lemma shutdown_runs_to_completion_witness :
  let e := plain_env accepting_driver close_during_first_frame in
  let r := main 2 e (world_init e) in
  In (GlfwWindowShouldClose 4096) (w_trace (snd r))
  /\ fst r <> Running
  /\ fst r = Exit 0.
Proof.
  assert (Hin : In (GlfwWindowShouldClose 4096)
                  (w_trace (snd (main 2 (plain_env accepting_driver close_during_first_frame)
                                   (world_init (plain_env accepting_driver
                                                  close_during_first_frame)))))).
  { vm_compute. repeat (try (left; reflexivity); right). }
  assert (Hleft : fst (main 2 (plain_env accepting_driver close_during_first_frame)
                         (world_init (plain_env accepting_driver close_during_first_frame)))
                  <> Running).
  { vm_compute. discriminate. }
  split; [exact Hin|]. split; [exact Hleft|].
  exact (proj1 (shutdown_runs_to_completion 2
                  (plain_env accepting_driver close_during_first_frame) Hin Hleft)).
Defined.

(** ** Further properties: error descriptions, whole sources, early exits *)

Section EarlyExits.

(** [render] ends by an assertion, is still running, or exits with 0. *)
Lemma render_outcome (fuel : nat) (window quad1Program texProgram : Z) (e : env) (w : world) :
  In (fst (render fuel window quad1Program texProgram e w)) [Aborted; Running; Exit 0].
Proof.
  rewrite render_run. cbv zeta.
  destruct (fst (setup e w)) as [[fb tex1]|]; [|by left].
  destruct (fst (assert_ _ _ e (snd (setup e w)))); [|by left].
  destruct (fst (frameLoop _ _ _ _ _ _ e _)).
  - rewrite shutdown_run. right. right. by left.
  - right. by left.
Qed.

(** X1.  [getErrorDescr] knows eight codes: it gives each of them a
    description of its own, none of which is empty or the fallback text,
    and gives every other code the fallback text. *)
Theorem getErrorDescr_table (c c' : GLenum) :
  (getErrorDescr c = "No description available." <-> ~ In c described_errors)
  /\ (In c described_errors -> In c' described_errors ->
      getErrorDescr c = getErrorDescr c' -> c = c')
  /\ getErrorDescr c <> EmptyString.
Proof.
  assert (Hknown : forall x, In x described_errors ->
            getErrorDescr x <> "No description available."
            /\ getErrorDescr x <> EmptyString).
  { intros x Hx. simpl in Hx.
    repeat (destruct Hx as [<-|Hx]; [split; discriminate|]). destruct Hx. }
  assert (Hother : forall x, ~ In x described_errors ->
            getErrorDescr x = "No description available.").
  { intros x Hx. unfold getErrorDescr.
    repeat match goal with
           | |- context [x =? ?k] =>
               destruct (Z.eqb_spec x k) as [->|_]; [exfalso; apply Hx; simpl; tauto|]
           end.
    reflexivity. }
  split; [|split].
  - split.
    + intros Hd Hin. by destruct (Hknown c Hin).
    + apply Hother.
  - intros Hc Hc' Heq. simpl in Hc, Hc'.
    repeat (destruct Hc as [<-|Hc]; [|]); try destruct Hc;
      repeat (destruct Hc' as [<-|Hc']; [|]); try destruct Hc';
      first [reflexivity | discriminate Heq].
  - destruct (In_dec Z.eq_dec c described_errors) as [Hin|Hout].
    + by destruct (Hknown c Hin).
    + by rewrite (Hother c Hout).
Qed.

(** X2.  The lines [compileShader] hands to [glShaderSource] for a
    source shorter than 2^31 - 1 characters give the source back byte
    for byte exactly when the source is empty or ends in a newline.  The
    four shader texts of the program are that short and end in a
    newline, so the driver receives each of them whole. *)
Theorem sources_submitted_whole (source : list ascii) :
  Z.of_nat (length source) < 2 ^ 31 - 1 ->
  (submission source = Some source <-> source = [] \/ last source = Some newline)
  /\ Forall (fun s => Z.of_nat (length (chars s)) < 2 ^ 31 - 1
                      /\ last (chars s) = Some newline
                      /\ submission (chars s) = Some (chars s))
            [quadVertSource; quad1FragSource; texVertSource; texFragSource].
Proof.
  intros Hlen. split.
  - by apply submission_whole.
  - repeat constructor; vm_compute; reflexivity.
Qed.

Lemma sources_submitted_whole_witness :
  let source := chars unterminated_source in
  Z.of_nat (length source) < 2 ^ 31 - 1
  /\ last source <> Some newline
  /\ submission source <> Some source.
Proof.
  split; [vm_compute; reflexivity|].
  split; [vm_compute; discriminate|].
  destruct (sources_submitted_whole (chars unterminated_source)) as [Hiff _].
  - vm_compute. reflexivity.
  - intros Hs. apply Hiff in Hs. destruct Hs as [Hs|Hs]; vm_compute in Hs; discriminate.
Defined.

(** X3.  The exit codes 3, 1 and 2 of [main] name the step that failed:
    3 exactly when [glfwInit] fails, 1 exactly when no window is created,
    2 exactly when [glewInit] fails; so no failure of [createProgram]
    shows in the exit code.  Each of these runs writes one line to the
    standard error stream and makes no OpenGL call; [glfwTerminate] is
    the last call of the two later failures and is not called when
    [glfwInit] failed. *)
Theorem main_early_exits (fuel : nat) (e : env) (w : world) :
  let r := main fuel e w in
  let t := drop (length (w_trace w)) (w_trace (snd r)) in
  (fst r = Exit 3 <-> env_glfwInit e = 0)
  /\ (fst r = Exit 1 <-> env_glfwInit e <> 0 /\ env_window e = 0)
  /\ (fst r = Exit 2 <->
      env_glfwInit e <> 0 /\ env_window e <> 0 /\ env_glewInit e <> GLEW_OK)
  /\ (fst r = Exit 3 ->
      t = [GlfwInit; Cerr ("Error: glfw init failed." ++ endl)])
  /\ (fst r = Exit 1 ->
      t = [ GlfwInit;
            GlfwWindowHint GLFW_CONTEXT_VERSION_MAJOR 3;
            GlfwWindowHint GLFW_CONTEXT_VERSION_MINOR 3;
            GlfwWindowHint GLFW_OPENGL_PROFILE GLFW_OPENGL_CORE_PROFILE;
            GlfwCreateWindow width height "Shader test";
            Cerr ("Error: window is null." ++ endl);
            GlfwTerminate ])
  /\ (fst r = Exit 2 ->
      t = boot_actions (env_window e)
          ++ [Cerr ("Error: glew not OK." ++ endl); GlfwTerminate]).
Proof.
  cbv zeta. rewrite main_run.
  destruct (Z.eqb_spec (env_glfwInit e) 0) as [Hi|Hi].
  { cbn [fst snd]. rewrite trace_records, drop_app_length.
    repeat split; try done; try tauto; intros; try discriminate; tauto. }
  destruct (Z.eqb_spec (env_window e) 0) as [Hw|Hw].
  { cbn [fst snd]. rewrite trace_records, drop_app_length.
    repeat split; try done; try tauto; intros; try discriminate; tauto. }
  destruct (Z.eqb_spec (env_glewInit e) GLEW_OK) as [Hg|Hg]; cbn [negb].
  2:{ cbn [fst snd]. rewrite trace_records, drop_app_length.
      repeat split; try done; try tauto; intros; try discriminate; tauto. }
  cbv zeta.
  match goal with
  | |- context [render fuel ?a ?b ?c e ?x] =>
      pose proof (render_outcome fuel a b c e x) as Ho;
      destruct (fst (render fuel a b c e x)) eqn:Hr
  end; simpl in Ho;
    repeat split; intros; try discriminate; try tauto;
    repeat (destruct Ho as [Ho|Ho]; try discriminate Ho); try tauto.
  all: try (inversion Ho; subst; discriminate).
Qed.

End EarlyExits.

(** ** Further properties of the loop *)

Section LoopExtras.

Variables (window fb quad1Program texProgram tex1 : Z) (e : env).

Lemma close_after_up (evs : list event) : close_after evs GLFW_TRUE = GLFW_TRUE.
Proof. induction evs as [|[p|] evs IH]; simpl; [done|exact IH|exact IH]. Qed.

(** A close request among the events raises the flag, whatever else is
    among them. *)
Lemma close_after_request (evs : list event) (flag : Z) :
  In CloseRequested evs -> close_after evs flag = GLFW_TRUE.
Proof.
  revert flag. induction evs as [|ev evs IH]; intros flag Hin; [destruct Hin|].
  destruct Hin as [->|Hin].
  - simpl. apply close_after_up.
  - destruct ev as [p|]; simpl.
    + by apply IH.
    + apply close_after_up.
Qed.

Lemma paint_built (tg : target) (f : Z -> Z -> image -> image) (st : gl_state) :
  built (paint tg f st) = built st.
Proof. by destruct tg. Qed.

Lemma paints_built (l : list (Z * target)) (F : Z * target -> Z -> Z -> image -> image)
    (st : gl_state) :
  built (fold_left (fun s kt => paint (snd kt) (F kt) s) l st) = built st.
Proof.
  revert st. induction l as [|kt l IH]; intros st; cbn [fold_left]; [done|].
  by rewrite IH, paint_built.
Qed.

Lemma clear_built (st : gl_state) : built (clear_color_buffers st) = built st.
Proof.
  unfold clear_color_buffers.
  apply (paints_built (draw_targets st)
           (fun _ w h _ => fill w h (store_color (fb_clear_color (gl_fb st))))).
Qed.

Lemma use_program_built (p : GLuint) (st : gl_state) : built (use_program p st) = built st.
Proof.
  unfold use_program. destruct (p =? 0); [done|].
  destruct (gl_programs st !! p) as [o|]; [|done]. by destruct (pr_exe o).
Qed.

Lemma draw_arrays_built (mode : GLenum) (first count : Z) (st : gl_state) :
  built (draw_arrays mode first count st) = built st.
Proof.
  unfold draw_arrays. destruct (mode =? GL_TRIANGLES); [|done].
  destruct (executable st) as [[vs fs]|]; [|done].
  destruct (fetch_vertices (gl_vertex st) first count) as [verts|]; [|done].
  cbv zeta.
  destruct (fs_sampler_unit fs) as [u|].
  - change (built (set_sampled ?f ?s)) with (built s).
    apply (paints_built (draw_targets st)
             (fun kt w h img => raster_all _ fs _ (fst kt) w h _ img)).
  - apply (paints_built (draw_targets st)
             (fun kt w h img => raster_all _ fs _ (fst kt) w h _ img)).
Qed.




(** X4.  A request to close the window that arrives while a turn of the
    loop runs ends the loop at the next test: the turn is finished, its
    frame is shown by the one buffer swap of the run, and no further
    turn runs.  This holds whether or not escape is pressed as well. *)
Theorem close_request_ends_loop (fuel : nat) (w : world) :
  w_should_close w = 0 ->
  In CloseRequested (env_events e (w_polls w)) ->
  let body := frame window fb quad1Program texProgram tex1 in
  let w1 := record (GlfwWindowShouldClose window) e w in
  let l := frameLoop (S (S fuel)) window fb quad1Program texProgram tex1 e w in
  w_should_close (snd (body e w1)) = GLFW_TRUE
  /\ l = (true, record (GlfwWindowShouldClose window) e (snd (body e w1)))
  /\ w_trace (snd l)
     = w_trace w
       ++ iteration (w_escape w =? GLFW_PRESS) window fb quad1Program texProgram tex1
       ++ [GlfwWindowShouldClose window]
  /\ occurrences is_glfwSwapBuffers (drop (length (w_trace w)) (w_trace (snd l))) = 1%nat.
Proof.
  intros Hc Hin body w1 l. subst body w1 l.
  assert (Hup : w_should_close
                  (snd (frame window fb quad1Program texProgram tex1 e
                          (record (GlfwWindowShouldClose window) e w))) = GLFW_TRUE).
  { rewrite frame_close, polls_record. by apply close_after_request. }
  assert (Hloop : frameLoop (S (S fuel)) window fb quad1Program texProgram tex1 e w
                  = (true, record (GlfwWindowShouldClose window) e
                             (snd (frame window fb quad1Program texProgram tex1 e
                                     (record (GlfwWindowShouldClose window) e w))))).
  { rewrite (frameLoop_open window fb quad1Program texProgram tex1 e _ w Hc).
    apply frameLoop_closed. by rewrite Hup. }
  assert (Htr : w_trace (snd (frameLoop (S (S fuel)) window fb quad1Program texProgram
                                tex1 e w))
                = w_trace w
                  ++ iteration (w_escape w =? GLFW_PRESS) window fb quad1Program
                       texProgram tex1
                  ++ [GlfwWindowShouldClose window]).
  { rewrite Hloop. cbn [snd].
    rewrite trace_record, frame_trace, trace_record, escape_record.
    unfold iteration. rewrite <- !app_assoc. reflexivity. }
  split; [exact Hup|]. split; [exact Hloop|]. split; [exact Htr|].
  rewrite Htr, drop_app_length, occurrences_app, iteration_one_swap. reflexivity.
Qed.


End LoopExtras.

Lemma close_request_ends_loop_witness :
  let e := plain_env accepting_driver close_during_first_frame in
  let w := world_init e in
  w_should_close w = 0
  /\ In CloseRequested (env_events e (w_polls w))
  /\ fst (frameLoop 2 4096 11 3 6 10 e w) = true.
Proof.
  split; [reflexivity|]. split; [left; reflexivity|].
  destruct (close_request_ends_loop 4096 11 3 6 10
              (plain_env accepting_driver close_during_first_frame) 0
              (world_init (plain_env accepting_driver close_during_first_frame))
              eq_refl (or_introl eq_refl)) as (_ & Hloop & _).
  rewrite Hloop. reflexivity.
Defined.

(** ** Which objects [createProgram] deletes *)

Section Deletions.

Variable e : env.

Let d : driver := env_driver e.

Lemma compileLines_calls (shader : GLuint) (buf : list ascii) (lines : shader_lines)
    (w : world) :
  exists t : list action,
    snd (compileLines shader buf lines e w) = records t e w
    /\ Forall (fun a => is_compile_call a = true) t.
Proof.
  unfold compileLines. rewrite !bind_run.
  unfold glShaderSource, glCompileShader, glGetShaderiv, glGetShaderInfoLog, cout, call,
    query, ret. cbn [fst snd].
  match goal with |- context [if ?c then _ else _] => destruct c end.
  - rewrite !bind_run. cbn [fst snd].
    eexists [_; _; _; _; _; _; _]. split; [reflexivity|]. repeat constructor.
  - eexists [_; _; _; _]. split; [reflexivity|]. repeat constructor.
Qed.

Lemma compileShader_calls (shader : GLuint) (source : string) (w : world) :
  exists t : list action,
    snd (compileShader shader source e w) = records t e w
    /\ Forall (fun a => is_compile_call a = true) t.
Proof.
  rewrite compileShader_split. destruct (split_lines (chars source)) as [lines|].
  - apply compileLines_calls.
  - exists []. by split.
Qed.

Lemma compile_call_quiet (t : list action) :
  Forall (fun a => is_compile_call a = true) t ->
  Forall (fun a => deletes_nothing a = true) t /\ stderr t = [].
Proof.
  induction 1 as [|a t Ha _ [IH1 IH2]]; [by split|].
  split; [constructor; [by destruct a|done]|].
  destruct a; try discriminate Ha; exact IH2.
Qed.

Lemma quiet_snoc (a : action) (t : list action) :
  Forall (fun a => deletes_nothing a = true) t -> deletes_nothing a = true ->
  Forall (fun a => deletes_nothing a = true) (t ++ [a]).
Proof. intros Ht Ha. apply Forall_app. split; [done|]. by constructor. Qed.

(** A run of [createProgram] after its first call: either a failure or
    a call of [compileShader] that does not return, neither of which
    deletes anything, or the success, whose last two calls delete the
    two shaders, which deletes nothing else and which attaches the two
    shaders to the new program and makes only calls for the log and the
    status after it has linked. *)
Lemma createProgram_deletions (vertSource fragSource : string) (w : world) :
  let vs := drv_name d (gl_allocs (w_gl w)) in
  let w1 := record (GlCreateShader GL_VERTEX_SHADER) e w in
  let fs := drv_name d (gl_allocs (w_gl w1)) in
  let r := createProgram vertSource fragSource e w in
  (exists t : list action,
      snd r = records t e w1
      /\ (stderr t <> [] \/ fst r = None)
      /\ (fst r = None -> stderr t = [])
      /\ Forall (fun a => deletes_nothing a = true) t
      /\ (vs <> 0 -> exists t' : list action, t = GlCreateShader GL_FRAGMENT_SHADER :: t'))
  \/ (exists t0 : list action,
         snd r = records (t0 ++ [GlDeleteShader vs; GlDeleteShader fs]) e w1
         /\ stderr t0 = []
         /\ Forall (fun a => deletes_nothing a = true) t0
         /\ exists (t3 tq : list action) (p : GLuint),
              t0 = t3 ++ [GlCreateProgram; GlAttachShader p vs; GlAttachShader p fs;
                          GlLinkProgram p] ++ tq
              /\ Forall (fun a => is_log_call a = true) tq
              /\ p = drv_name d (gl_allocs (w_gl (records t3 e w1)))
              /\ p <> 0
              /\ fst r = Some p
              /\ vs <> 0 /\ fs <> 0
              /\ exists t' : list action, t3 = GlCreateShader GL_FRAGMENT_SHADER :: t').
Proof.
  intros vs w1 fs r.
  remember (createProgram vertSource fragSource e w) as r0 eqn:Hr. subst r.
  unfold createProgram, glCreateShader, glCreateProgram, glAttachShader, glLinkProgram,
    glGetProgramiv, glDeleteShader, cerr, call, query, ret in Hr.
  rewrite bind_run in Hr. cbn [fst snd] in Hr.
  change (drv_name (env_driver e) (gl_allocs (w_gl w))) with vs in Hr.
  change (record (GlCreateShader GL_VERTEX_SHADER) e w) with w1 in Hr.
  destruct (vs =? 0) eqn:Hvs.
  { rewrite bind_run in Hr. cbn [fst snd] in Hr. subst r0. cbn [fst snd].
    left. eexists [_]. split; [reflexivity|]. split; [left; discriminate|].
    split; [discriminate|].
    split; [by repeat constructor|].
    intros Hne. by apply Z.eqb_eq in Hvs. }
  rewrite bind_run in Hr. cbn [fst snd] in Hr.
  change (drv_name (env_driver e) (gl_allocs (w_gl w1))) with fs in Hr.
  change (record (GlCreateShader GL_FRAGMENT_SHADER) e w1)
    with (records [GlCreateShader GL_FRAGMENT_SHADER] e w1) in Hr.
  set (t1 := [GlCreateShader GL_FRAGMENT_SHADER]) in Hr.
  assert (Q1 : Forall (fun a => deletes_nothing a = true) t1) by (by repeat constructor).
  assert (S1 : stderr t1 = []) by reflexivity.
  assert (F1 : exists t', t1 = GlCreateShader GL_FRAGMENT_SHADER :: t') by (by exists []).
  clearbody t1.
  destruct (fs =? 0) eqn:Hfs.
  { rewrite bind_run in Hr. cbn [fst snd] in Hr.
    rewrite records_snoc in Hr. subst r0. cbn [fst snd].
    left. eexists. split; [reflexivity|].
    split; [left; rewrite stderr_app, S1; discriminate|].
    split; [discriminate|].
    split; [by apply quiet_snoc|].
    intros _. destruct F1 as (t' & ->). by eexists. }
  rewrite bind_run in Hr.
  destruct (compileShader_calls vs vertSource (records t1 e w1)) as (tv & Hv & Cv).
  destruct (compile_call_quiet tv Cv) as [Qv Sv].
  rewrite Hv, <- records_app in Hr.
  assert (Q2 : Forall (fun a => deletes_nothing a = true) (t1 ++ tv))
    by (by apply Forall_app).
  assert (S2 : stderr (t1 ++ tv) = []) by (by rewrite stderr_app, S1, Sv).
  assert (F2 : exists t', t1 ++ tv = GlCreateShader GL_FRAGMENT_SHADER :: t').
  { destruct F1 as (t' & ->). by eexists. }
  set (t2 := t1 ++ tv) in *. clearbody t2. clear Q1 S1 F1 Cv Qv Sv Hv.
  destruct (fst (compileShader vs vertSource e (records t1 e w1))) as [[|]|].
  3:{ subst r0. cbn [ret fst snd].
      left. eexists. split; [reflexivity|].
      split; [by right|]. split; [done|]. split; [exact Q2|].
      intros _. exact F2. }
  2:{ cbn [negb] in Hr.
    rewrite bind_run in Hr. cbn [fst snd] in Hr. rewrite records_snoc in Hr.
    subst r0. cbn [fst snd].
    left. eexists. split; [reflexivity|].
    split; [left; rewrite stderr_app, S2; discriminate|].
    split; [discriminate|].
    split; [by apply quiet_snoc|].
    intros _. destruct F2 as (t' & ->). by eexists. }
  cbn [negb] in Hr.
  rewrite bind_run in Hr.
  destruct (compileShader_calls fs fragSource (records t2 e w1)) as (tf & Hf & Cf).
  destruct (compile_call_quiet tf Cf) as [Qf Sf].
  rewrite Hf, <- records_app in Hr.
  assert (Q3 : Forall (fun a => deletes_nothing a = true) (t2 ++ tf))
    by (by apply Forall_app).
  assert (S3 : stderr (t2 ++ tf) = []) by (by rewrite stderr_app, S2, Sf).
  assert (F3 : exists t', t2 ++ tf = GlCreateShader GL_FRAGMENT_SHADER :: t').
  { destruct F2 as (t' & ->). by eexists. }
  set (t3 := t2 ++ tf) in *. clearbody t3. clear Q2 S2 F2 Cf Qf Sf Hf.
  destruct (fst (compileShader fs fragSource e (records t2 e w1))) as [[|]|].
  3:{ subst r0. cbn [ret fst snd].
      left. eexists. split; [reflexivity|].
      split; [by right|]. split; [done|]. split; [exact Q3|].
      intros _. exact F3. }
  2:{ cbn [negb] in Hr.
    rewrite bind_run in Hr. cbn [fst snd] in Hr. rewrite records_snoc in Hr.
    subst r0. cbn [fst snd].
    left. eexists. split; [reflexivity|].
    split; [left; rewrite stderr_app, S3; discriminate|].
    split; [discriminate|].
    split; [by apply quiet_snoc|].
    intros _. destruct F3 as (t' & ->). by eexists. }
  cbn [negb] in Hr.
  rewrite bind_run in Hr. cbn [fst snd] in Hr.
  set (program := drv_name (env_driver e) (gl_allocs (w_gl (records t3 e w1)))) in Hr.
  rewrite records_snoc in Hr.
  destruct (program =? 0) eqn:Hp.
  { rewrite bind_run in Hr. cbn [fst snd] in Hr.
    rewrite records_snoc in Hr. subst r0. cbn [fst snd].
    left. eexists. split; [reflexivity|].
    split; [left; rewrite !stderr_app, S3; discriminate|].
    split; [discriminate|].
    split; [do 2 (apply quiet_snoc; [|reflexivity]); done|].
    intros _. destruct F3 as (t' & ->). by eexists. }
  do 4 (rewrite bind_run in Hr; cbn [fst snd] in Hr; rewrite records_snoc in Hr).
  rewrite <- !app_assoc in Hr. cbn [app] in Hr.
  set (tail4 := [GlCreateProgram; GlAttachShader program vs; GlAttachShader program fs;
                 GlLinkProgram program; GlGetProgramiv program GL_INFO_LOG_LENGTH]) in Hr.
  assert (Q4 : Forall (fun a => deletes_nothing a = true) (t3 ++ tail4))
    by (apply Forall_app; split; [done|by repeat constructor]).
  assert (S4 : stderr (t3 ++ tail4) = []) by (by rewrite stderr_app, S3).
  assert (F4 : exists t', t3 ++ tail4 = GlCreateShader GL_FRAGMENT_SHADER :: t').
  { destruct F3 as (t' & ->). by eexists. }
  clear Q3 S3.
  set (t4 := t3 ++ tail4) in *.
  rewrite bind_run in Hr.
  match type of Hr with
  | context [snd ((if 0 <? ?n then ?m1 else ?m2) e ?W)] =>
      assert (exists tl : list action,
                 snd ((if 0 <? n then m1 else m2) e W) = records tl e W
                 /\ Forall (fun a => deletes_nothing a = true) tl
                 /\ Forall (fun a => is_log_call a = true) tl
                 /\ stderr tl = []) as (tl & Hl & Ql & Ll & Sl)
  end.
  { match goal with |- context [if ?c then _ else _] => destruct c end.
    - rewrite !bind_run. cbn [fst snd].
      eexists [_; _; _]. split; [reflexivity|]. split; [by repeat constructor|].
      split; [by repeat constructor|reflexivity].
    - exists []. split; [reflexivity|]. split; [constructor|]. split; [constructor|].
      reflexivity. }
  rewrite Hl, <- records_app in Hr.
  assert (Q5 : Forall (fun a => deletes_nothing a = true) (t4 ++ tl))
    by (by apply Forall_app).
  assert (S5 : stderr (t4 ++ tl) = []) by (by rewrite stderr_app, S4, Sl).
  assert (F5 : exists t', t4 ++ tl = GlCreateShader GL_FRAGMENT_SHADER :: t').
  { destruct F4 as (t' & ->). by eexists. }
  set (t5 := t4 ++ tl) in *.
  rewrite bind_run in Hr. cbn [fst snd] in Hr. rewrite records_snoc in Hr.
  match type of Hr with context [if ?c then _ else _] => destruct c end.
  { rewrite bind_run in Hr. cbn [fst snd] in Hr.
    rewrite records_snoc in Hr. subst r0. cbn [fst snd].
    left. eexists. split; [reflexivity|].
    split; [left; rewrite !stderr_app, S5; discriminate|].
    split; [discriminate|].
    split; [do 2 (apply quiet_snoc; [|reflexivity]); done|].
    intros _. destruct F5 as (t' & ->). by eexists. }
  rewrite !bind_run in Hr. cbn [fst snd] in Hr.
  rewrite !records_snoc in Hr. subst r0. cbn [fst snd].
  right. exists (t5 ++ [GlGetProgramiv program GL_LINK_STATUS]).
  split; [by rewrite <- !app_assoc|].
  split; [by rewrite stderr_app, S5|].
  split; [by apply quiet_snoc|].
  exists t3, ([GlGetProgramiv program GL_INFO_LOG_LENGTH] ++ tl
              ++ [GlGetProgramiv program GL_LINK_STATUS]), program.
  split.
  { unfold t5, t4, tail4. rewrite <- !app_assoc. reflexivity. }
  split.
  { apply Forall_app. split; [by repeat constructor|].
    apply Forall_app. split; [exact Ll|by repeat constructor]. }
  split; [reflexivity|]. split; [by apply Z.eqb_neq|].
  split; [reflexivity|]. split; [by apply Z.eqb_neq|].
  split; [by apply Z.eqb_neq|exact F3].
Qed.

(** A call that is no deletion leaves every shader object in the context. *)
Lemma shader_kept (st : gl_state) (a : action) (x : GLuint) :
  deletes_nothing a = true ->
  is_Some (gl_shaders st !! x) -> is_Some (gl_shaders (gl_step d st a) !! x).
Proof.
  intros Ha Hx.
  assert (Hsame : forall s, built s = built st -> is_Some (gl_shaders s !! x)).
  { intros s Hs. unfold built in Hs.
    assert (Heq : gl_shaders s = gl_shaders st) by congruence. by rewrite Heq. }
  destruct a; try discriminate Ha; try exact Hx; cbn [gl_step];
    try (by repeat match goal with |- context [if ?c then _ else _] => destruct c end).
  - cbv zeta. destruct (drv_name d (gl_allocs st) =? 0); [exact Hx|].
    cbn [set_allocs set_shaders gl_shaders].
    destruct (decide (drv_name d (gl_allocs st) = x)) as [->|Hne].
    + rewrite lookup_insert_eq. by eexists.
    + by rewrite lookup_insert_ne.
  - match goal with |- context [if ?c then _ else _] => destruct c end; [exact Hx|].
    unfold set_shaders. cbn [gl_shaders]. by rewrite lookup_alter_is_Some.
  - unfold set_shaders. cbn [gl_shaders]. by rewrite lookup_alter_is_Some.
  - apply Hsame, use_program_built.
  - match goal with |- context [if ?c then _ else _] => destruct c end;
      [apply Hsame, clear_built|exact Hx].
  - apply Hsame, draw_arrays_built.
Qed.

Lemma shaders_kept (t : list action) (st : gl_state) (x : GLuint) :
  Forall (fun a => deletes_nothing a = true) t ->
  is_Some (gl_shaders st !! x) ->
  is_Some (gl_shaders (fold_left (gl_step d) t st) !! x).
Proof.
  intros Ht. revert st. induction Ht as [|a t Ha _ IH]; intros st Hx; [done|].
  cbn [fold_left]. apply IH. by apply shader_kept.
Qed.

Lemma created_shader (st : gl_state) (type : GLenum) :
  gl_allocs (gl_step d st (GlCreateShader type)) = S (gl_allocs st)
  /\ (drv_name d (gl_allocs st) <> 0 ->
      is_Some (gl_shaders (gl_step d st (GlCreateShader type))
               !! drv_name d (gl_allocs st))).
Proof.
  cbn [gl_step]. cbv zeta. split.
  - by destruct (drv_name d (gl_allocs st) =? 0).
  - intros Hn. apply Z.eqb_neq in Hn. rewrite Hn.
    cbn [set_allocs set_shaders gl_shaders]. rewrite lookup_insert_eq. by eexists.
Qed.

Lemma occurrences_cons_false (p : action -> bool) (a : action) (t : list action) :
  p a = false -> occurrences p (a :: t) = occurrences p t.
Proof. intros Ha. unfold occurrences. rewrite filter_cons_False; [done|]. by rewrite Ha. Qed.

Lemma stderr_cons_other (a : action) (t : list action) :
  match a with Cerr _ => False | _ => True end -> stderr (a :: t) = stderr t.
Proof. by destruct a. Qed.

Lemma deletions_none (t : list action) :
  Forall (fun a => deletes_nothing a = true) t ->
  occurrences is_glDeleteShader t = 0%nat /\ occurrences is_glDeleteProgram t = 0%nat.
Proof.
  intros Ht. split; apply occurrences_none; eapply Forall_impl; try exact Ht;
    intros a Ha; by destruct a.
Qed.

Lemma attached_somewhere_intro (q : gmap Z program_obj) (p s : GLuint) (o : program_obj) :
  q !! p = Some o -> In s (pr_attached o) -> attached_somewhere q s = true.
Proof.
  intros Hq Hs. unfold attached_somewhere. apply existsb_exists.
  exists (p, o). split.
  - apply list_elem_of_In. by apply elem_of_map_to_list.
  - cbn [snd]. apply existsb_exists. exists s. split; [exact Hs|apply Z.eqb_refl].
Qed.

(** [glDeleteShader] on a shader that a program has attached only flags
    it. *)
Lemma delete_attached_shader (st : gl_state) (s p : GLuint) (o : program_obj) :
  gl_programs st !! p = Some o -> In s (pr_attached o) ->
  gl_step d st (GlDeleteShader s) = set_shaders (alter flag_shader s) st.
Proof.
  intros Hq Hs. cbn [gl_step]. unfold delete_shader.
  by rewrite (attached_somewhere_intro _ p s o Hq Hs).
Qed.

Lemma log_calls_silent (t : list action) (st : gl_state) :
  Forall (fun a => is_log_call a = true) t -> fold_left (gl_step d) t st = st.
Proof.
  induction 1 as [|a t Ha _ IH]; [done|].
  cbn [fold_left]. replace (gl_step d st a) with st by (by destruct a). exact IH.
Qed.

(** The program object that the calls of lines 113-120 leave. *)
Lemma attached_after_link (st : gl_state) (vs fs : GLuint) :
  let p := drv_name d (gl_allocs st) in
  p <> 0 ->
  exists o : program_obj,
    gl_programs (fold_left (gl_step d)
                   [GlCreateProgram; GlAttachShader p vs; GlAttachShader p fs;
                    GlLinkProgram p] st) !! p = Some o
    /\ pr_attached o = [vs; fs].
Proof.
  intros p Hp. apply Z.eqb_neq in Hp.
  cbn [fold_left gl_step]. cbv zeta. fold p. rewrite Hp.
  cbn [set_allocs set_programs gl_programs gl_shaders].
  rewrite !lookup_alter_eq, lookup_insert_eq. cbn [fmap option_fmap option_map].
  eexists. split; reflexivity.
Qed.

(** X6.  [createProgram] asks for the deletion of objects on one path
    only.  A run that succeeds ends with [glDeleteShader] on its two
    shader objects; the program still has both attached, since nothing
    detaches them, so they are flagged for deletion and stay in the
    context.  A run that fails, for whatever reason, or in which
    [compileShader] does not return, makes no such call: the shader
    objects it has created by then are still in the context, with no
    one left to delete them.  No run deletes a program object. *)
Theorem createProgram_deletes_on_success_only (vertSource fragSource : string) (w : world) :
  let vs := drv_name d (gl_allocs (w_gl w)) in
  let fs := drv_name d (S (gl_allocs (w_gl w))) in
  let r := createProgram vertSource fragSource e w in
  let t := drop (length (w_trace w)) (w_trace (snd r)) in
  let st' := w_gl (snd r) in
  occurrences is_glDeleteProgram t = 0%nat
  /\ (((stderr t <> [] \/ fst r = None)
       /\ occurrences is_glDeleteShader t = 0%nat
       /\ (vs <> 0 -> is_Some (gl_shaders st' !! vs))
       /\ (vs <> 0 -> fs <> 0 -> is_Some (gl_shaders st' !! fs)))
      \/ (stderr t = []
          /\ (exists t0 : list action,
                 t = t0 ++ [GlDeleteShader vs; GlDeleteShader fs]
                 /\ occurrences is_glDeleteShader t0 = 0%nat)
          /\ sh_deleted <$> gl_shaders st' !! vs = Some true
          /\ sh_deleted <$> gl_shaders st' !! fs = Some true
          /\ exists (p : GLuint) (o : program_obj),
               fst r = Some p /\ gl_programs st' !! p = Some o
               /\ pr_attached o = [vs; fs])).
Proof.
  intros vs fs r t st'. subst r t st'.
  destruct (created_shader (w_gl w) GL_VERTEX_SHADER) as [Hk Hv]. fold vs in Hv.
  assert (Hfs : drv_name d (gl_allocs (w_gl (record (GlCreateShader GL_VERTEX_SHADER) e w)))
                = fs).
  { rewrite gl_record. fold d. by rewrite Hk. }
  destruct (createProgram_deletions vertSource fragSource w)
    as [(t & Hw & Hs & Hn & Hq & Hf)
       |(t0 & Hw & Hs & Hq & t3 & tq & p & Ht0 & Hlog & Hp & Hp0 & Hr & Hvs & Hfs0 & t' & Ht3)];
    rewrite Hw; rewrite ?Hfs in *; clear Hw;
    rewrite trace_records, gl_records, gl_record, trace_record;
    fold d; rewrite <- app_assoc, drop_app_length; cbn [app].
  - destruct (deletions_none t Hq) as [Hds Hdp].
    split; [by rewrite occurrences_cons_false|]. left.
    split.
    { destruct Hs as [Hs|Hs]; [left|by right]. by rewrite stderr_cons_other. }
    split; [by rewrite occurrences_cons_false|].
    split.
    + intros Hne. apply shaders_kept; [exact Hq|by apply Hv].
    + intros Hne Hne'. destruct (Hf Hne) as (t' & ->).
      apply Forall_cons in Hq as [_ Hq]. cbn [fold_left].
      apply shaders_kept; [exact Hq|].
      destruct (created_shader (gl_step d (w_gl w) (GlCreateShader GL_VERTEX_SHADER))
                  GL_FRAGMENT_SHADER) as [_ Hf'].
      rewrite Hk in Hf'. by apply Hf'.
  - destruct (deletions_none t0 Hq) as [Hds Hdp].
    split.
    { rewrite occurrences_cons_false by reflexivity.
      rewrite occurrences_app, Hdp. reflexivity. }
    right.
    split; [rewrite stderr_cons_other by exact I; by rewrite stderr_app, Hs|].
    split.
    { exists (GlCreateShader GL_VERTEX_SHADER :: t0). split; [reflexivity|].
      by rewrite occurrences_cons_false. }
    set (S1 := gl_step d (w_gl w) (GlCreateShader GL_VERTEX_SHADER)) in *.
    rewrite fold_left_app.
    set (S0 := fold_left (gl_step d) t0 S1).
    (* the program has both shaders attached *)
    assert (HP : exists o : program_obj,
               gl_programs S0 !! p = Some o /\ pr_attached o = [vs; fs]).
    { subst S0. rewrite Ht0, !fold_left_app, (log_calls_silent tq) by exact Hlog.
      rewrite gl_records, gl_record in Hp. fold d S1 in Hp. rewrite Hp.
      apply attached_after_link. by rewrite <- Hp. }
    destruct HP as (o & Ho & Hatt).
    (* both shaders are in the context *)
    assert (HV : is_Some (gl_shaders S0 !! vs)).
    { apply shaders_kept; [exact Hq|by apply Hv]. }
    assert (HF : is_Some (gl_shaders S0 !! fs)).
    { assert (Ht0' : exists t'', t0 = GlCreateShader GL_FRAGMENT_SHADER :: t'').
      { rewrite Ht0, Ht3. by eexists. }
      destruct Ht0' as (t'' & Ht0').
      unfold S0. clear Ho HV. revert Hq. rewrite Ht0'. intros Hq.
      apply Forall_cons in Hq as [_ Hq]. cbn [fold_left].
      apply shaders_kept; [exact Hq|].
      destruct (created_shader S1 GL_FRAGMENT_SHADER) as [_ Hf'].
      rewrite Hk in Hf'. fold fs in Hf'. by apply Hf'. }
    assert (D1 : gl_step d S0 (GlDeleteShader vs) = set_shaders (alter flag_shader vs) S0).
    { apply (delete_attached_shader S0 vs p o Ho). rewrite Hatt. by left. }
    assert (D2 : gl_step d (set_shaders (alter flag_shader vs) S0) (GlDeleteShader fs)
                 = set_shaders (alter flag_shader fs) (set_shaders (alter flag_shader vs) S0)).
    { apply (delete_attached_shader (set_shaders (alter flag_shader vs) S0) fs p o);
        [exact Ho|]. rewrite Hatt. right. by left. }
    cbn [fold_left]. fold vs. rewrite D1, D2. cbn [set_shaders gl_shaders gl_programs].
    destruct HV as [ov Hov]. destruct HF as [ofs Hof].
    split; [|split].
    + destruct (decide (vs = fs)) as [Heq|Hne].
      * rewrite <- Heq, !lookup_alter_eq, Hov. reflexivity.
      * rewrite lookup_alter_ne by done. rewrite lookup_alter_eq, Hov. reflexivity.
    + rewrite lookup_alter_eq.
      destruct (decide (vs = fs)) as [Heq|Hne].
      * rewrite <- Heq, lookup_alter_eq, Hov. reflexivity.
      * rewrite lookup_alter_ne by done. rewrite Hof. reflexivity.
    + exists p, o. split; [exact Hr|]. split; [exact Ho|exact Hatt].
Qed.

End Deletions.

(** ** Further properties of the two passes *)

Section PassExtras.

Variable d : driver.

Local Arguments gl_step : simpl never.










End PassExtras.

Section FrameExtras.

Variables (d : driver) (window fb qp tp tex0 tex1 : GLuint) (st : gl_state).

(** While the draw buffers are as created, the clear of pass A does not
    reach the second texture: around the quad it stays as it was. *)
Lemma frame_keeps_surround :
  loop_ready fb qp tp tex0 tex1 st ->
  draw_buffers st fb = Some [GL_COLOR_ATTACHMENT0] ->
  forall x y, in_quad x y = false ->
    texel_at (fold_left (gl_step d) (frame_actions false window fb qp tp tex1) st) tex1 x y
    = texel_at st tex1 x y.
Proof.
  intros Hready Hdb x y Hq.
  destruct (frame_texture d window fb qp tp tex0 tex1 st Hready)
    as (t1 & under & Ht1 & Ht & Hunder & _).
  unfold texel_at. rewrite Ht, Ht1. cbn [mbind option_bind tex_image].
  by rewrite raster_quadA, Hq, (Hunder Hdb).
Qed.

(** X8.  In a context in which the loop is entered as [main] enters it,
    one frame leaves the window showing the second texture, texel by
    texel, with alpha 1, whatever that texture holds.  In the first
    frame, when the draw buffers of the framebuffer object are still as
    created, the clear of pass A does not reach that texture: around
    the quad it holds what it held before the frame.  After the frame
    the default framebuffer is bound for drawing, program B is current
    and no texture is bound to unit 0. *)
Theorem frame_shows_second_texture :
  loop_ready fb qp tp tex0 tex1 st ->
  let st' := fold_left (gl_step d) (frame_actions false window fb qp tp tex1) st in
  (forall x y, in_window x y = true ->
     shown st' x y = resampled <$> texel_at st' tex1 x y)
  /\ (draw_buffers st fb = Some [GL_COLOR_ATTACHMENT0] ->
      forall x y, in_quad x y = false -> texel_at st' tex1 x y = texel_at st tex1 x y)
  /\ gl_program st' = tp
  /\ fb_draw (gl_fb st') = 0
  /\ unit_texture (gl_tex st') 0 = 0.
Proof.
  intros Hready st'. subst st'.
  split; [intros x y; apply (frame_shown d window fb qp tp tex0 tex1 st Hready)|].
  split.
  - intros Hdb x y Hq. by apply frame_keeps_surround.
  - destruct (frame_state_any d window fb qp tp tex0 tex1 st Hready)
      as (c & o & _ & ->).
    cbv zeta. cbn [gl_program gl_fb fb_draw gl_tex]. unfold unit_texture.
    cbn [tx_units]. by rewrite lookup_insert_eq.
Qed.

End FrameExtras.


Lemma frame_shows_second_texture_witness :
  let st := w_gl (loop_entry (plain_env accepting_driver no_events)) in
  let st' := fold_left (gl_step accepting_driver) (frame_actions false 4096 11 3 6 10) st in
  loop_ready 11 3 6 9 10 st
  /\ shown st' 400 300 = resampled <$> texel_at st' 10 400 300
  /\ texel_at st' 10 0 0 = texel_at st 10 0 0.
Proof.
  split; [exact accepting_entry_ready|].
  destruct (frame_shows_second_texture accepting_driver 4096 11 3 6 9 10
              (w_gl (loop_entry (plain_env accepting_driver no_events)))
              accepting_entry_ready) as (Hshown & Hfirst & _).
  split; [exact (Hshown 400 300 eq_refl)|].
  apply Hfirst; [|reflexivity].
  vm_compute. reflexivity.
Defined.


(** ** From the start of [main] to the loop *)

Section Startup.

Variable e : env.

Let d : driver := env_driver e.

(** Calls that leave the context as it is. *)
Lemma silent_call (st : gl_state) (a : action) :
  match a with
  | GlfwInit | GlfwWindowHint _ _ | GlfwMakeContextCurrent _ | GlewInit
  | GlGetShaderiv _ _ | GlGetShaderInfoLog _ _ | GlGetProgramiv _ _
  | GlGetProgramInfoLog _ _ | GlBindVertexArray _ | GlCheckFramebufferStatus _
  | GlDepthMask _ | GlDisable _ | Cout _ | Cerr _ | AssertFailed _ => True
  | _ => False
  end -> gl_step d st a = st.
Proof. by destruct a. Qed.

Lemma with_build_id (st : gl_state) :
  with_build (gl_allocs st) (gl_shaders st) (gl_programs st) st = st.
Proof. by destruct st. Qed.

(** The calls of [createProgram], one by one, on a context written as
    [with_build]. *)
Lemma build_create_shader (k : nat) (s : gmap Z shader_obj) (q : gmap Z program_obj)
    (st : gl_state) (type : GLenum) :
  drv_name d k <> 0 ->
  gl_step d (with_build k s q st) (GlCreateShader type) =
  with_build (S k) (<[drv_name d k := new_shader type]> s) q st.
Proof.
  intros Hn. apply Z.eqb_neq in Hn.
  change (gl_step d (with_build k s q st) (GlCreateShader type))
    with (set_allocs S (if drv_name d k =? 0 then with_build k s q st
                        else set_shaders (insert (drv_name d k) (new_shader type))
                               (with_build k s q st))).
  by rewrite Hn.
Qed.

Lemma build_create_program (k : nat) (s : gmap Z shader_obj) (q : gmap Z program_obj)
    (st : gl_state) :
  drv_name d k <> 0 ->
  gl_step d (with_build k s q st) GlCreateProgram =
  with_build (S k) s (<[drv_name d k := new_program]> q) st.
Proof.
  intros Hn. apply Z.eqb_neq in Hn.
  change (gl_step d (with_build k s q st) GlCreateProgram)
    with (set_allocs S (if drv_name d k =? 0 then with_build k s q st
                        else set_programs (insert (drv_name d k) new_program)
                               (with_build k s q st))).
  by rewrite Hn.
Qed.

Lemma build_shader_source (k : nat) (s : gmap Z shader_obj) (q : gmap Z program_obj)
    (st : gl_state) (x : GLuint) (buf : list ascii) (lines : shader_lines) :
  0 <= sl_count lines ->
  gl_step d (with_build k s q st) (GlShaderSource x buf lines) =
  with_build k (alter (shader_source (submitted_text buf lines)) x s) q st.
Proof.
  intros Hc. apply Z.ltb_ge in Hc. cbn [gl_step]. by rewrite Hc.
Qed.

Lemma build_compile_shader (k : nat) (s : gmap Z shader_obj) (q : gmap Z program_obj)
    (st : gl_state) (x : GLuint) :
  gl_step d (with_build k s q st) (GlCompileShader x) =
  with_build k (alter (compile_shader d) x s) q st.
Proof. reflexivity. Qed.

Lemma build_attach_shader (k : nat) (s : gmap Z shader_obj) (q : gmap Z program_obj)
    (st : gl_state) (p x : GLuint) :
  gl_step d (with_build k s q st) (GlAttachShader p x) =
  with_build k s (alter (attach_shader x) p q) st.
Proof. reflexivity. Qed.

Lemma build_link_program (k : nat) (s : gmap Z shader_obj) (q : gmap Z program_obj)
    (st : gl_state) (p : GLuint) :
  gl_step d (with_build k s q st) (GlLinkProgram p) =
  with_build k s (alter (link_program d s) p q) st.
Proof. reflexivity. Qed.

(** [glDeleteShader] on a shader that is attached to a program. *)
Lemma build_delete_shader (k : nat) (s : gmap Z shader_obj) (q : gmap Z program_obj)
    (st : gl_state) (x p : GLuint) (o : program_obj) :
  q !! p = Some o -> In x (pr_attached o) ->
  gl_step d (with_build k s q st) (GlDeleteShader x)
  = with_build k (alter flag_shader x s) q st.
Proof.
  intros Hq Hx. cbn [gl_step]. unfold delete_shader. cbn [with_build gl_programs].
  by rewrite (attached_somewhere_intro q p x o Hq Hx).
Qed.

Lemma build_shader_iv (k : nat) (s : gmap Z shader_obj) (q : gmap Z program_obj)
    (st : gl_state) (x : GLuint) (o : shader_obj) :
  s !! x = Some o ->
  shader_iv d (with_build k s q st) x GL_COMPILE_STATUS = sh_status o.
Proof. intros H. unfold shader_iv. cbn [with_build gl_shaders]. by rewrite H. Qed.

Lemma build_program_iv (k : nat) (s : gmap Z shader_obj) (q : gmap Z program_obj)
    (st : gl_state) (p : GLuint) (o : program_obj) :
  q !! p = Some o ->
  program_iv d (with_build k s q st) p GL_LINK_STATUS = pr_status o.
Proof. intros H. unfold program_iv. cbn [with_build gl_programs]. by rewrite H. Qed.

(** Lines 70-86: the text goes to the shader object and is compiled; the
    result is the compile status. *)
Lemma compileLines_gl (shader : GLuint) (buf : list ascii) (lines : shader_lines)
    (w : world) (k : nat) (s : gmap Z shader_obj) (q : gmap Z program_obj)
    (st : gl_state) :
  w_gl w = with_build k s q st ->
  0 <= sl_count lines ->
  let s' := alter (compile_shader d) shader
              (alter (shader_source (submitted_text buf lines)) shader s) in
  w_gl (snd (compileLines shader buf lines e w)) = with_build k s' q st
  /\ fst (compileLines shader buf lines e w)
     = negb (shader_iv d (with_build k s' q st) shader GL_COMPILE_STATUS =? 0).
Proof.
  intros Hw Hc. cbv zeta. unfold compileLines. rewrite !bind_run.
  unfold glShaderSource, glCompileShader, glGetShaderiv, glGetShaderInfoLog, cout, call,
    query, ret. cbn [fst snd].
  match goal with |- context [if ?c then _ else _] => destruct c end.
  - rewrite !bind_run. cbn [fst snd]. rewrite !gl_record. fold d.
    rewrite !silent_call by exact I.
    rewrite Hw, build_shader_source, build_compile_shader by exact Hc.
    split; reflexivity.
  - cbn [fst snd]. rewrite !gl_record. fold d.
    rewrite !silent_call by exact I.
    rewrite Hw, build_shader_source, build_compile_shader by exact Hc.
    split; reflexivity.
Qed.

(** [compileShader] on a source shorter than 2^31 - 1 characters: the
    text up to its last newline goes to the shader object and is
    compiled; the result is the compile status. *)
Lemma compileShader_gl (shader : GLuint) (source : string) (w : world)
    (k : nat) (s : gmap Z shader_obj) (q : gmap Z program_obj) (st : gl_state) :
  w_gl w = with_build k s q st ->
  Z.of_nat (length (chars source)) < 2 ^ 31 - 1 ->
  let s' := alter (compile_shader d) shader
              (alter (shader_source (Some (upto_last_newline (chars source)))) shader s) in
  w_gl (snd (compileShader shader source e w)) = with_build k s' q st
  /\ fst (compileShader shader source e w)
     = Some (negb (shader_iv d (with_build k s' q st) shader GL_COMPILE_STATUS =? 0)).
Proof.
  intros Hw Hlen. cbv zeta.
  pose proof (split_lines_spec (chars source) Hlen) as Hsl.
  rewrite compileShader_split, Hsl. cbn [fst snd].
  match goal with |- context [compileLines shader ?b ?l e w] =>
    destruct (compileLines_gl shader b l w k s q st Hw) as [G R];
      [cbn [sl_count]; lia|];
      rewrite (submitted_text_split b l Hlen Hsl) in G, R
  end.
  split; [exact G|by rewrite R].
Qed.

Lemma compiled_lookup (m : gmap Z shader_obj) (s : GLuint) (type : GLenum)
    (text : option (list ascii)) :
  m !! s = Some (new_shader type) ->
  alter (compile_shader d) s (alter (shader_source text) s m) !! s =
  Some {| sh_type := type; sh_text := text;
          sh_status := fst (drv_compile d type text);
          sh_log := snd (drv_compile d type text);
          sh_deleted := false |}.
Proof. intros H. rewrite !lookup_alter_eq, H. reflexivity. Qed.

Lemma attached_texts (m : gmap Z shader_obj) (vs fs : GLuint)
    (vt ft : option (list ascii)) (sv sf : shader_obj) :
  m !! vs = Some sv -> m !! fs = Some sf ->
  sh_type sv = GL_VERTEX_SHADER -> sh_type sf = GL_FRAGMENT_SHADER ->
  sh_text sv = vt -> sh_text sf = ft ->
  attached_text m [vs; fs] GL_VERTEX_SHADER = vt
  /\ attached_text m [vs; fs] GL_FRAGMENT_SHADER = ft.
Proof.
  intros Hv Hf Tv Tf Xv Xf. unfold attached_text. cbn [find].
  rewrite Hv, Hf, Tv, Tf.
  change (GL_VERTEX_SHADER =? GL_VERTEX_SHADER) with true.
  change (GL_VERTEX_SHADER =? GL_FRAGMENT_SHADER) with false.
  change (GL_FRAGMENT_SHADER =? GL_FRAGMENT_SHADER) with true.
  cbv iota. by rewrite Hv, Hf.
Qed.

(** The log, when there is one, is fetched and printed: nothing of this
    changes the context. *)
Lemma print_log_gl (w : world) (n : Z) (fetch : M string) :
  (forall v, w_gl (snd (fetch e v)) = w_gl v) ->
  w_gl (snd ((if 0 <? n
              then log <- fetch ;; cout ("Log: " ++ endl) ;; cout log
              else ret tt) e w)) = w_gl w.
Proof.
  intros Hfetch. destruct (0 <? n); [|reflexivity].
  rewrite !bind_run. unfold cout, call. cbn [fst snd].
  rewrite !gl_record. fold d. rewrite !silent_call by exact I. apply Hfetch.
Qed.

(** A successful [createProgram] on sources shorter than 2^31 - 1
    characters: the value returned is the name of a program object
    linked from the two texts as the driver received them. *)
Lemma createProgram_gl (vertSource fragSource : string) (w : world) :
  let st := w_gl w in
  let k := gl_allocs st in
  let vs := drv_name d k in
  let fs := drv_name d (S k) in
  let p := drv_name d (S (S k)) in
  let vt := Some (upto_last_newline (chars vertSource)) in
  let ft := Some (upto_last_newline (chars fragSource)) in
  Z.of_nat (length (chars vertSource)) < 2 ^ 31 - 1 ->
  Z.of_nat (length (chars fragSource)) < 2 ^ 31 - 1 ->
  vs <> 0 -> fs <> 0 -> vs <> fs -> p <> 0 ->
  fst (drv_compile d GL_VERTEX_SHADER vt) <> 0 ->
  fst (drv_compile d GL_FRAGMENT_SHADER ft) <> 0 ->
  fst (drv_link d vt ft) <> 0 ->
  let r := createProgram vertSource fragSource e w in
  fst r = Some p
  /\ w_gl (snd r) =
     with_build (S (S (S k)))
       (<[fs := built_shader d GL_FRAGMENT_SHADER ft]>
          (<[vs := built_shader d GL_VERTEX_SHADER vt]> (gl_shaders st)))
       (<[p := {| pr_attached := [vs; fs];
                  pr_status := fst (drv_link d vt ft);
                  pr_log := snd (drv_link d vt ft);
                  pr_exe := Some (vt, ft);
                  pr_deleted := false |}]> (gl_programs st)) st.
Proof.
  intros st k vs fs p vt ft Lv Lf Hvs Hfs Hne Hp Hcv Hcf Hl r.
  remember (createProgram vertSource fragSource e w) as r0 eqn:Hr. subst r.
  assert (G0 : w_gl w = with_build k (gl_shaders st) (gl_programs st) st)
    by (symmetry; apply with_build_id).
  unfold createProgram, glCreateShader, glCreateProgram, glAttachShader, glLinkProgram,
    glGetProgramiv, glDeleteShader, cerr, call, query, ret in Hr.
  rewrite bind_run in Hr. cbn [fst snd] in Hr.
  change (drv_name (env_driver e) (gl_allocs (w_gl w))) with vs in Hr.
  apply Z.eqb_neq in Hvs as Hvs0. rewrite Hvs0 in Hr.
  rewrite bind_run in Hr. cbn [fst snd] in Hr.
  set (w1 := record (GlCreateShader GL_VERTEX_SHADER) e w) in Hr.
  set (m1 := <[vs := new_shader GL_VERTEX_SHADER]> (gl_shaders st)).
  assert (G1 : w_gl w1 = with_build (S k) m1 (gl_programs st) st).
  { unfold w1. rewrite gl_record, G0. by apply build_create_shader. }
  assert (A1 : drv_name (env_driver e) (gl_allocs (w_gl w1)) = fs) by (by rewrite G1).
  rewrite !A1 in Hr.
  apply Z.eqb_neq in Hfs as Hfs0. rewrite Hfs0 in Hr.
  set (w2 := record (GlCreateShader GL_FRAGMENT_SHADER) e w1) in Hr.
  set (m2 := <[fs := new_shader GL_FRAGMENT_SHADER]> m1).
  assert (G2 : w_gl w2 = with_build (S (S k)) m2 (gl_programs st) st).
  { unfold w2. rewrite gl_record, G1. by apply build_create_shader. }
  clearbody w1 w2. clear G0 G1 A1 w1.
  assert (Hm2v : m2 !! vs = Some (new_shader GL_VERTEX_SHADER)).
  { unfold m2, m1. rewrite lookup_insert_ne by done. apply lookup_insert_eq. }
  assert (Hm2f : m2 !! fs = Some (new_shader GL_FRAGMENT_SHADER)).
  { unfold m2. apply lookup_insert_eq. }
  (* the vertex shader *)
  rewrite bind_run in Hr.
  destruct (compileShader_gl vs vertSource w2 _ _ _ _ G2 Lv) as [G3 R3].
  fold vt in G3, R3.
  set (m3 := alter (compile_shader d) vs (alter (shader_source vt) vs m2)) in *.
  set (w3 := snd (compileShader vs vertSource e w2)) in *.
  assert (Hm3v : m3 !! vs = Some {| sh_type := GL_VERTEX_SHADER; sh_text := vt;
                                    sh_status := fst (drv_compile d GL_VERTEX_SHADER vt);
                                    sh_log := snd (drv_compile d GL_VERTEX_SHADER vt);
                                    sh_deleted := false |})
    by (by apply compiled_lookup).
  assert (R3' : fst (compileShader vs vertSource e w2) = Some true).
  { rewrite R3, (build_shader_iv _ _ _ _ _ _ Hm3v). cbn [sh_status].
    apply Z.eqb_neq in Hcv. by rewrite Hcv. }
  rewrite R3' in Hr. change (negb true) with false in Hr. cbv iota in Hr.
  clearbody w3. clear R3 R3' G2 w2.
  (* the fragment shader *)
  rewrite bind_run in Hr.
  destruct (compileShader_gl fs fragSource w3 _ _ _ _ G3 Lf) as [G4 R4].
  fold ft in G4, R4.
  assert (Hm3f : m3 !! fs = Some (new_shader GL_FRAGMENT_SHADER)).
  { unfold m3. rewrite !lookup_alter_ne by done. exact Hm2f. }
  set (m4 := alter (compile_shader d) fs (alter (shader_source ft) fs m3)) in *.
  set (w4 := snd (compileShader fs fragSource e w3)) in *.
  assert (Hm4f : m4 !! fs = Some {| sh_type := GL_FRAGMENT_SHADER; sh_text := ft;
                                    sh_status := fst (drv_compile d GL_FRAGMENT_SHADER ft);
                                    sh_log := snd (drv_compile d GL_FRAGMENT_SHADER ft);
                                    sh_deleted := false |})
    by (by apply compiled_lookup).
  assert (Hm4v : m4 !! vs = Some {| sh_type := GL_VERTEX_SHADER; sh_text := vt;
                                    sh_status := fst (drv_compile d GL_VERTEX_SHADER vt);
                                    sh_log := snd (drv_compile d GL_VERTEX_SHADER vt);
                                    sh_deleted := false |}).
  { unfold m4. rewrite !lookup_alter_ne by done. exact Hm3v. }
  assert (R4' : fst (compileShader fs fragSource e w3) = Some true).
  { rewrite R4, (build_shader_iv _ _ _ _ _ _ Hm4f). cbn [sh_status].
    apply Z.eqb_neq in Hcf. by rewrite Hcf. }
  rewrite R4' in Hr. change (negb true) with false in Hr. cbv iota in Hr.
  clearbody w4. clear R4 R4' G3 w3.
  (* the program *)
  rewrite bind_run in Hr. cbn [fst snd] in Hr.
  assert (A4 : drv_name (env_driver e) (gl_allocs (w_gl w4)) = p) by (by rewrite G4).
  rewrite A4 in Hr.
  apply Z.eqb_neq in Hp as Hp0. rewrite Hp0 in Hr.
  do 4 (rewrite bind_run in Hr; cbn [fst snd] in Hr).
  set (w5 := record (GlLinkProgram p) e
               (record (GlAttachShader p fs) e
                  (record (GlAttachShader p vs) e (record GlCreateProgram e w4)))) in Hr.
  set (linked := {| pr_attached := [vs; fs];
                    pr_status := fst (drv_link d vt ft);
                    pr_log := snd (drv_link d vt ft);
                    pr_exe := Some (vt, ft);
                    pr_deleted := false |}).
  assert (G5 : w_gl w5 =
               with_build (S (S (S k))) m4 (<[p := linked]> (gl_programs st)) st).
  { unfold w5. rewrite !gl_record, G4.
    rewrite build_create_program by done.
    rewrite !build_attach_shader, build_link_program. fold p.
    rewrite !alter_insert_eq.
    destruct (attached_texts m4 vs fs vt ft _ _ Hm4v Hm4f eq_refl eq_refl eq_refl eq_refl)
      as [Tv Tf].
    unfold link_program, attach_shader, new_program.
    cbn [pr_attached pr_status pr_log pr_exe app]. rewrite Tv, Tf.
    apply Z.eqb_neq in Hl. rewrite Hl. reflexivity. }
  clearbody w5. clear G4 A4 w4.
  rewrite bind_run in Hr. cbn [fst snd] in Hr.
  rewrite bind_run in Hr.
  match type of Hr with
  | context [snd ((if 0 <? ?n then ?m1 else ?m2) e ?W)] =>
      set (w6 := snd ((if 0 <? n then m1 else m2) e W)) in Hr;
      assert (G6 : w_gl w6 = w_gl w5)
  end.
  { unfold w6. rewrite print_log_gl.
    - rewrite gl_record. fold d. by rewrite silent_call.
    - intros v. unfold glGetProgramInfoLog, query. cbn [snd].
      rewrite gl_record. fold d. by rewrite silent_call. }
  clearbody w6. cbn [fst snd] in Hr.
  assert (R6 : program_iv (env_driver e) (w_gl w6) p GL_LINK_STATUS
               = fst (drv_link d vt ft)).
  { rewrite G6, G5. fold d.
    by rewrite (build_program_iv _ _ _ _ _ linked) by apply lookup_insert_eq. }
  rewrite R6 in Hr. apply Z.eqb_neq in Hl as Hl0. rewrite Hl0 in Hr.
  do 2 (rewrite bind_run in Hr; cbn [fst snd] in Hr).
  subst r0. cbn [fst snd]. split; [reflexivity|].
  rewrite !gl_record. fold d.
  rewrite (silent_call (w_gl w6) (GlGetProgramiv p GL_LINK_STATUS)) by exact I.
  rewrite G6, G5.
  rewrite (build_delete_shader _ _ _ _ vs p linked)
    by (first [apply lookup_insert_eq | by left]).
  rewrite (build_delete_shader _ _ _ _ fs p linked)
    by (first [apply lookup_insert_eq | right; by left]).
  assert (Hs : alter flag_shader fs (alter flag_shader vs m4)
               = <[fs := built_shader d GL_FRAGMENT_SHADER ft]>
                   (<[vs := built_shader d GL_VERTEX_SHADER vt]> (gl_shaders st))).
  { unfold GLuint in *. apply map_eq. intros x.
    destruct (decide (x = fs)) as [->|Hxf].
    { rewrite lookup_alter_eq, lookup_alter_ne by done.
      rewrite Hm4f, lookup_insert_eq. reflexivity. }
    rewrite lookup_alter_ne, (lookup_insert_ne _ fs) by done.
    destruct (decide (x = vs)) as [->|Hxv].
    { rewrite lookup_alter_eq, Hm4v, lookup_insert_eq. reflexivity. }
    rewrite lookup_alter_ne, lookup_insert_ne by done.
    unfold m4, m3, m2, m1. by rewrite !lookup_alter_ne, !lookup_insert_ne. }
  by rewrite Hs.
Qed.

(** *** Names taken from the driver *)

Lemma paint_allocs (tg : target) (f : Z -> Z -> image -> image) (st : gl_state) :
  gl_allocs (paint tg f st) = gl_allocs st.
Proof. by destruct tg. Qed.

Lemma clear_allocs (st : gl_state) : gl_allocs (clear_color_buffers st) = gl_allocs st.
Proof.
  unfold clear_color_buffers. generalize (draw_targets st) at 1. intros l.
  generalize st at 2 3. induction l as [|kt l IH]; intros s; cbn [fold_left]; [done|].
  by rewrite IH, paint_allocs.
Qed.

Lemma use_program_allocs (st : gl_state) (q : GLuint) :
  gl_allocs (use_program q st) = gl_allocs st.
Proof.
  unfold use_program. destruct (q =? 0); [done|].
  destruct (gl_programs st !! q) as [o|]; [|done]. by destruct (pr_exe o).
Qed.

Lemma draw_arrays_allocs (st : gl_state) (mode : GLenum) (first count : Z) :
  gl_allocs (draw_arrays mode first count st) = gl_allocs st.
Proof.
  unfold draw_arrays. destruct (mode =? GL_TRIANGLES); [|done].
  destruct (executable st) as [[vs fs]|]; [|done].
  destruct (fetch_vertices (gl_vertex st) first count) as [verts|]; [|done].
  cbv zeta.
  assert (H : forall l s (F : Z * target -> Z -> Z -> image -> image),
             gl_allocs (fold_left (fun s kt => paint (snd kt) (F kt) s) l s) = gl_allocs s).
  { induction l as [|kt l IH]; intros s F; cbn [fold_left]; [done|].
    by rewrite IH, paint_allocs. }
  destruct (fs_sampler_unit fs); cbn [set_sampled gl_allocs]; apply H.
Qed.

Lemma delete_shader_allocs (st : gl_state) (s : GLuint) :
  gl_allocs (delete_shader s st) = gl_allocs st.
Proof. unfold delete_shader. by destruct (attached_somewhere _ _). Qed.

Lemma delete_program_allocs (st : gl_state) (p : GLuint) :
  gl_allocs (delete_program p st) = gl_allocs st.
Proof.
  unfold delete_program. destruct (p =? gl_program st); [done|].
  by destruct (gl_programs st !! p).
Qed.

(** Every call advances the count of names handed out by what it takes. *)
Lemma gl_allocs_step (st : gl_state) (a : action) :
  gl_allocs (gl_step d st a) = (gl_allocs st + allocations a)%nat.
Proof.
  destruct a; cbn [gl_step allocations]; rewrite ?Nat.add_0_r;
    try reflexivity;
    try (by repeat match goal with |- context [if ?c then _ else _] => destruct c end).
  all: try (cbv zeta;
            repeat match goal with |- context [if ?c then _ else _] => destruct c end;
            cbn [set_allocs set_shaders set_programs gl_allocs]; lia).
  - apply delete_shader_allocs.
  - apply delete_program_allocs.
  - apply use_program_allocs.
  - match goal with |- context [if ?c then _ else _] => destruct c end;
      [apply clear_allocs|done].
  - apply draw_arrays_allocs.
Qed.

Lemma gl_allocs_records (l : list action) (w : world) :
  gl_allocs (w_gl (records l e w)) =
  (gl_allocs (w_gl w) + list_sum (map allocations l))%nat.
Proof.
  revert w. induction l as [|a l IH]; intros w; cbn [records fold_left map list_sum].
  - by rewrite Nat.add_0_r.
  - change (fold_left (fun w a => record a e w) l (record a e w))
      with (records l e (record a e w)).
    rewrite IH, gl_record. fold d. rewrite gl_allocs_step.
    change (list_sum (allocations a :: map allocations l))
      with (allocations a + list_sum (map allocations l))%nat.
    lia.
Qed.

Lemma gl_allocs_record (a : action) (w : world) :
  gl_allocs (w_gl (record a e w)) = (gl_allocs (w_gl w) + allocations a)%nat.
Proof. rewrite gl_record. apply gl_allocs_step. Qed.

Lemma assert_run (expr : string) (cond : M bool) (w : world) :
  assert_ expr cond e w =
  if env_ndebug e then (true, w)
  else if fst (cond e w) then (true, snd (cond e w))
       else (false, record (AssertFailed expr) e (snd (cond e w))).
Proof. reflexivity. Qed.

(** *** [setup], call by call *)

(** The calls of lines 230-273 and the names in them: the [glGen*] calls
    store the next five names of the driver.  With assertions enabled the
    completeness of the framebuffer is queried, and a framebuffer that is
    not complete ends the run there. *)
Lemma setup_run (w : world) :
  let k := gl_allocs (w_gl w) in
  let vao := drv_name d k in
  let buffer := drv_name d (k + 1) in
  let tex0 := drv_name d (k + 2) in
  let tex1 := drv_name d (k + 3) in
  let fb := drv_name d (k + 4) in
  let calls := setup_calls vao buffer tex0 tex1 fb in
  setup e w =
  if env_ndebug e then (Some (fb, tex1), records (calls ++ setup_rest) e w)
  else if drv_framebuffer_status d =? GL_FRAMEBUFFER_COMPLETE
       then (Some (fb, tex1), records (calls ++ completeness_check ++ setup_rest) e w)
       else (None, records (calls ++ completeness_check
                              ++ [AssertFailed completeness_assertion]) e w).
Proof.
  intros k vao buffer tex0 tex1 fb calls.
  unfold setup.
  unfold glBindVertexArray, glBindBuffer, glBufferData, glEnableVertexAttribArray,
    glVertexAttribPointer, glBindTexture, glTexImage2D, glTexParameteri,
    glBindFramebuffer, glFramebufferTexture2D, glDepthMask, glDisable, glClearColor,
    call, ret.
  (* the vertex array and the buffer *)
  rewrite bind_run.
  assert (N1 : fst (glGenVertexArrays 1 e w) = [vao]).
  { unfold glGenVertexArrays, glGen, query, gen_names. cbn [fst map seq]. fold d k.
    by rewrite Nat.add_0_r. }
  rewrite N1. clear N1.
  change (snd (glGenVertexArrays 1 e w)) with (record (GlGenVertexArrays 1) e w).
  cbv beta. cbn [nth].
  rewrite bind_run. cbn [fst snd].
  rewrite bind_run.
  match goal with
  | |- context [fst (glGenBuffers 1 e ?W)] =>
      assert (N2 : fst (glGenBuffers 1 e W) = [buffer]);
      [|rewrite N2; clear N2;
        change (snd (glGenBuffers 1 e W)) with (record (GlGenBuffers 1) e W)]
  end.
  { unfold glGenBuffers, glGen, query, gen_names. cbn [fst map seq].
    rewrite !gl_allocs_record. cbn [allocations]. fold d k.
    unfold buffer. change (Z.to_nat 1) with 1%nat.
    apply (f_equal2 cons); [f_equal; lia|reflexivity]. }
  cbv beta. cbn [nth].
  do 4 (rewrite bind_run; cbn [fst snd]).
  (* the textures *)
  rewrite bind_run.
  match goal with
  | |- context [fst (glGenTextures 2 e ?W)] =>
      assert (N3 : fst (glGenTextures 2 e W) = [tex0; tex1]);
      [|rewrite N3; clear N3;
        change (snd (glGenTextures 2 e W)) with (record (GlGenTextures 2) e W)]
  end.
  { unfold glGenTextures, glGen, query, gen_names. cbn [fst map seq].
    rewrite !gl_allocs_record. cbn [allocations]. fold d k.
    unfold tex0, tex1. change (Z.to_nat 1) with 1%nat.
    apply (f_equal2 cons); [f_equal; lia|].
    apply (f_equal2 cons); [f_equal; lia|reflexivity]. }
  cbv beta. cbn [nth].
  do 9 (rewrite bind_run; cbn [fst snd]).
  (* the framebuffer *)
  rewrite bind_run.
  match goal with
  | |- context [fst (glGenFramebuffers 1 e ?W)] =>
      assert (N4 : fst (glGenFramebuffers 1 e W) = [fb]);
      [|rewrite N4; clear N4;
        change (snd (glGenFramebuffers 1 e W)) with (record (GlGenFramebuffers 1) e W)]
  end.
  { unfold glGenFramebuffers, glGen, query, gen_names. cbn [fst map seq].
    rewrite !gl_allocs_record. cbn [allocations]. fold d k.
    unfold fb. change (Z.to_nat 1) with 1%nat. change (Z.to_nat 2) with 2%nat.
    apply (f_equal2 cons); [f_equal; lia|reflexivity]. }
  cbv beta. cbn [nth].
  do 3 (rewrite bind_run; cbn [fst snd]).
  match goal with |- _ e ?W = _ => set (W0 := W) end.
  assert (HW : W0 = records calls e w) by reflexivity.
  clearbody W0. subst W0.
  rewrite bind_run, assert_run.
  destruct (env_ndebug e).
  { change (fst (true, records calls e w)) with true.
    change (snd (true, records calls e w)) with (records calls e w).
    change (negb true) with false. cbv iota.
    do 4 (rewrite bind_run; cbn [fst snd]).
    by rewrite records_app. }
  rewrite bind_run.
  change (fst (glCheckFramebufferStatus GL_FRAMEBUFFER e (records calls e w)))
    with (drv_framebuffer_status d).
  change (snd (glCheckFramebufferStatus GL_FRAMEBUFFER e (records calls e w)))
    with (record (GlCheckFramebufferStatus GL_FRAMEBUFFER) e (records calls e w)).
  cbn [fst snd].
  destruct (drv_framebuffer_status d =? GL_FRAMEBUFFER_COMPLETE).
  - cbn [fst snd]. change (negb true) with false. cbv iota.
    do 4 (rewrite bind_run; cbn [fst snd]).
    by rewrite !records_app.
  - cbn [fst snd]. change (negb false) with true. cbv iota.
    by rewrite !records_app.
Qed.

End Startup.

(** ** The assertions of [main] *)

Section Assertions.

Variable e : env.

Let d : driver := env_driver e.
Let window : Z := env_window e.

(** No call but [glGetError] changes the error queue. *)
Lemma errors_kept (st : gl_state) (a : action) :
  is_glGetError a = false -> gl_errors (gl_step d st a) = gl_errors st.
Proof.
  intros Ha.
  assert (Hsame : forall s, built s = built st -> gl_errors s = gl_errors st).
  { intros s Hs. unfold built in Hs. congruence. }
  destruct a; try discriminate Ha; try reflexivity; cbn [gl_step];
    try (by repeat match goal with |- context [if ?c then _ else _] => destruct c end).
  - unfold delete_shader. by destruct (attached_somewhere _ _).
  - unfold delete_program. destruct (_ =? gl_program st); [done|].
    by destruct (gl_programs st !! _).
  - apply Hsame, use_program_built.
  - match goal with |- context [if ?c then _ else _] => destruct c end;
      [apply Hsame, clear_built|reflexivity].
  - apply Hsame, draw_arrays_built.
Qed.

Lemma errors_records (t : list action) (w : world) :
  Forall (fun a => is_glGetError a = false) t ->
  gl_errors (w_gl (records t e w)) = gl_errors (w_gl w).
Proof.
  intros Ht. revert w. induction Ht as [|a t Ha _ IH]; intros w; [done|].
  rewrite records_cons, IH, gl_record. by apply errors_kept.
Qed.

Lemma build_calls_plain (t : list action) :
  Forall (fun a => is_build_call a = true) t ->
  Forall (fun a => is_glGetError a = false) t
  /\ occurrences is_assertion_call t = 0%nat
  /\ occurrences is_frame_call t = 0%nat
  /\ occurrences is_cleanup_call t = 0%nat.
Proof.
  intros Ht.
  split; [eapply Forall_impl; [exact Ht|]; intros a Ha; by destruct a|].
  repeat split; apply occurrences_none; (eapply Forall_impl; [exact Ht|]);
    intros a Ha; by destruct a.
Qed.

(** When the window system and the loader start up, [main] gets to the
    set-up part after the boot calls and the calls of the two
    [createProgram] runs. *)
Lemma main_reaches_setup (fuel : nat) (w : world) :
  boots e ->
  exists t : list action,
    Forall (fun a => is_build_call a = true) t
    /\ main fuel e w =
       render fuel window (quad1Program_of e w) (texProgram_of e w) e
         (records (boot_actions window ++ t) e w).
Proof.
  intros (Hi & Hw & Hg). rewrite main_run.
  apply Z.eqb_neq in Hi, Hw. rewrite Hi, Hw, Hg. cbn [negb Z.eqb GLEW_OK]. cbv zeta.
  destruct (createProgram_cases quadVertSource quad1FragSource e
              (records (boot_actions (env_window e)) e w)) as (tA & HA & BA & _).
  cbv zeta in HA.
  destruct (createProgram_cases texVertSource texFragSource e
              (records (tA) e (records (boot_actions (env_window e)) e w)))
    as (tB & HB & BB & _).
  cbv zeta in HB. rewrite <- HA in HB.
  exists (tA ++ tB). split; [by apply Forall_app|].
  unfold quad1Program_of, texProgram_of, window. f_equal.
  by rewrite HB, HA, <- !records_app.
Qed.

Lemma setup_calls_plain (vao buffer tex0 tex1 fb : GLuint) :
  let t := setup_calls vao buffer tex0 tex1 fb ++ completeness_check ++ setup_rest in
  Forall (fun a => is_glGetError a = false) t
  /\ occurrences is_frame_call t = 0%nat
  /\ occurrences is_cleanup_call t = 0%nat
  /\ occurrences is_assertion_call (setup_calls vao buffer tex0 tex1 fb ++ setup_rest) = 0%nat.
Proof. cbv zeta. split; [by repeat constructor|]. by repeat split. Qed.

Lemma boot_calls_plain :
  Forall (fun a => is_glGetError a = false) (boot_actions window)
  /\ occurrences is_frame_call (boot_actions window) = 0%nat
  /\ occurrences is_cleanup_call (boot_actions window) = 0%nat
  /\ occurrences is_assertion_call (boot_actions window) = 0%nat.
Proof. split; [by repeat constructor|]. by repeat split. Qed.

(** [main] with assertions enabled, once the window system and the
    loader have started up: [t0] are the calls up to and including the
    completeness query, [code] is the error code pending by then. *)
Lemma main_asserting (fuel : nat) :
  boots e -> env_ndebug e = false ->
  let code := pending_error (gl_init d) in
  let qp := quad1Program_of e (world_init e) in
  let tp := texProgram_of e (world_init e) in
  exists (t0 : list action) (fb tex1 : GLuint),
    Forall (fun a => is_glGetError a = false) (t0 ++ setup_rest)
    /\ occurrences is_frame_call (t0 ++ setup_rest) = 0%nat
    /\ occurrences is_cleanup_call (t0 ++ setup_rest) = 0%nat
    /\ last t0 = Some (GlCheckFramebufferStatus GL_FRAMEBUFFER)
    /\ main fuel e (world_init e) =
       let W := records t0 e (world_init e) in
       if drv_framebuffer_status d =? GL_FRAMEBUFFER_COMPLETE then
         let W2 := records setup_rest e W in
         if GL_NO_ERROR =? code then
           let l := frameLoop fuel window fb qp tp tex1 e (record GlGetError e W2) in
           if fst l then shutdown window qp e (snd l) else (Running, snd l)
         else (Aborted, records [GlGetError; Cerr (describe code);
                                 AssertFailed "!error()"] e W2)
       else (Aborted, record (AssertFailed completeness_assertion) e W).
Proof.
  intros Hboot Hnd code qp tp.
  destruct (main_reaches_setup fuel (world_init e) Hboot) as (t & Bt & Hmain).
  destruct (build_calls_plain t Bt) as (Et & _ & Ft & Ct).
  destruct boot_calls_plain as (Eb & Fb & Cb & _).
  set (W := records (boot_actions window ++ t) e (world_init e)) in *.
  pose proof (setup_run e W) as Hs. cbv zeta in Hs. rewrite Hnd in Hs. fold d in Hs.
  match type of Hs with
  | context [setup_calls ?a ?b ?c ?x ?y] =>
      destruct (setup_calls_plain a b c x y) as (Es & Fs & Cs & _);
      set (calls := setup_calls a b c x y) in *;
      exists ((boot_actions window ++ t) ++ calls ++ completeness_check), y, x
  end.
  cbv zeta in Es, Fs, Cs.
  split.
  { rewrite <- !app_assoc.
    apply Forall_app; split; [done|]. apply Forall_app; split; [done|exact Es]. }
  split.
  { rewrite <- !app_assoc, !occurrences_app. rewrite !occurrences_app in Fs.
    rewrite Fb, Ft. exact Fs. }
  split.
  { rewrite <- !app_assoc, !occurrences_app. rewrite !occurrences_app in Cs.
    rewrite Cb, Ct. exact Cs. }
  split.
  { rewrite !app_assoc. unfold completeness_check. by rewrite last_snoc. }
  rewrite Hmain, render_run. cbv zeta. fold qp tp. rewrite Hs.
  rewrite !records_app. fold W.
  destruct (drv_framebuffer_status d =? GL_FRAMEBUFFER_COMPLETE); cbn [fst snd].
  2:{ reflexivity. }
  set (W2 := records setup_rest e (records completeness_check e (records calls e W))).
  assert (Hcode : pending_error (w_gl W2) = code).
  { unfold pending_error, code. f_equal. subst W2 W.
    rewrite <- !records_app. rewrite errors_records; [reflexivity|].
    rewrite <- !app_assoc.
    apply Forall_app; split; [done|]. apply Forall_app; split; [done|exact Es]. }
  rewrite assert_run, Hnd, bind_run, error_run, Hcode.
  destruct (GL_NO_ERROR =? code); cbn [fst snd negb ret]; reflexivity.
Qed.

(** X9.  With assertions enabled and the window system and the loader
    started up, [main] ends by [abort()] exactly when the framebuffer is
    not complete or an OpenGL error is pending after set-up.  In the
    first case the last calls are the completeness query and the failed
    assertion, and [glGetError] is never called; in the second the
    pending code is fetched, described on the standard error stream,
    and the assertion fails.  A run that ends so has drawn and shown no
    frame, and has neither destroyed the window nor terminated the
    window system. *)
Theorem failed_assertion_aborts (fuel : nat) :
  boots e -> env_ndebug e = false ->
  let code := pending_error (gl_init d) in
  let complete := drv_framebuffer_status d =? GL_FRAMEBUFFER_COMPLETE in
  let r := main fuel e (world_init e) in
  let t := w_trace (snd r) in
  (fst r = Aborted <-> complete = false \/ code <> GL_NO_ERROR)
  /\ (complete = false ->
      occurrences is_glGetError t = 0%nat
      /\ exists t0 : list action,
           t = t0 ++ [ GlCheckFramebufferStatus GL_FRAMEBUFFER;
                       AssertFailed completeness_assertion ])
  /\ (complete = true -> code <> GL_NO_ERROR ->
      exists t0 : list action,
        t = t0 ++ [GlGetError; Cerr (describe code); AssertFailed "!error()"])
  /\ (fst r = Aborted ->
      occurrences is_frame_call t = 0%nat /\ occurrences is_cleanup_call t = 0%nat).
Proof.
  intros Hboot Hnd code complete r t. subst r t complete.
  destruct (main_asserting fuel Hboot Hnd)
    as (t0 & fb & tex1 & E & F & C & L & Hm).
  fold code in Hm. rewrite Hm. clear Hm. cbv zeta.
  rewrite occurrences_app in F, C.
  apply Forall_app in E as [E _].
  destruct (drv_framebuffer_status d =? GL_FRAMEBUFFER_COMPLETE).
  - destruct (Z.eqb_spec GL_NO_ERROR code) as [Hc|Hc].
    + assert (Hout : fst (let l := frameLoop fuel window fb
                                     (quad1Program_of e (world_init e))
                                     (texProgram_of e (world_init e)) tex1 e
                                     (record GlGetError e
                                        (records setup_rest e
                                           (records t0 e (world_init e)))) in
                          if fst l
                          then shutdown window (quad1Program_of e (world_init e)) e (snd l)
                          else (Running, snd l)) <> Aborted).
      { cbv zeta. destruct (fst (frameLoop _ _ _ _ _ _ e _));
          [rewrite shutdown_run|]; discriminate. }
      cbv zeta in Hout.
      split; [split; [by intros H|intros [H|H]; [discriminate|by destruct H]]|].
      split; [discriminate|]. split; [by intros _ H|]. by intros H.
    + cbn [fst snd]. rewrite !trace_records. cbn [world_init w_trace app].
      split; [split; [intros _; right; by intros H|done]|].
      split; [discriminate|].
      split; [intros _ _; exists (t0 ++ setup_rest); by rewrite <- app_assoc|].
      intros _. rewrite !occurrences_app.
      split; [by rewrite F|by rewrite C].
  - cbn [fst snd]. rewrite trace_record, trace_records. cbn [world_init w_trace app].
    apply last_Some in L as (t0' & ->).
    split; [split; [intros _; by left|done]|].
    split.
    { intros _. split.
      - rewrite occurrences_app, (occurrences_none _ _ E). reflexivity.
      - exists t0'. by rewrite <- app_assoc. }
    split; [discriminate|].
    intros _. rewrite !occurrences_app in F, C.
    split; rewrite !occurrences_app.
    + change (occurrences is_frame_call [AssertFailed completeness_assertion]) with 0%nat.
      lia.
    + change (occurrences is_cleanup_call [AssertFailed completeness_assertion]) with 0%nat.
      lia.
Qed.

Lemma iteration_no_assertion (p : bool) (fb qp tp tex1 : Z) :
  Forall (fun a => is_assertion_call a = false) (iteration p window fb qp tp tex1).
Proof. destruct p; by repeat constructor. Qed.

Lemma shutdown_no_assertion (qp : Z) :
  occurrences is_assertion_call (shutdown_actions window qp) = 0%nat.
Proof. reflexivity. Qed.

(** X10.  Built with [NDEBUG], [main] makes none of the calls of its two
    assertions, neither the completeness query nor [glGetError], and
    never ends by [abort()]: whatever the driver reports, the run goes
    on to the loop once the window system and the loader have started
    up. *)
Theorem ndebug_never_aborts (fuel : nat) (w : world) :
  env_ndebug e = true ->
  let r := main fuel e w in
  fst r <> Aborted
  /\ occurrences is_assertion_call (drop (length (w_trace w)) (w_trace (snd r))) = 0%nat
  /\ (boots e -> fst r = Running \/ fst r = Exit 0).
Proof.
  intros Hnd r. subst r.
  destruct (Z.eq_dec (env_glfwInit e) 0) as [Hi|Hi].
  { rewrite main_run. apply Z.eqb_eq in Hi as Hi'. rewrite Hi'. cbn [fst snd].
    rewrite trace_records, drop_app_length.
    split; [discriminate|]. split; [reflexivity|]. by intros (H & _). }
  destruct (Z.eq_dec (env_window e) 0) as [Hw|Hw].
  { rewrite main_run. apply Z.eqb_neq in Hi as Hi'. apply Z.eqb_eq in Hw as Hw'.
    rewrite Hi', Hw'. cbn [fst snd]. rewrite trace_records, drop_app_length.
    split; [discriminate|]. split; [reflexivity|]. by intros (_ & H & _). }
  destruct (Z.eq_dec (env_glewInit e) GLEW_OK) as [Hg|Hg].
  2:{ rewrite main_run. apply Z.eqb_neq in Hi as Hi'. apply Z.eqb_neq in Hw as Hw'.
      apply Z.eqb_neq in Hg as Hg'. rewrite Hi', Hw', Hg'. cbn [negb fst snd].
      rewrite trace_records, drop_app_length.
      split; [discriminate|]. split; [by rewrite occurrences_app|].
      by intros (_ & _ & H). }
  assert (Hboot : boots e) by done.
  destruct (main_reaches_setup fuel w Hboot) as (t & Bt & Hmain).
  destruct (build_calls_plain t Bt) as (_ & At & _ & _).
  destruct boot_calls_plain as (_ & _ & _ & Ab).
  rewrite Hmain, render_run. cbv zeta.
  set (W := records (boot_actions window ++ t) e w).
  pose proof (setup_run e W) as Hs. cbv zeta in Hs. rewrite Hnd in Hs.
  match type of Hs with
  | context [setup_calls ?a ?b ?c ?x ?y] =>
      destruct (setup_calls_plain a b c x y) as (_ & _ & _ & As);
      set (calls := setup_calls a b c x y) in *
  end.
  cbv zeta in As. rewrite Hs. cbn [fst snd]. rewrite assert_run, Hnd. cbn [fst snd].
  match goal with
  | |- context [frameLoop fuel ?a ?b ?c ?x ?y e ?v] =>
      destruct (frameLoop_trace a b c x y e fuel v) as (keys & _ & Htr & _);
      assert (Hturns : occurrences is_assertion_call
                         (concat (map (fun p => iteration p a b c x y) keys)) = 0%nat)
        by (apply occurrences_turns; intros p; apply iteration_no_assertion);
      destruct (fst (frameLoop fuel a b c x y e v))
  end.
  - rewrite shutdown_run. cbn [fst snd].
    split; [discriminate|]. split; [|by right].
    rewrite trace_records, Htr. subst W.
    rewrite !trace_records, <- !app_assoc, drop_app_length, !occurrences_app.
    rewrite occurrences_app in As.
    rewrite Ab, At, Hturns, shutdown_no_assertion.
    change (occurrences is_assertion_call [GlfwWindowShouldClose window]) with 0%nat.
    lia.
  - cbn [fst snd]. split; [discriminate|]. split; [|by left].
    rewrite Htr. subst W.
    rewrite !trace_records, <- !app_assoc, drop_app_length, !occurrences_app.
    rewrite occurrences_app in As.
    rewrite Ab, At, Hturns.
    change (occurrences is_assertion_call []) with 0%nat.
    lia.
Qed.

End Assertions.

Lemma failed_assertion_aborts_witness :
  let e := plain_env erring_driver no_events in
  boots e /\ env_ndebug e = false /\ fst (main 1 e (world_init e)) = Aborted.
Proof.
  assert (Hboot : boots (plain_env erring_driver no_events)).
  { split; [discriminate|]. split; [discriminate|reflexivity]. }
  split; [exact Hboot|]. split; [reflexivity|].
  apply (proj1 (failed_assertion_aborts (plain_env erring_driver no_events) 1
                  Hboot eq_refl)).
  right. discriminate.
Defined.

Lemma ndebug_never_aborts_witness :
  let e := release_env erring_driver no_events in
  env_ndebug e = true /\ fst (main 1 e (world_init e)) = Running.
Proof.
  split; [reflexivity|].
  destruct (ndebug_never_aborts (release_env erring_driver no_events) 1
              (world_init (release_env erring_driver no_events)) eq_refl)
    as (_ & _ & Hrun).
  destruct Hrun as [Hrun|Hrun].
  - split; [discriminate|]. split; [discriminate|reflexivity].
  - exact Hrun.
  - exfalso. revert Hrun. vm_compute. discriminate.
Defined.

(** ** What [compileShader] and [createProgram] leave in the context *)

Section BuildExtras.

Variable e : env.

Let d : driver := env_driver e.

Lemma substring_all (s : string) : substring 0 (String.length s) s = s.
Proof. induction s as [|c s IH]; [done|]. cbn [String.length substring]. by rewrite IH. Qed.

(** A buffer of the length of the log and one more takes the whole log. *)
Lemma copy_log_whole (log : string) :
  copy_log log (Z.of_nat (String.length log) + 1) = log.
Proof.
  unfold copy_log.
  replace (Z.to_nat (Z.of_nat (String.length log) + 1 - 1)) with (String.length log) by lia.
  apply substring_all.
Qed.

(** The answers to the queries on a shader object. *)
Lemma compiled_shader_iv (st : gl_state) (s : GLuint) (o : shader_obj) :
  gl_shaders st !! s = Some o ->
  shader_iv d st s GL_INFO_LOG_LENGTH = drv_log_length d (sh_log o)
  /\ shader_iv d st s GL_COMPILE_STATUS = sh_status o
  /\ shader_info_log st s = sh_log o.
Proof. intros H. unfold shader_iv, shader_info_log. by rewrite H. Qed.

(** Lines 70-86 on a shader object, in closed form. *)
Lemma compileLines_closed (shader : GLuint) (buf : list ascii) (lines : shader_lines)
    (w : world) (o : shader_obj) :
  gl_shaders (w_gl w) !! shader = Some o ->
  0 <= sl_count lines ->
  let text := submitted_text buf lines in
  let verdict := drv_compile d (sh_type o) text in
  let logLength := drv_log_length d (snd verdict) in
  let compiled := {| sh_type := sh_type o; sh_text := text;
                     sh_status := fst verdict; sh_log := snd verdict;
                     sh_deleted := sh_deleted o |} in
  compileLines shader buf lines e w =
  (negb (fst verdict =? 0),
   records ([ GlShaderSource shader buf lines;
              GlCompileShader shader;
              GlGetShaderiv shader GL_INFO_LOG_LENGTH ]
            ++ (if 0 <? logLength
                then [ GlGetShaderInfoLog shader logLength;
                       Cout ("Log: " ++ endl);
                       Cout (copy_log (snd verdict) logLength) ]
                else [])
            ++ [GlGetShaderiv shader GL_COMPILE_STATUS]) e w)
  /\ gl_shaders (w_gl (snd (compileLines shader buf lines e w)))
     = <[shader := compiled]> (gl_shaders (w_gl w)).
Proof.
  intros Ho Hcount text verdict logLength compiled.
  set (w2 := records [GlShaderSource shader buf lines; GlCompileShader shader] e w).
  assert (G2 : gl_shaders (w_gl w2) = <[shader := compiled]> (gl_shaders (w_gl w))).
  { unfold w2. rewrite gl_records. cbn [fold_left gl_step].
    apply Z.ltb_ge in Hcount. rewrite Hcount. cbn [set_shaders gl_shaders].
    apply map_eq. intros x. destruct (decide (x = shader)) as [->|Hne].
    - rewrite lookup_insert_eq, !lookup_alter_eq. unfold GLuint in Ho. by rewrite Ho.
    - by rewrite lookup_insert_ne, !lookup_alter_ne. }
  assert (L2 : gl_shaders (w_gl w2) !! shader = Some compiled)
    by (by rewrite G2, lookup_insert_eq).
  destruct (compiled_shader_iv (w_gl w2) shader compiled L2) as (Hlen & Hstatus & Hlog).
  cbn [sh_log sh_status compiled] in Hlen, Hstatus, Hlog.
  fold logLength in Hlen.
  assert (Hsilent : forall (t : list action) (v : world),
             Forall (fun a => match a with
                              | GlGetShaderiv _ _ | GlGetShaderInfoLog _ _ | Cout _ => True
                              | _ => False
                              end) t ->
             w_gl (records t e v) = w_gl v).
  { intros t v Ht. revert v. induction Ht as [|a t Ha _ IH]; intros v; [done|].
    rewrite records_cons, IH, gl_record. by destruct a. }
  unfold compileLines, glShaderSource, glCompileShader, glGetShaderiv,
    glGetShaderInfoLog, cout, call, query, ret.
  do 3 (rewrite bind_run; cbn [fst snd]).
  change (record (GlCompileShader shader) e (record (GlShaderSource shader buf lines) e w))
    with w2.
  fold d. rewrite Hlen.
  set (w3 := record (GlGetShaderiv shader GL_INFO_LOG_LENGTH) e w2).
  assert (G3 : w_gl w3 = w_gl w2) by reflexivity.
  rewrite bind_run.
  match goal with
  | |- context [snd (?B e w3)] =>
      assert (HB : snd (B e w3) =
                   records (if 0 <? logLength
                            then [ GlGetShaderInfoLog shader logLength;
                                   Cout ("Log: " ++ endl);
                                   Cout (copy_log (snd verdict) logLength) ]
                            else []) e w3)
  end.
  { destruct (0 <? logLength); [|reflexivity].
    do 2 (rewrite bind_run; cbn [fst snd]).
    by rewrite G3, Hlog. }
  rewrite HB. cbv beta. rewrite bind_run. cbn [fst snd].
  assert (G4 : w_gl (records (if 0 <? logLength
                              then [ GlGetShaderInfoLog shader logLength;
                                     Cout ("Log: " ++ endl);
                                     Cout (copy_log (snd verdict) logLength) ]
                              else []) e w3) = w_gl w2).
  { rewrite Hsilent; [exact G3|]. destruct (0 <? logLength); by repeat constructor. }
  rewrite gl_record, G4. fold d.
  change (gl_step d (w_gl w2) (GlGetShaderiv shader GL_COMPILE_STATUS)) with (w_gl w2).
  rewrite Hstatus. split; [|exact G2].
  f_equal. unfold w3, w2. rewrite records_snoc.
  rewrite (records_snoc (GlGetShaderiv shader GL_INFO_LOG_LENGTH)).
  by rewrite <- records_app.
Qed.

Lemma stdout_app (t1 t2 : list action) : stdout (t1 ++ t2) = stdout t1 ++ stdout t2.
Proof. unfold stdout. apply omap_app. Qed.

(** X11.  On a shader object and a source shorter than 2^31 - 1
    characters, [compileShader] returns the driver's verdict on the text
    up to the last newline of the source: true exactly when the compile
    status is not 0.  Whether a log is printed is decided by the
    driver's answer to [GL_INFO_LOG_LENGTH] alone: when the answer is
    greater than 0, the line "Log: " goes to the standard output stream,
    followed by the log or, if the answer is smaller than that, by as
    many characters of it as the answer less one; when the answer is its
    length and one more, the whole log is printed, and this is so for an
    empty log too, if the driver answers 1 for it.  When the answer is 0
    or less nothing is written.  Nothing ever goes to the standard error
    stream.  Afterwards the object holds the text, the status and the
    log; the other shader objects are as before. *)
Theorem compileShader_verdict_and_log (shader : GLuint) (source : string) (w : world)
    (o : shader_obj) :
  gl_shaders (w_gl w) !! shader = Some o ->
  Z.of_nat (length (chars source)) < 2 ^ 31 - 1 ->
  let text := Some (upto_last_newline (chars source)) in
  let verdict := drv_compile d (sh_type o) text in
  let logLength := drv_log_length d (snd verdict) in
  let r := compileShader shader source e w in
  let t := drop (length (w_trace w)) (w_trace (snd r)) in
  fst r = Some (negb (fst verdict =? 0))
  /\ stdout t = (if 0 <? logLength
                 then [("Log: " ++ endl)%string; copy_log (snd verdict) logLength]
                 else [])
  /\ (logLength = Z.of_nat (String.length (snd verdict)) + 1 ->
      stdout t = [("Log: " ++ endl)%string; snd verdict])
  /\ stderr t = []
  /\ gl_shaders (w_gl (snd r)) !! shader
     = Some {| sh_type := sh_type o; sh_text := text;
               sh_status := fst verdict; sh_log := snd verdict;
               sh_deleted := sh_deleted o |}
  /\ (forall x, x <> shader ->
        gl_shaders (w_gl (snd r)) !! x = gl_shaders (w_gl w) !! x).
Proof.
  intros Ho Hlen text verdict logLength r t. subst r t.
  pose proof (split_lines_spec (chars source) Hlen) as Hsl.
  rewrite compileShader_split, Hsl. cbn [fst snd].
  match goal with |- context [compileLines shader ?b ?l e w] =>
    destruct (compileLines_closed shader b l w o Ho) as [Hrun Hgl];
      [cbn [sl_count]; lia|];
      cbv zeta in Hrun, Hgl;
      rewrite (submitted_text_split b l Hlen Hsl) in Hrun, Hgl
  end.
  fold text in Hrun, Hgl. fold verdict in Hrun, Hgl. fold logLength in Hrun.
  rewrite Hgl. rewrite Hrun. cbn [fst snd].
  rewrite trace_records, drop_app_length.
  assert (Hout : stdout ([GlShaderSource shader (chars source)
                            {| sl_count := Z.of_nat (length (complete_lines (chars source)));
                               sl_starts := (fun o => Some (Z.of_nat o))
                                            <$> offsets 0 (complete_lines (chars source));
                               sl_lengths := (fun l => Some (Z.of_nat (length l)))
                                             <$> complete_lines (chars source) |};
                          GlCompileShader shader;
                          GlGetShaderiv shader GL_INFO_LOG_LENGTH]
                         ++ (if 0 <? logLength
                             then [GlGetShaderInfoLog shader logLength;
                                   Cout ("Log: " ++ endl);
                                   Cout (copy_log (snd verdict) logLength)]
                             else [])
                         ++ [GlGetShaderiv shader GL_COMPILE_STATUS])
                 = (if 0 <? logLength
                    then [("Log: " ++ endl)%string; copy_log (snd verdict) logLength]
                    else [])).
  { by destruct (0 <? logLength). }
  split; [reflexivity|].
  split; [exact Hout|].
  split.
  { intros HL. rewrite Hout, HL, copy_log_whole.
    assert (E : (0 <? Z.of_nat (String.length (snd verdict)) + 1) = true)
      by (apply Z.ltb_lt; lia).
    by rewrite E. }
  split; [by destruct (0 <? logLength)|].
  split; [apply lookup_insert_eq|].
  intros x Hx. by apply lookup_insert_ne.
Qed.

(** X12.  When the sources are shorter than 2^31 - 1 characters and the
    driver hands out three names that are not 0, the two shader names
    distinct, accepts both texts as submitted and links them,
    [createProgram] returns the third name, and the context has gained
    three objects: the program of that name, linked from the two texts,
    with status and log as the linker gave them, and the two shader
    objects, compiled, still attached to the program and therefore only
    flagged for deletion.  Every other shader and program object is as
    it was, and nothing else in the context has changed but the count of
    names handed out, which is three higher. *)
Theorem createProgram_links_submitted_texts (vertSource fragSource : string) (w : world) :
  let st := w_gl w in
  let k := gl_allocs st in
  let vs := drv_name d k in
  let fs := drv_name d (S k) in
  let p := drv_name d (S (S k)) in
  let vt := Some (upto_last_newline (chars vertSource)) in
  let ft := Some (upto_last_newline (chars fragSource)) in
  Z.of_nat (length (chars vertSource)) < 2 ^ 31 - 1 ->
  Z.of_nat (length (chars fragSource)) < 2 ^ 31 - 1 ->
  vs <> 0 -> fs <> 0 -> vs <> fs -> p <> 0 ->
  fst (drv_compile d GL_VERTEX_SHADER vt) <> 0 ->
  fst (drv_compile d GL_FRAGMENT_SHADER ft) <> 0 ->
  fst (drv_link d vt ft) <> 0 ->
  let r := createProgram vertSource fragSource e w in
  let st' := w_gl (snd r) in
  fst r = Some p
  /\ gl_programs st' !! p
     = Some {| pr_attached := [vs; fs];
               pr_status := fst (drv_link d vt ft);
               pr_log := snd (drv_link d vt ft);
               pr_exe := Some (vt, ft);
               pr_deleted := false |}
  /\ linked_texts st' p = Some (vt, ft)
  /\ (forall x, x <> p -> gl_programs st' !! x = gl_programs st !! x)
  /\ gl_shaders st' !! vs = Some (built_shader d GL_VERTEX_SHADER vt)
  /\ gl_shaders st' !! fs = Some (built_shader d GL_FRAGMENT_SHADER ft)
  /\ (forall x, x <> vs -> x <> fs -> gl_shaders st' !! x = gl_shaders st !! x)
  /\ gl_allocs st' = S (S (S k))
  /\ st' = with_build (gl_allocs st') (gl_shaders st') (gl_programs st') st.
Proof.
  intros st k vs fs p vt ft Lv Lf Hvs Hfs Hne Hp Hcv Hcf Hl r st'. subst r st'.
  destruct (createProgram_gl e vertSource fragSource w Lv Lf Hvs Hfs Hne Hp Hcv Hcf Hl)
    as [Hr Hgl].
  fold d st k vs fs p vt ft in Hr, Hgl.
  rewrite Hgl. cbn [with_build gl_allocs gl_shaders gl_programs].
  split; [exact Hr|].
  split; [apply lookup_insert_eq|].
  split; [unfold linked_texts; cbn [with_build gl_programs]; by rewrite lookup_insert_eq|].
  split; [intros x Hx; by apply lookup_insert_ne|].
  split; [rewrite lookup_insert_ne by done; apply lookup_insert_eq|].
  split; [apply lookup_insert_eq|].
  split; [intros x Hxv Hxf; by rewrite !lookup_insert_ne|].
  by split.
Qed.

End BuildExtras.

Lemma compileShader_verdict_and_log_witness :
  let e := plain_env nul_counting_driver no_events in
  let w := record (GlCreateShader GL_VERTEX_SHADER) e (world_init e) in
  gl_shaders (w_gl w) !! 1 = Some (new_shader GL_VERTEX_SHADER)
  /\ Z.of_nat (length (chars quadVertSource)) < 2 ^ 31 - 1
  /\ fst (compileShader 1 quadVertSource e w) = Some true
  /\ stdout (drop (length (w_trace w)) (w_trace (snd (compileShader 1 quadVertSource e w))))
     = [("Log: " ++ endl)%string; EmptyString].
Proof.
  assert (H : gl_shaders
                (w_gl (record (GlCreateShader GL_VERTEX_SHADER)
                         (plain_env nul_counting_driver no_events)
                         (world_init (plain_env nul_counting_driver no_events)))) !! 1
              = Some (new_shader GL_VERTEX_SHADER)) by (vm_compute; reflexivity).
  assert (L : Z.of_nat (length (chars quadVertSource)) < 2 ^ 31 - 1)
    by (vm_compute; reflexivity).
  split; [exact H|]. split; [exact L|].
  destruct (compileShader_verdict_and_log (plain_env nul_counting_driver no_events) 1
              quadVertSource _ _ H L) as (Hr & Hout & _).
  split; [exact Hr|exact Hout].
Defined.

Lemma createProgram_links_submitted_texts_witness :
  let e := plain_env accepting_driver no_events in
  let r := createProgram quadVertSource quad1FragSource e (world_init e) in
  fst r = Some 3
  /\ linked_texts (w_gl (snd r)) 3
     = Some (Some (chars quadVertSource), Some (chars quad1FragSource))
  /\ sh_deleted <$> gl_shaders (w_gl (snd r)) !! 1 = Some true.
Proof.
  destruct (createProgram_links_submitted_texts (plain_env accepting_driver no_events)
              quadVertSource quad1FragSource
              (world_init (plain_env accepting_driver no_events)))
    as (Hr & _ & Hl & _ & Hv & _).
  - vm_compute. reflexivity.
  - vm_compute. reflexivity.
  - discriminate.
  - discriminate.
  - discriminate.
  - discriminate.
  - discriminate.
  - discriminate.
  - discriminate.
  - split; [exact Hr|].
    split; [|exact (f_equal (fmap sh_deleted) Hv)].
    refine (eq_trans Hl _). vm_compute. reflexivity.
Defined.

(** ** The context that [setup] leaves *)

Section SetupState.

Variable d : driver.

(** The vertex, texture and framebuffer state after the calls of
    [setup], with or without the completeness query; the other parts of
    the context are as before, but for the count of names. *)
Lemma setup_gl (st0 : gl_state) (vao buffer tex0 tex1 fb : GLuint) (checked : bool) :
  let st := fold_left (gl_step d)
              (setup_calls vao buffer tex0 tex1 fb
               ++ (if checked then completeness_check else []) ++ setup_rest) st0 in
  let configured (ts : tex_state) :=
    on_bound_texture (tex_parameter GL_TEXTURE_MIN_FILTER GL_NEAREST)
      (on_bound_texture (tex_parameter GL_TEXTURE_MAG_FILTER GL_NEAREST)
         (on_bound_texture (tex_image_2d width height) ts)) in
  gl_errors st = gl_errors st0
  /\ gl_shaders st = gl_shaders st0
  /\ gl_programs st = gl_programs st0
  /\ gl_program st = gl_program st0
  /\ gl_surface st = gl_surface st0
  /\ gl_sampled st = gl_sampled st0
  /\ gl_vertex st =
     {| vx_buffers := <[buffer := fullscreenQuad]> (vx_buffers (gl_vertex st0));
        vx_array_buffer := buffer; vx_enabled := true; vx_pointer := Some (buffer, 2) |}
  /\ gl_tex st =
     bind_texture 0 (configured (bind_texture tex1 (configured (bind_texture tex0
                                                                   (gl_tex st0)))))
  /\ gl_fb st =
     {| fb_objects :=
          fb_objects
            (on_draw_framebuffer (attach_texture GL_COLOR_ATTACHMENT1 tex1)
               (on_draw_framebuffer (attach_texture GL_COLOR_ATTACHMENT0 tex0)
                  (bind_draw_framebuffer fb (gl_fb st0))));
        fb_draw := 0;
        fb_clear_color := Vec4 0.0 0.0 0.0 1.0;
        fb_viewport := fb_viewport (gl_fb st0) |}.
Proof. destruct checked; repeat split; reflexivity. Qed.

(** A texture name that is bound and given storage and filters as in
    lines 253-260: an 800 x 600 texture with nearest filtering, whose
    contents are undefined.  The other textures stay as they are. *)
Lemma configured_texture (ts : tex_state) (t : GLuint) :
  t <> 0 ->
  let ts' := on_bound_texture (tex_parameter GL_TEXTURE_MIN_FILTER GL_NEAREST)
               (on_bound_texture (tex_parameter GL_TEXTURE_MAG_FILTER GL_NEAREST)
                  (on_bound_texture (tex_image_2d width height) (bind_texture t ts))) in
  tx_textures ts' !! t =
  Some {| tex_width := width; tex_height := height; tex_image := undefined_image;
          tex_min_filter := GL_NEAREST; tex_mag_filter := GL_NEAREST |}
  /\ (forall x, x <> t -> tx_textures ts' !! x = tx_textures ts !! x)
  /\ tx_active ts' = tx_active ts.
Proof.
  intros Ht ts'. subst ts'. apply Z.eqb_neq in Ht as Ht0.
  unfold on_bound_texture, bind_texture, unit_texture.
  cbn [tx_textures tx_active tx_units]. rewrite Ht0, lookup_insert_eq.
  cbn [default from_option]. change (id t) with t. unfold GLuint in *.
  split; [|split; [|reflexivity]].
  - rewrite !lookup_alter_eq.
    destruct (tx_textures ts !! t) as [o|] eqn:Ho.
    + rewrite Ho. reflexivity.
    + rewrite lookup_insert_eq. reflexivity.
  - intros x Hx. rewrite !lookup_alter_ne by done.
    destruct (tx_textures ts !! t) as [o|]; [done|]. by rewrite lookup_insert_ne.
Qed.

(** The framebuffer object of lines 263-266, when its name is new. *)
Lemma configured_framebuffer (fs : fb_state) (fb tex0 tex1 : GLuint) :
  fb <> 0 -> fb_objects fs !! fb = None ->
  fb_objects
    (on_draw_framebuffer (attach_texture GL_COLOR_ATTACHMENT1 tex1)
       (on_draw_framebuffer (attach_texture GL_COLOR_ATTACHMENT0 tex0)
          (bind_draw_framebuffer fb fs))) !! fb =
  Some {| fbo_color := <[1 := tex1]> (<[0 := tex0]> ∅);
          fbo_draw_buffers := [GL_COLOR_ATTACHMENT0] |}.
Proof.
  intros Hfb Hnew. apply Z.eqb_neq in Hfb as Hfb0.
  unfold on_draw_framebuffer, bind_draw_framebuffer.
  cbn [fb_objects fb_draw]. unfold GLuint in *. rewrite Hfb0, Hnew.
  by rewrite !lookup_alter_eq, lookup_insert_eq.
Qed.

(** What the calls of [setup] leave, whatever programs there are: the
    second texture with storage and filters, the two attachments of a
    new framebuffer object whose draw buffers are as created, the six
    vertices of the quad, the default framebuffer bound again, and the
    clear colour of line 273. *)
Lemma setup_objects (st0 : gl_state) (vao buffer tex0 tex1 fb : GLuint) (checked : bool) :
  tex1 <> 0 -> fb <> 0 -> fb_objects (gl_fb st0) !! fb = None ->
  let st := fold_left (gl_step d)
              (setup_calls vao buffer tex0 tex1 fb
               ++ (if checked then completeness_check else []) ++ setup_rest) st0 in
  texture_format st tex1 = Some (width, height, GL_NEAREST, GL_NEAREST)
  /\ (forall x y, texel_at st tex1 x y = None)
  /\ attachment st fb 0 = Some tex0
  /\ attachment st fb 1 = Some tex1
  /\ draw_buffers st fb = Some [GL_COLOR_ATTACHMENT0]
  /\ fetch_vertices (gl_vertex st) 0 6 = Some quad_vertices
  /\ fb_draw (gl_fb st) = 0
  /\ fb_clear_color (gl_fb st) = Vec4 0.0 0.0 0.0 1.0
  /\ fb_viewport (gl_fb st) = fb_viewport (gl_fb st0).
Proof.
  intros Ht1 Hfb Hnew st.
  destruct (setup_gl st0 vao buffer tex0 tex1 fb checked)
    as (_ & _ & _ & _ & _ & _ & Hv & Ht & Hf).
  fold st in Hv, Ht, Hf. cbv zeta in Ht.
  assert (Htex : tx_textures (gl_tex st) !! tex1 =
                 Some {| tex_width := width; tex_height := height;
                         tex_image := undefined_image;
                         tex_min_filter := GL_NEAREST; tex_mag_filter := GL_NEAREST |}).
  { rewrite Ht. unfold bind_texture at 1. cbn [tx_textures Z.eqb].
    by apply configured_texture. }
  assert (Hobj : fb_objects (gl_fb st) !! fb =
                 Some {| fbo_color := <[1 := tex1]> (<[0 := tex0]> ∅);
                         fbo_draw_buffers := [GL_COLOR_ATTACHMENT0] |}).
  { rewrite Hf. cbn [fb_objects]. by apply configured_framebuffer. }
  split; [unfold texture_format; by rewrite Htex|].
  split; [intros x y; unfold texel_at; by rewrite Htex|].
  split.
  { unfold attachment. rewrite Hobj. cbn [mbind option_bind fbo_color].
    rewrite lookup_insert_ne by done. apply lookup_insert_eq. }
  split.
  { unfold attachment. rewrite Hobj. cbn [mbind option_bind fbo_color].
    apply lookup_insert_eq. }
  split; [unfold draw_buffers; by rewrite Hobj|].
  split.
  { rewrite Hv. unfold fetch_vertices. cbn [vx_enabled vx_pointer vx_buffers].
    rewrite lookup_insert_eq. reflexivity. }
  rewrite Hf. by repeat split.
Qed.

(** [setup] makes a context in which the loop can run, given the two
    programs, a window of 800 x 600 and new names for the second texture
    and the framebuffer object. *)
Lemma setup_ready (st0 : gl_state) (vao buffer tex0 tex1 fb qp tp : GLuint)
    (checked : bool) :
  tex1 <> 0 -> tex0 <> tex1 -> fb <> 0 ->
  fb_objects (gl_fb st0) !! fb = None ->
  fb_viewport (gl_fb st0) = window_viewport ->
  sf_width (gl_surface st0) = width -> sf_height (gl_surface st0) = height ->
  qp <> 0 -> tp <> 0 ->
  linked_texts st0 qp = Some (Some (chars quadVertSource), Some (chars quad1FragSource)) ->
  linked_texts st0 tp = Some (Some (chars texVertSource), Some (chars texFragSource)) ->
  let st := fold_left (gl_step d)
              (setup_calls vao buffer tex0 tex1 fb
               ++ (if checked then completeness_check else []) ++ setup_rest) st0 in
  loop_ready fb qp tp tex0 tex1 st
  /\ draw_buffers st fb = Some [GL_COLOR_ATTACHMENT0]
  /\ (forall x y, texel_at st tex1 x y = None)
  /\ gl_sampled st = gl_sampled st0
  /\ gl_errors st = gl_errors st0.
Proof.
  intros Ht1 Ht01 Hfb Hnew Hvp Hsw Hsh Hqp Htp Hlq Hlt st.
  destruct (setup_gl st0 vao buffer tex0 tex1 fb checked)
    as (He & _ & Hp & _ & Hs & Hsm & _).
  destruct (setup_objects st0 vao buffer tex0 tex1 fb checked Ht1 Hfb Hnew)
    as (Hfmt & Htx & Ha0 & Ha1 & Hdb & Hverts & _ & Hcc & Hview).
  fold st in He, Hp, Hs, Hsm, Hfmt, Htx, Ha0, Ha1, Hdb, Hverts, Hcc, Hview.
  split; [|split; [exact Hdb|split; [exact Htx|split; [exact Hsm|exact He]]]].
  split.
  - split; [exact Hqp|]. unfold linked_texts in *. by rewrite Hp.
  - split; [exact Htp|]. unfold linked_texts in *. by rewrite Hp.
  - exact Hverts.
  - exact Hfb.
  - exact Ha0.
  - exact Ha1.
  - by left.
  - by split.
  - exact Hfmt.
  - by rewrite Hview.
  - rewrite Hs. by split.
  - exact Hcc.
Qed.

End SetupState.

(** ** From the start of [main] to the loop, when nothing fails *)

Section Cooperative.

Variable e : env.

Let d : driver := env_driver e.
Let window : Z := env_window e.

(** [createProgram] on two texts shorter than 2^31 - 1 characters that
    end in newlines, from a context written as [with_build]. *)
Lemma createProgram_whole (vertSource fragSource : string) (w : world)
    (k : nat) (s0 : gmap Z shader_obj) (q0 : gmap Z program_obj) (st0 : gl_state) :
  w_gl w = with_build k s0 q0 st0 ->
  Z.of_nat (length (chars vertSource)) < 2 ^ 31 - 1 ->
  Z.of_nat (length (chars fragSource)) < 2 ^ 31 - 1 ->
  last (chars vertSource) = Some newline -> last (chars fragSource) = Some newline ->
  let vs := drv_name d k in
  let fs := drv_name d (S k) in
  let p := drv_name d (S (S k)) in
  let vt := Some (chars vertSource) in
  let ft := Some (chars fragSource) in
  vs <> 0 -> fs <> 0 -> vs <> fs -> p <> 0 ->
  fst (drv_compile d GL_VERTEX_SHADER vt) <> 0 ->
  fst (drv_compile d GL_FRAGMENT_SHADER ft) <> 0 ->
  fst (drv_link d vt ft) <> 0 ->
  let r := createProgram vertSource fragSource e w in
  fst r = Some p
  /\ w_gl (snd r) =
     with_build (S (S (S k)))
       (<[fs := built_shader d GL_FRAGMENT_SHADER ft]>
          (<[vs := built_shader d GL_VERTEX_SHADER vt]> s0))
       (<[p := {| pr_attached := [vs; fs];
                  pr_status := fst (drv_link d vt ft);
                  pr_log := snd (drv_link d vt ft);
                  pr_exe := Some (vt, ft);
                  pr_deleted := false |}]> q0) st0.
Proof.
  intros Hw Lv Lf Hv Hf vs fs p vt ft Hvs Hfs Hne Hp Hcv Hcf Hl r.
  assert (Tv : upto_last_newline (chars vertSource) = chars vertSource)
    by (apply upto_last_newline_all; by right).
  assert (Tf : upto_last_newline (chars fragSource) = chars fragSource)
    by (apply upto_last_newline_all; by right).
  pose proof (createProgram_gl e vertSource fragSource w) as H.
  cbv zeta in H. fold d in H. rewrite Tv, Tf, Hw in H.
  cbn [with_build gl_allocs gl_shaders gl_programs] in H.
  destruct (H Lv Lf Hvs Hfs Hne Hp Hcv Hcf Hl) as [H1 H2].
  split; [exact H1|exact H2].
Qed.

Lemma boot_gl :
  w_gl (records (boot_actions window) e (world_init e))
  = with_build 0 ∅ ∅ (window_state d).
Proof. reflexivity. Qed.

(** A call that is no deletion does not flag a shader object. *)
Lemma unflagged_kept (st : gl_state) (a : action) (x : GLuint) :
  deletes_nothing a = true ->
  sh_deleted <$> gl_shaders st !! x = Some false ->
  sh_deleted <$> gl_shaders (gl_step d st a) !! x = Some false.
Proof.
  intros Ha Hx.
  assert (Hsame : forall s, built s = built st ->
                            sh_deleted <$> gl_shaders s !! x = Some false).
  { intros s Hs. unfold built in Hs.
    assert (Heq : gl_shaders s = gl_shaders st) by congruence. by rewrite Heq. }
  assert (Halter : forall (f : shader_obj -> shader_obj) (y : GLuint),
             (forall o, sh_deleted (f o) = sh_deleted o) ->
             sh_deleted <$> alter f y (gl_shaders st) !! x = Some false).
  { intros f y Hf. unfold GLuint in *. destruct (decide (y = x)) as [->|Hne].
    - rewrite lookup_alter_eq. destruct (gl_shaders st !! x) as [o|]; [|done].
      cbn in Hx |- *. by rewrite Hf.
    - by rewrite lookup_alter_ne. }
  destruct a; try discriminate Ha; try exact Hx; cbn [gl_step];
    try (by repeat match goal with |- context [if ?c then _ else _] => destruct c end).
  - cbv zeta. destruct (drv_name d (gl_allocs st) =? 0); [exact Hx|].
    cbn [set_allocs set_shaders gl_shaders]. unfold GLuint in *.
    destruct (decide (drv_name d (gl_allocs st) = x)) as [->|Hne].
    + by rewrite lookup_insert_eq.
    + by rewrite lookup_insert_ne.
  - match goal with |- context [if ?c then _ else _] => destruct c end; [exact Hx|].
    unfold set_shaders. cbn [gl_shaders]. by apply Halter.
  - unfold set_shaders. cbn [gl_shaders]. by apply Halter.
  - apply Hsame, use_program_built.
  - match goal with |- context [if ?c then _ else _] => destruct c end;
      [apply Hsame, clear_built|exact Hx].
  - apply Hsame, draw_arrays_built.
Qed.

Lemma unflagged_kept_all (t : list action) (st : gl_state) (x : GLuint) :
  Forall (fun a => deletes_nothing a = true) t ->
  sh_deleted <$> gl_shaders st !! x = Some false ->
  sh_deleted <$> gl_shaders (fold_left (gl_step d) t st) !! x = Some false.
Proof.
  intros Ht. revert st. induction Ht as [|a t Ha _ IH]; intros st Hx; [done|].
  cbn [fold_left]. apply IH. by apply unflagged_kept.
Qed.

(** A run of [createProgram] after which the first shader is flagged for
    deletion is a successful one: it has written nothing to the standard
    error stream. *)
Lemma createProgram_quiet (vertSource fragSource : string) (w : world) :
  let vs := drv_name d (gl_allocs (w_gl w)) in
  let r := createProgram vertSource fragSource e w in
  vs <> 0 -> sh_deleted <$> gl_shaders (w_gl (snd r)) !! vs = Some true ->
  exists t : list action, snd r = records t e w /\ stderr t = [].
Proof.
  intros vs r Hvs Hflag. subst r.
  destruct (createProgram_deletions e vertSource fragSource w)
    as [(t & Hw & Hs & Hn & Hq & _)|(t0 & Hw & Hs & _)].
  - destruct Hs as [Hs|Hnone].
    + exfalso. rewrite Hw, gl_records, gl_record in Hflag.
      assert (Hfalse : sh_deleted <$> gl_shaders
                                 (fold_left (gl_step (env_driver e)) t
                                    (gl_step (env_driver e) (w_gl w)
                                       (GlCreateShader GL_VERTEX_SHADER))) !! vs
                       = Some false).
      { apply unflagged_kept_all; [exact Hq|].
        cbn [gl_step]. cbv zeta. fold d vs. apply Z.eqb_neq in Hvs. rewrite Hvs.
        cbn [set_allocs set_shaders gl_shaders]. by rewrite lookup_insert_eq. }
      rewrite Hflag in Hfalse. discriminate.
    + exists (GlCreateShader GL_VERTEX_SHADER :: t). split; [exact Hw|].
      rewrite stderr_cons_other by exact I. by apply Hn.
  - eexists (GlCreateShader GL_VERTEX_SHADER :: t0 ++ [_; _]).
    split; [exact Hw|].
    rewrite stderr_cons_other by exact I. by rewrite stderr_app, Hs.
Qed.

Hypothesis Hcoop : cooperative e.

Let qp : GLuint := drv_name d 2.
Let tp : GLuint := drv_name d 5.
Let tex0 : GLuint := drv_name d 8.
Let tex1 : GLuint := drv_name d 9.
Let fb : GLuint := drv_name d 10.

Lemma embedded_newlines :
  last (chars quadVertSource) = Some newline /\ last (chars quad1FragSource) = Some newline
  /\ last (chars texVertSource) = Some newline /\ last (chars texFragSource) = Some newline.
Proof. repeat split; reflexivity. Qed.

Lemma embedded_short :
  Z.of_nat (length (chars quadVertSource)) < 2 ^ 31 - 1
  /\ Z.of_nat (length (chars quad1FragSource)) < 2 ^ 31 - 1
  /\ Z.of_nat (length (chars texVertSource)) < 2 ^ 31 - 1
  /\ Z.of_nat (length (chars texFragSource)) < 2 ^ 31 - 1.
Proof. repeat split; vm_compute; reflexivity. Qed.

(** The two [createProgram] runs give [main] two linked programs. *)
Lemma cooperative_programs :
  let wb := records (boot_actions window) e (world_init e) in
  let rA := createProgram quadVertSource quad1FragSource e wb in
  let rB := createProgram texVertSource texFragSource e (snd rA) in
  fst rA = Some qp /\ fst rB = Some tp
  /\ exists (s : gmap Z shader_obj) (q : gmap Z program_obj),
       w_gl (snd rB) = with_build 6 s q (window_state d)
       /\ q !! qp ≫= pr_exe = Some (Some (chars quadVertSource), Some (chars quad1FragSource))
       /\ q !! tp ≫= pr_exe = Some (Some (chars texVertSource), Some (chars texFragSource)).
Proof.
  intros wb rA rB.
  destruct Hcoop as [_ (A0 & A1 & A01) (B0 & B1 & B01) (P0 & P1 & P01) _ _
                       (C1 & C2 & C3 & C4) (L1 & L2) _].
  fold d in A0, A1, A01, B0, B1, B01, P0, P1, P01, C1, C2, C3, C4, L1, L2.
  destruct embedded_newlines as (N1 & N2 & N3 & N4).
  destruct embedded_short as (S1 & S2 & S3 & S4).
  destruct (createProgram_whole quadVertSource quad1FragSource wb 0 ∅ ∅ (window_state d)
              boot_gl S1 S2 N1 N2 A0 A1 A01 P0 C1 C2 L1) as [HA GA].
  fold rA in HA, GA.
  destruct (createProgram_whole texVertSource texFragSource (snd rA) 3 _ _ (window_state d)
              GA S3 S4 N3 N4 B0 B1 B01 P1 C3 C4 L2) as [HB GB].
  fold rB in HB, GB.
  split; [exact HA|]. split; [exact HB|].
  eexists _, _. split; [exact GB|].
  fold qp tp. split.
  - rewrite lookup_insert_ne by (intros H; by apply P01).
    by rewrite lookup_insert_eq.
  - by rewrite lookup_insert_eq.
Qed.

(** Taking an error code off the queue does not touch what the loop
    needs. *)
Lemma loop_ready_after_query (st : gl_state) :
  loop_ready fb qp tp tex0 tex1 st ->
  loop_ready fb qp tp tex0 tex1 (gl_step d st GlGetError).
Proof. intros [H1 H2 H3 H4 H5 H6 H7 H8 H9 H10 H11 H12]. by split. Qed.

(** [setup] and the assertion after it, in closed form: the world in
    which the loop is entered is the one after the boot calls, the two
    [createProgram] runs, the set-up calls and the queries of the two
    assertions, if these are enabled. *)
Lemma cooperative_entry :
  let wb := records (boot_actions window) e (world_init e) in
  let rA := createProgram quadVertSource quad1FragSource e wb in
  let rB := createProgram texVertSource texFragSource e (snd rA) in
  let checked := negb (env_ndebug e) in
  let calls := setup_calls (drv_name d 6) (drv_name d 7) tex0 tex1 fb
               ++ (if checked then completeness_check else []) ++ setup_rest in
  setup e (snd rB) = (Some (fb, tex1), records calls e (snd rB))
  /\ assert_ "!error()" (failed <- error ;; ret (negb failed)) e (records calls e (snd rB))
     = (true, records (if checked then [GlGetError] else []) e (records calls e (snd rB)))
  /\ loop_entry e
     = records (if checked then [GlGetError] else []) e (records calls e (snd rB))
  /\ loop_ready fb qp tp tex0 tex1 (w_gl (loop_entry e))
  /\ draw_buffers (w_gl (loop_entry e)) fb = Some [GL_COLOR_ATTACHMENT0]
  /\ (forall x y, texel_at (w_gl (loop_entry e)) tex1 x y = None)
  /\ gl_sampled (w_gl (loop_entry e)) = [].
Proof.
  intros wb rA rB checked calls.
  destruct cooperative_programs as (HA & HB & s & q & GB & Lq & Lt).
  fold wb rA rB in HA, HB, GB.
  destruct Hcoop as [_ _ _ (P0 & P1 & P01) (T1 & T01) F0 _ _ Hassert].
  fold d qp tp tex0 tex1 fb in P0, P1, P01, T1, T01, F0, Hassert.
  assert (Hentry0 : loop_entry e =
                    snd (assert_ "!error()" (failed <- error ;; ret (negb failed)) e
                           (snd (setup e (snd rB))))).
  { unfold loop_entry. cbv zeta. reflexivity. }
  remember (snd rB) as wB eqn:EwB. clear EwB rB rA wb HA HB.
  (* the set-up calls *)
  assert (Hsetup : setup e wB = (Some (fb, tex1), records calls e wB)).
  { pose proof (setup_run e wB) as Hs. cbv zeta in Hs. fold d in Hs.
    rewrite GB in Hs. cbn [with_build gl_allocs Nat.add] in Hs.
    fold tex0 tex1 fb in Hs. rewrite Hs. subst calls checked.
    destruct (env_ndebug e); [reflexivity|].
    destruct Hassert as [Hn|[Hc _]]; [discriminate|].
    rewrite Hc. reflexivity. }
  rewrite Hsetup in Hentry0. cbn [snd] in Hentry0.
  (* the context they leave *)
  assert (GS : w_gl (records calls e wB)
               = fold_left (gl_step d) calls (with_build 6 s q (window_state d))).
  { by rewrite gl_records, GB. }
  destruct (setup_ready d (with_build 6 s q (window_state d)) (drv_name d 6) (drv_name d 7)
              tex0 tex1 fb qp tp checked T1 T01 F0 eq_refl eq_refl eq_refl eq_refl
              P0 P1 Lq Lt) as (Hready & Hdb & Htx & Hsm & Herr).
  fold calls in Hready, Hdb, Htx, Hsm, Herr. rewrite <- GS in Hready, Hdb, Htx, Hsm, Herr.
  remember (records calls e wB) as wS eqn:EwS.
  (* the assertion *)
  assert (Hquery : assert_ "!error()" (failed <- error ;; ret (negb failed)) e wS
                   = (true, records (if checked then [GlGetError] else []) e wS)).
  { rewrite assert_run. subst checked. destruct (env_ndebug e); [reflexivity|].
    destruct Hassert as [Hn|[_ Hp]]; [discriminate|].
    rewrite bind_run, error_run.
    assert (Hcode : pending_error (w_gl wS) = GL_NO_ERROR).
    { unfold pending_error in *. by rewrite Herr. }
    rewrite Hcode. reflexivity. }
  rewrite Hquery in Hentry0. cbn [snd] in Hentry0.
  split; [exact Hsetup|]. split; [exact Hquery|]. split; [exact Hentry0|].
  rewrite Hentry0. clear Hentry0 Hquery Hsetup GS EwS.
  destruct checked; cbn [records fold_left].
  - rewrite gl_record. fold d.
    split; [by apply loop_ready_after_query|].
    split; [exact Hdb|]. split; [exact Htx|]. exact Hsm.
  - split; [exact Hready|]. split; [exact Hdb|]. split; [exact Htx|]. exact Hsm.
Qed.

(** [main] gets to the loop, and what it does from there is the loop and
    the shutdown. *)
Lemma cooperative_main (N : nat) :
  main N e (world_init e) =
  let l := frameLoop N window fb qp tp tex1 e (loop_entry e) in
  if fst l then shutdown window qp e (snd l) else (Running, snd l).
Proof.
  destruct cooperative_programs as (HA & HB & _).
  destruct cooperative_entry as (Hsetup & Hquery & Hentry & _).
  cbv zeta in HA, HB, Hsetup, Hquery, Hentry.
  destruct Hcoop as [(Hi & Hw & Hg) _ _ _ _ _ _ _ _].
  rewrite main_run. apply Z.eqb_neq in Hi, Hw. rewrite Hi, Hw, Hg.
  cbn [negb Z.eqb GLEW_OK]. cbv zeta. fold window.
  rewrite HA, HB, render_run. cbv zeta.
  rewrite Hsetup. cbn [fst snd]. rewrite Hquery. cbn [fst snd].
  by rewrite <- Hentry.
Qed.

(** On the way to the loop nothing raises the close flag, presses
    escape, polls for events or writes to the standard error stream. *)
Lemma cooperative_flags :
  w_should_close (loop_entry e) = 0 /\ w_escape (loop_entry e) = GLFW_RELEASE
  /\ w_polls (loop_entry e) = 0%nat.
Proof.
  destruct cooperative_entry as (_ & _ & Hentry & _). cbv zeta in Hentry.
  rewrite Hentry.
  destruct (createProgram_cases quadVertSource quad1FragSource e
              (records (boot_actions window) e (world_init e))) as (tA & HA & _).
  cbv zeta in HA.
  destruct (createProgram_cases texVertSource texFragSource e
              (snd (createProgram quadVertSource quad1FragSource e
                      (records (boot_actions window) e (world_init e)))))
    as (tB & HB & _).
  cbv zeta in HB. rewrite HB, HA.
  by rewrite !close_records, !escape_records, !polls_records.
Qed.

Lemma cooperative_quiet : stderr (w_trace (loop_entry e)) = [].
Proof.
  destruct cooperative_entry as (_ & _ & Hentry & _). cbv zeta in Hentry.
  rewrite Hentry. clear Hentry.
  destruct Hcoop as [_ (A0 & A1 & A01) (B0 & B1 & B01) (P0 & P1 & P01) _ _
                       (C1 & C2 & C3 & C4) (L1 & L2) _].
  fold d in A0, A1, A01, B0, B1, B01, P0, P1, P01, C1, C2, C3, C4, L1, L2.
  destruct embedded_newlines as (N1 & N2 & N3 & N4).
  destruct embedded_short as (S1 & S2 & S3 & S4).
  set (wb := records (boot_actions window) e (world_init e)).
  destruct (createProgram_whole quadVertSource quad1FragSource wb 0 ∅ ∅ (window_state d)
              boot_gl S1 S2 N1 N2 A0 A1 A01 P0 C1 C2 L1) as [_ GA].
  destruct (createProgram_quiet quadVertSource quad1FragSource wb) as (tA & HA & SA).
  { exact A0. }
  { rewrite GA. cbn [with_build gl_shaders].
    change (gl_allocs (w_gl wb)) with 0%nat.
    rewrite lookup_insert_ne by (intros H; by apply A01).
    by rewrite lookup_insert_eq. }
  set (wA := snd (createProgram quadVertSource quad1FragSource e wb)) in *.
  destruct (createProgram_whole texVertSource texFragSource wA 3 _ _ (window_state d)
              GA S3 S4 N3 N4 B0 B1 B01 P1 C3 C4 L2) as [_ GB].
  destruct (createProgram_quiet texVertSource texFragSource wA) as (tB & HB & SB).
  { rewrite GA. exact B0. }
  { rewrite GB, GA. cbn [with_build gl_shaders gl_allocs].
    rewrite lookup_insert_ne by (intros H; by apply B01).
    by rewrite lookup_insert_eq. }
  rewrite HB, HA. unfold wb.
  rewrite !trace_records, !stderr_app, SA, SB.
  by destruct (negb (env_ndebug e)).
Qed.

Lemma cooperative_no_swap : occurrences is_glfwSwapBuffers (w_trace (loop_entry e)) = 0%nat.
Proof.
  destruct cooperative_entry as (_ & _ & Hentry & _). cbv zeta in Hentry.
  rewrite Hentry. clear Hentry.
  destruct (createProgram_cases quadVertSource quad1FragSource e
              (records (boot_actions window) e (world_init e))) as (tA & HA & BA & _).
  cbv zeta in HA.
  destruct (createProgram_cases texVertSource texFragSource e
              (snd (createProgram quadVertSource quad1FragSource e
                      (records (boot_actions window) e (world_init e)))))
    as (tB & HB & BB & _).
  cbv zeta in HB. rewrite HB, HA.
  assert (Hbuild : forall t, Forall (fun a => is_build_call a = true) t ->
                             occurrences is_glfwSwapBuffers t = 0%nat).
  { intros t Ht. apply occurrences_none. eapply Forall_impl; [exact Ht|].
    intros a Ha. by destruct a. }
  rewrite !trace_records, !occurrences_app, (Hbuild tA BA), (Hbuild tB BB).
  by destruct (negb (env_ndebug e)).
Qed.

(** The context after the first turn of a loop entered with the close
    flag down and escape not held. *)
Lemma first_frame_gl (w : world) :
  w_should_close w = 0 -> w_escape w = GLFW_RELEASE ->
  w_gl (snd (frameLoop 1 window fb qp tp tex1 e w))
  = fold_left (gl_step d) (frame_actions false window fb qp tp tex1) (w_gl w).
Proof.
  intros Hc Hk. rewrite frameLoop_step, Hc. cbn [Z.eqb frameLoop ret snd].
  rewrite frame_gl, escape_record, Hk, gl_record. reflexivity.
Qed.

Lemma turns_quiet (N : nat) (turn : list action) :
  stderr turn = [] -> stderr (concat (replicate N turn)) = [].
Proof.
  intros Ht. induction N as [|N IH]; [done|].
  cbn [replicate concat]. by rewrite stderr_app, Ht, IH.
Qed.

Lemma turns_swaps (N : nat) :
  occurrences is_glfwSwapBuffers
    (concat (replicate N (iteration false window fb qp tp tex1))) = N.
Proof.
  induction N as [|N IH]; [done|].
  cbn [replicate concat]. rewrite occurrences_app, IH, iteration_one_swap. reflexivity.
Qed.

End Cooperative.

(** ** [setup] and the whole run *)

Section WholeRun.

Variable e : env.

Let d : driver := env_driver e.
Let window : Z := env_window e.

(** X13.  [setup] takes five names from the driver, the third to fifth
    for the two textures and the framebuffer object.  When the second
    texture and the framebuffer object get names that are not 0, the
    latter a new one, and the completeness assertion passes or is
    compiled out, [setup] returns and leaves: the second texture
    800 x 600 with nearest filtering and undefined contents; the two
    textures at attachments 0 and 1 of the framebuffer object, whose
    draw buffers are still the default, attachment 0; the six vertices
    of the quad ready to be fetched; the default framebuffer bound; the
    clear colour opaque black.  The program objects are untouched. *)
Theorem setup_prepares_targets (w : world) :
  let k := gl_allocs (w_gl w) in
  let tex0 := drv_name d (k + 2) in
  let tex1 := drv_name d (k + 3) in
  let fb := drv_name d (k + 4) in
  tex1 <> 0 -> fb <> 0 -> fb_objects (gl_fb (w_gl w)) !! fb = None ->
  env_ndebug e = true \/ drv_framebuffer_status d = GL_FRAMEBUFFER_COMPLETE ->
  let r := setup e w in
  let st := w_gl (snd r) in
  fst r = Some (fb, tex1)
  /\ texture_format st tex1 = Some (width, height, GL_NEAREST, GL_NEAREST)
  /\ (forall x y, texel_at st tex1 x y = None)
  /\ attachment st fb 0 = Some tex0
  /\ attachment st fb 1 = Some tex1
  /\ draw_buffers st fb = Some [GL_COLOR_ATTACHMENT0]
  /\ fetch_vertices (gl_vertex st) 0 6 = Some quad_vertices
  /\ fb_draw (gl_fb st) = 0
  /\ store_color (fb_clear_color (gl_fb st)) = black
  /\ gl_programs st = gl_programs (w_gl w)
  /\ gl_allocs st = (k + 5)%nat.
Proof.
  intros k tex0 tex1 fb Ht1 Hfb Hnew Hassert r st. subst r st.
  pose proof (setup_run e w) as Hs. cbv zeta in Hs. fold d k in Hs.
  fold tex0 tex1 fb in Hs.
  set (calls := setup_calls (drv_name d k) (drv_name d (k + 1)) tex0 tex1 fb) in *.
  set (checked := negb (env_ndebug e)).
  assert (Hrun : setup e w =
                 (Some (fb, tex1),
                  records (calls ++ (if checked then completeness_check else [])
                           ++ setup_rest) e w)).
  { rewrite Hs. subst checked. destruct (env_ndebug e); [reflexivity|].
    destruct Hassert as [Hn|Hc]; [discriminate|]. by rewrite Hc. }
  rewrite Hrun. cbn [fst snd]. rewrite gl_records. fold d.
  destruct (setup_objects d (w_gl w) (drv_name d k) (drv_name d (k + 1)) tex0 tex1 fb
              checked Ht1 Hfb Hnew)
    as (Hfmt & Htx & Ha0 & Ha1 & Hdb & Hverts & Hdraw & Hcc & _).
  destruct (setup_gl d (w_gl w) (drv_name d k) (drv_name d (k + 1)) tex0 tex1 fb checked)
    as (_ & _ & Hp & _).
  fold calls in Hfmt, Htx, Ha0, Ha1, Hdb, Hverts, Hdraw, Hcc, Hp.
  split; [reflexivity|].
  do 7 (split; [assumption|]).
  split; [by rewrite Hcc|]. split; [exact Hp|].
  rewrite <- (gl_records _ e w), gl_allocs_records. fold k.
  subst calls checked. destruct (negb (env_ndebug e)); cbn; lia.
Qed.

(** X14.  In an environment where nothing fails on the way to the loop
    and none of the first [N] rounds of events presses escape or asks
    the window to close, [main] is still running after [N] turns of the
    loop, has shown [N] frames and has written nothing to the standard
    error stream.  From the first frame on the window shows opaque blue
    in the quad, 200 <= x < 600 and 150 <= y < 450.  Around the quad the
    first frame is undefined: the clear of pass A went to the other
    texture, and the texture shown has never been written there.  From
    the second frame on the surround is opaque black. *)
Theorem main_shows_blue_quad (N : nat) :
  cooperative e ->
  (forall k, (k < N)%nat -> quiet (env_events e k) = true) ->
  let r := main N e (world_init e) in
  let st := w_gl (snd r) in
  fst r = Running
  /\ stderr (w_trace (snd r)) = []
  /\ occurrences is_glfwSwapBuffers (w_trace (snd r)) = N
  /\ ((1 <= N)%nat -> forall x y, in_quad x y = true -> shown st x y = Some blue)
  /\ (N = 1%nat ->
      forall x y, in_window x y = true -> in_quad x y = false -> shown st x y = None)
  /\ ((2 <= N)%nat ->
      forall x y, in_window x y = true -> in_quad x y = false ->
        shown st x y = Some black).
Proof.
  intros Hcoop Hquiet r st. subst r st.
  rewrite (cooperative_main e Hcoop N). cbv zeta.
  destruct (cooperative_entry e Hcoop) as (_ & _ & _ & Hready & Hdb & Htx & _).
  destruct (cooperative_flags e Hcoop) as (Hc0 & Hk0 & Hp0).
  destruct (frames_invariant (env_window e) _ _ _ _ _ e N (loop_entry e) Hready Hc0 Hk0)
    as (Hleft & _ & _ & _ & _ & Ht & _ & Hblue & Hblack).
  { intros k Hk. rewrite Hp0. by apply Hquiet. }
  cbv zeta in Hleft, Ht, Hblue, Hblack.
  assert (Hfirst : N = 1%nat ->
            forall x y, in_window x y = true -> in_quad x y = false ->
              shown (w_gl (snd (frameLoop N (env_window e) (drv_name (env_driver e) 10)
                                  (drv_name (env_driver e) 2) (drv_name (env_driver e) 5)
                                  (drv_name (env_driver e) 9) e (loop_entry e)))) x y
              = None).
  { intros -> x y Hw Hq.
    rewrite (first_frame_gl e (loop_entry e) Hc0 Hk0).
    rewrite (frame_shown _ _ _ _ _ _ _ _ Hready x y Hw).
    rewrite (frame_keeps_surround _ _ _ _ _ _ _ _ Hready Hdb x y Hq).
    by rewrite Htx. }
  rewrite Hleft. cbn [fst snd].
  split; [reflexivity|].
  split.
  { rewrite Ht, stderr_app, (cooperative_quiet e Hcoop).
    by rewrite turns_quiet. }
  split.
  { rewrite Ht, occurrences_app, (cooperative_no_swap e Hcoop).
    apply (turns_swaps e). }
  split; [intros HN x y Hq; by apply (Hblue HN)|].
  split; [exact Hfirst|].
  intros HN x y Hw Hq. by apply Hblack.
Qed.

End WholeRun.

Lemma setup_prepares_targets_witness :
  let e := plain_env accepting_driver no_events in
  let r := setup e (world_init e) in
  fst r = Some (5, 4) /\ attachment (w_gl (snd r)) 5 1 = Some 4.
Proof.
  destruct (setup_prepares_targets (plain_env accepting_driver no_events)
              (world_init (plain_env accepting_driver no_events)))
    as (Hr & _ & _ & _ & Ha1 & _).
  - discriminate.
  - discriminate.
  - reflexivity.
  - right. reflexivity.
  - split; [exact Hr|exact Ha1].
Defined.

Lemma accepting_cooperative : cooperative (plain_env accepting_driver no_events).
Proof.
  split.
  - split; [discriminate|]. split; [discriminate|reflexivity].
  - repeat split; discriminate.
  - repeat split; discriminate.
  - repeat split; discriminate.
  - repeat split; discriminate.
  - discriminate.
  - repeat split; discriminate.
  - repeat split; discriminate.
  - right. split; reflexivity.
Qed.

Lemma main_shows_blue_quad_witness :
  let e := plain_env accepting_driver no_events in
  let st1 := w_gl (snd (main 1 e (world_init e))) in
  cooperative e
  /\ shown st1 400 300 = Some blue /\ shown st1 0 0 = None.
Proof.
  split; [exact accepting_cooperative|].
  destruct (main_shows_blue_quad (plain_env accepting_driver no_events) 1
              accepting_cooperative (fun k _ => eq_refl))
    as (_ & _ & _ & Hblue & Hfirst & _).
  split.
  - exact (Hblue (le_n 1) 400 300 eq_refl).
  - exact (Hfirst eq_refl 0 0 eq_refl eq_refl).
Defined.
